(** * Variant diff helpers of the rota app: a shallow embedding

    The module [variant_diff_helpers.py] compares two solved rota workbooks
    cell by cell.  This development embeds its six functions
    ([_norm], [common_sheets], [diff_sheet], [diff_summary],
    [top_changed_rows], [top_changed_cols]) together with the parts of the
    Python runtime, of openpyxl and of pandas they call, and proves the
    properties the specification states about them.

    Layout: the embedding comes first (strings, floats, openpyxl, pandas,
    then the helpers themselves), the lemmas and theorems follow. *)

From Stdlib Require Import ZArith NArith List Lia Bool String Ascii.
From Stdlib Require Import Floats.SpecFloat.
From stdpp Require Import base list gmap sorting strings.

Local Open Scope Z_scope.

(** ** Python strings

    A Python [str] is a sequence of Unicode code points.  String literals of
    the source are written [py "..."]. *)

Module PyStr.

Definition pystr := list N.

Fixpoint py (s : string) : pystr :=
  match s with
  | EmptyString => []
  | String a s' => N_of_ascii a :: py s'
  end.

(** [str.isspace] on one code point, the table behind [str.strip()]:
    U+0009..U+000D, U+001C..U+0020, U+0085, U+00A0, U+1680,
    U+2000..U+200A, U+2028, U+2029, U+202F, U+205F, U+3000. *)
Definition isspace (c : N) : bool :=
  ((9 <=? c) && (c <=? 13) || (28 <=? c) && (c <=? 32)
   || (c =? 133) || (c =? 160) || (c =? 5760)
   || (8192 <=? c) && (c <=? 8202)
   || (c =? 8232) || (c =? 8233) || (c =? 8239) || (c =? 8287)
   || (c =? 12288))%N.

Fixpoint lstrip (s : pystr) : pystr :=
  match s with
  | [] => []
  | c :: s' => if isspace c then lstrip s' else s
  end.

Definition rstrip (s : pystr) : pystr := rev (lstrip (rev s)).

(** [s.strip()] *)
Definition strip (s : pystr) : pystr := rstrip (lstrip s).

(** The decimal digit [d] (0..9) as a character. *)
Definition digit_char (d : Z) : N := Z.to_N (48 + d).

Fixpoint digits_fuel (fuel : nat) (n : Z) (acc : pystr) : pystr :=
  match fuel with
  | O => acc
  | S fuel' =>
      let acc' := digit_char (n mod 10) :: acc in
      if n <? 10 then acc' else digits_fuel fuel' (n / 10) acc'
  end.

(** Decimal digits of a natural number [n >= 0], most significant first. *)
Definition str_nat (n : Z) : pystr :=
  digits_fuel (S (Z.to_nat (Z.log2 n))) n [].

(** [str(n)] for a Python [int]. *)
Definition str_int (n : Z) : pystr :=
  if n <? 0 then py "-" ++ str_nat (- n) else str_nat n.

(** [str(b)] for a Python [bool]. *)
Definition str_bool (b : bool) : pystr :=
  if b then py "True" else py "False".

(** ["0" * n] *)
Definition zeros (n : Z) : pystr := replicate (Z.to_nat n) 48%N.

Fixpoint drop_leading_zeros (s : pystr) : pystr :=
  match s with
  | [] => []
  | c :: s' => if (c =? 48)%N then drop_leading_zeros s' else s
  end.

(** Drop the trailing ["0"] characters of a digit string. *)
Definition strip_trailing_zeros (s : pystr) : pystr :=
  rev (drop_leading_zeros (rev s)).

(** *** Vocabulary of the specification *)

(** No whitespace stands at the front of [s]. *)
Definition clean_front (s : pystr) : Prop :=
  match s with
  | [] => True
  | c :: _ => isspace c = false
  end.

(** No whitespace stands at either end of [s]. *)
Definition clean_ends (s : pystr) : Prop :=
  clean_front s ∧ clean_front (rev s).

(** No character of [s] is whitespace. *)
Definition spaceless (s : pystr) : Prop := Forall (λ c, isspace c = false) s.

(** Every character of [s] is whitespace. *)
Definition blank (s : pystr) : Prop := Forall (λ c, isspace c = true) s.

(** A decimal digit, and a string of decimal digits. *)
Definition is_digit (c : N) : Prop := (48 <= c <= 57)%N.

Definition all_digits (s : pystr) : Prop := Forall is_digit s.

(** The number a string of decimal digits denotes, read after the digits
    [acc] already seen. *)
Fixpoint dec_value_from (acc : Z) (s : pystr) : Z :=
  match s with
  | [] => acc
  | c :: s' => dec_value_from (10 * acc + (Z.of_N c - 48)) s'
  end.

Definition dec_value (s : pystr) : Z := dec_value_from 0 s.

(** The integer a decimal string with an optional minus sign denotes. *)
Definition int_of_str (s : pystr) : Z :=
  match s with
  | 45%N :: s' => - dec_value s'
  | _ => dec_value s
  end.

End PyStr.

(** ** Python floats

    A number cell read by openpyxl holds a Python [float], an IEEE 754
    binary64 value.  The arithmetic is the one of [SpecFloat] at precision 53.
    This module has the floats on which [_norm] returns: a signed zero or a
    finite [(-1)^s * m * 2^e].  The infinities and NaN, on which it raises,
    are added in [Raising] below. *)

Module PyFloat.
Import PyStr.

Definition prec : Z := 53.
Definition emax : Z := 1024.

Inductive pyfloat :=
  | Fzero (s : bool)
  | Ffinite (s : bool) (m : positive) (e : Z).

Definition SF (v : pyfloat) : spec_float :=
  match v with
  | Fzero s => S754_zero s
  | Ffinite s m e => S754_finite s m e
  end.

(** The float is a binary64 value in canonical form. *)
Definition valid_float (v : pyfloat) : bool := valid_binary prec emax (SF v).

(** [|v| = num m e / den e], exactly. *)
Definition num (m : positive) (e : Z) : Z :=
  if 0 <=? e then Z.pos m * 2 ^ e else Z.pos m.

Definition den (e : Z) : Z :=
  if 0 <=? e then 1 else 2 ^ (- e).

(** The integer nearest to [n / d] for [d > 0], a tie going to the even
    one. *)
Definition div_half_even (n d : Z) : Z :=
  let q := n / d in
  let r := n mod d in
  if 2 * r <? d then q
  else if d <? 2 * r then q + 1
  else if Z.even q then q else q + 1.

(** [round(v)]: a Python [int], ties to even. *)
Definition py_round (v : pyfloat) : Z :=
  match v with
  | Fzero _ => 0
  | Ffinite s m e => cond_Zopp s (div_half_even (num m e) (den e))
  end.

(** The conversion of an [int] operand in mixed arithmetic. *)
Definition float_of_int (n : Z) : spec_float :=
  binary_normalize prec emax n 0 false.

(** The literal [1e-9]: the binary64 value [0x3E112E0BE826D695]. *)
Definition lit_1e_9 : spec_float :=
  S754_finite false 4835703278458517 (-82).

(** [abs(v - round(v)) < 1e-9] *)
Definition near_integer (v : pyfloat) : bool :=
  SFltb (SFabs (SFsub prec emax (SF v) (float_of_int (py_round v)))) lit_1e_9.

(** *** [format(v, ".10g")]

    The digits come from the correctly rounded decimal conversion
    ([_Py_dg_dtoa], mode 2), done here in exact integer arithmetic on the
    fraction [n / d]. *)

(** Number of decimal digits of [n > 0]. *)
Definition ndigits (n : Z) : Z := Z.of_nat (length (str_nat n)).

(** [10^x * d <= n], for an exponent [x] of either sign. *)
Definition pow10_le (x n d : Z) : bool :=
  if 0 <=? x then 10 ^ x * d <=? n else d <=? n * 10 ^ (- x).

(** [floor (log10 (n / d))] for [n, d > 0]. *)
Definition floor_log10 (n d : Z) : Z :=
  let x0 := ndigits n - ndigits d in
  if pow10_le x0 n d then x0 else x0 - 1.

(** [n / d] rounded to [ndig] significant digits: the digits as an integer
    [q] with [10^(ndig-1) <= q < 10^ndig], and the decimal exponent [x] of
    the leading digit, so that [n / d] is about [q * 10^(x - (ndig-1))]. *)
Definition dtoa (ndig n d : Z) : Z * Z :=
  let x := floor_log10 n d in
  let sh := x - (ndig - 1) in
  let q := if 0 <=? sh then div_half_even n (d * 10 ^ sh)
           else div_half_even (n * 10 ^ (- sh)) d in
  if 10 ^ ndig <=? q then (10 ^ (ndig - 1), x + 1) else (q, x).

(** The exponent part: a sign and at least two digits. *)
Definition format_exp (x : Z) : pystr :=
  py "e" ++ (if x <? 0 then py "-" else py "+")
         ++ (if Z.abs x <? 10 then py "0" else [])
         ++ str_nat (Z.abs x).

(** The layout of the ['g'] presentation type: [digits] without trailing
    zeros, the decimal point standing before position [decpt]. *)
Definition format_g (precision : Z) (neg : bool) (digits : pystr) (decpt : Z)
  : pystr :=
  let len := Z.of_nat (length digits) in
  (if neg then py "-" else []) ++
  (if (decpt <=? -4) || (precision <? decpt) then
     take 1 digits ++ (if 1 <? len then py "." ++ drop 1 digits else [])
       ++ format_exp (decpt - 1)
   else if decpt <=? 0 then py "0." ++ zeros (- decpt) ++ digits
   else if len <=? decpt then digits ++ zeros (decpt - len)
   else take (Z.to_nat decpt) digits ++ py "." ++ drop (Z.to_nat decpt) digits).

(** The significant digits [format(v, ".10g")] prints. *)
Definition significant_digits (v : pyfloat) : pystr :=
  match v with
  | Fzero _ => py "0"
  | Ffinite _ m e =>
      strip_trailing_zeros (str_nat (fst (dtoa 10 (num m e) (den e))))
  end.

(** [f"{v:.10g}"] *)
Definition format_10g (v : pyfloat) : pystr :=
  match v with
  | Fzero s => format_g 10 s (significant_digits v) 1
  | Ffinite s m e =>
      format_g 10 s (significant_digits v)
        (snd (dtoa 10 (num m e) (den e)) + 1)
  end.

(** *** Vocabulary of the specification *)

(** [q * 10^x] is within half a unit of the digit position [x] of
    [n / d]: [|n / d - q * 10^x| <= 10^x / 2], in integers. *)
Definition within_half_unit (n d q x : Z) : Prop :=
  if 0 <=? x then Z.abs (2 * n - 2 * q * (d * 10 ^ x)) <= d * 10 ^ x
  else Z.abs (2 * (n * 10 ^ (- x)) - 2 * q * d) <= d.

(** The numerator of [|v - round(v)|] over the denominator [den e]. *)
Definition round_distance (m : positive) (e : Z) : Z :=
  Z.abs (num m e - div_half_even (num m e) (den e) * den e).

(** [|v - round(v)| < 10^-9], in exact arithmetic. *)
Definition within_1e_9 (v : pyfloat) : Prop :=
  match v with
  | Fzero _ => True
  | Ffinite _ m e => round_distance m e * 10 ^ 9 < den e
  end.

(** [|v - round(v)|] is below the binary64 value of the literal [1e-9],
    [4835703278458517 / 2^82]. *)
Definition below_lit_1e_9 (v : pyfloat) : Prop :=
  match v with
  | Fzero _ => True
  | Ffinite _ m e =>
      round_distance m e * 2 ^ 82 < 4835703278458517 * den e
  end.

End PyFloat.

(** ** openpyxl: cell values, worksheets, workbooks

    The workbooks are the ones [openpyxl.load_workbook(..., data_only=True)]
    hands back; decoding the byte buffers is outside the helpers. *)

Module Openpyxl.
Import PyStr PyFloat.

(** Every value other than [None] and a [float]: the helpers only ever take
    its [str()].  Dates, times and the like are carried by the text
    [str()] gives for them. *)
Inductive pyobject :=
  | PyInt (n : Z)
  | PyBool (b : bool)
  | PyStr (s : pystr)
  | PyOther (repr : pystr).

(** [str(o)] *)
Definition py_str (o : pyobject) : pystr :=
  match o with
  | PyInt n => str_int n
  | PyBool b => str_bool b
  | PyStr s => s
  | PyOther repr => repr
  end.

(** What [cell.value] can be. *)
Inductive value :=
  | VNone
  | VFloat (f : pyfloat)
  | VObj (o : pyobject).

(** A worksheet: its title, its dimensions and the cells it stores, keyed
    by (row, column), both counted from 1. *)
Record Worksheet := {
  title : pystr;
  max_row : Z;
  max_column : Z;
  _cells : gmap (Z * Z) value
}.

(** Every stored cell lies within the sheet's dimensions, as it does for a
    loaded sheet, whose dimensions are computed from the stored cells. *)
Definition populated_within (ws : Worksheet) : Prop :=
  ∀ r c v, _cells ws !! (r, c) = Some v →
           1 <= r <= max_row ws ∧ 1 <= c <= max_column ws.

(** [ws.cell(r, c).value]: a cell that is not stored reads as [None]. *)
Definition cell_value (ws : Worksheet) (r c : Z) : value :=
  default VNone (_cells ws !! (r, c)).

Record Workbook := { _sheets : list Worksheet }.

(** [wb.sheetnames] *)
Definition sheetnames (wb : Workbook) : list pystr := title <$> _sheets wb.

Fixpoint find_sheet (key : pystr) (l : list Worksheet) : option Worksheet :=
  match l with
  | [] => None
  | ws :: l' => if decide (title ws = key) then Some ws else find_sheet key l'
  end.

(** [wb[key]]: the first sheet of that title; [None] stands for the
    [KeyError] of a title that is not in [wb.sheetnames]. *)
Definition getitem (wb : Workbook) (key : pystr) : option Worksheet :=
  find_sheet key (_sheets wb).

Fixpoint column_letters (fuel : nat) (col_idx : Z) (letters : pystr) : pystr :=
  match fuel with
  | O => letters
  | S fuel' =>
      if 0 <? col_idx then
        let q := col_idx / 26 in
        let r := col_idx mod 26 in
        if r =? 0 then column_letters fuel' (q - 1) (Z.to_N (26 + 64) :: letters)
        else column_letters fuel' q (Z.to_N (r + 64) :: letters)
      else letters
  end.

(** [get_column_letter(idx)]: A, B, ..., Z, AA, AB, ...  openpyxl serves
    the indices 1..18278 (A..ZZZ) from a table filled by this loop; the loop
    itself is defined for every positive index. *)
Definition get_column_letter (idx : Z) : pystr :=
  column_letters (Z.to_nat idx) idx [].

End Openpyxl.

(** ** pandas: the few DataFrame operations the helpers use *)

Module Pandas.
Import PyStr.

(** A table: its column labels and its rows, in order. *)
Record DataFrame (R : Type) := {
  columns : list pystr;
  records : list R
}.
Arguments columns {R} _.
Arguments records {R} _.

(** [pd.DataFrame(columns=cols)] *)
Definition empty_frame {R : Type} (cols : list pystr) : DataFrame R :=
  {| columns := cols; records := [] |}.

(** [df.empty] *)
Definition empty {R : Type} (df : DataFrame R) : bool :=
  match records df with [] => true | _ => false end.

(** [len(df)] *)
Definition len {R : Type} (df : DataFrame R) : Z := Z.of_nat (length (records df)).

(** [series.nunique()]: how many distinct values the column holds. *)
Definition nunique (col : list Z) : Z := Z.of_nat (length (remove_dups col)).

(** [df.groupby(key, as_index=False).size()]: one row per distinct key, the
    keys in ascending order ([sort=True] is the default), each with the
    number of rows that carry it. *)
Definition groupby_size (keys : list Z) : list (Z * Z) :=
  (λ k, (k, Z.of_nat (length (filter (λ k', k' = k) keys))))
    <$> merge_sort Z.le (remove_dups keys).

(** [df.sort_values(by, ascending=False)] on a table of (key, size) rows,
    sorted by size.  The default [kind='quicksort'] promises a permutation
    of the rows in descending order of the column and nothing about rows
    that tie, so the sort is kept abstract behind exactly that contract. *)
Class SortValues := {
  sort_values_desc : list (Z * Z) → list (Z * Z);
  sort_values_perm : ∀ l, sort_values_desc l ≡ₚ l;
  sort_values_sorted : ∀ l, Sorted (λ x y, x.2 >= y.2) (sort_values_desc l)
}.

(** A sort is stable when rows that tie keep their relative order: the
    rows of any one size come out in the order they went in. *)
Definition stable (sort : list (Z * Z) → list (Z * Z)) : Prop :=
  ∀ l n, filter (λ x, x.2 = n) (sort l) = filter (λ x, x.2 = n) l.

(** Insertion of a row into a table sorted by descending size, ahead of
    the rows of its own size. *)
Fixpoint insert_desc (x : Z * Z) (l : list (Z * Z)) : list (Z * Z) :=
  match l with
  | [] => [x]
  | y :: l' => if x.2 <? y.2 then y :: insert_desc x l' else x :: l
  end.

(** Insertion sort by descending size: one sort that meets the contract of
    [sort_values], and a stable one (numpy's quicksort is this insertion
    sort on short arrays). *)
Definition insertion_sort_desc (l : list (Z * Z)) : list (Z * Z) :=
  foldr insert_desc [] l.

(** [df.head(n)]: the first [n] rows, or all but the last [-n] when [n] is
    negative. *)
Definition head {R : Type} (n : Z) (l : list R) : list R :=
  if 0 <=? n then take (Z.to_nat n) l
  else take (length l - Z.to_nat (- n)) l.

End Pandas.

(** ** The helpers of [variant_diff_helpers.py] *)

Module VariantDiff.
Import PyStr PyFloat Openpyxl Pandas.

Definition _norm (v : value) : pystr :=
  match v with
  | VNone => py ""
  | VFloat f =>
      if near_integer f then str_int (py_round f)
      else format_10g f
  | VObj o => strip (py_str o)
  end.

Definition common_sheets (wb_a wb_b : Workbook) : list pystr :=
  filter (λ s, s ∈ sheetnames wb_b) (sheetnames wb_a).

(** One row of the table [diff_sheet] returns. *)
Record Change := {
  Cell : pystr;
  Row : Z;
  Col : Z;
  A : pystr;
  B : pystr
}.

Definition diff_columns : list pystr :=
  [py "Cell"; py "Row"; py "Col"; py "A"; py "B"].

(** [x or 1] on an [int] *)
Definition or_1 (x : Z) : Z := if x =? 0 then 1 else x.

(** [range(a, b)] *)
Definition range (a b : Z) : list Z := seqZ a (b - a).

Section Scan.
Context (ws_a ws_b : Worksheet) (max_changes max_col : Z).

(** [len(changes) >= max_changes] *)
Definition cap_reached (changes : list Change) : bool :=
  max_changes <=? Z.of_nat (length changes).

(** The inner loop over the columns [cols] still to visit in row [r];
    returning early is its [break]. *)
Fixpoint scan_row (r : Z) (cols : list Z) (changes : list Change)
  : list Change :=
  match cols with
  | [] => changes
  | c :: cols' =>
      let va := _norm (cell_value ws_a r c) in
      let vb := _norm (cell_value ws_b r c) in
      if bool_decide (va ≠ vb) then
        let changes' :=
          changes ++ [ {| Cell := get_column_letter c ++ str_int r;
                          Row := r; Col := c; A := va; B := vb |} ] in
        if cap_reached changes' then changes'
        else scan_row r cols' changes'
      else scan_row r cols' changes
  end.

(** The outer loop over the rows still to visit, with its own test of the
    cap after each row. *)
Fixpoint scan_rows (rows : list Z) (changes : list Change) : list Change :=
  match rows with
  | [] => changes
  | r :: rows' =>
      let changes' := scan_row r (range 1 (max_col + 1)) changes in
      if cap_reached changes' then changes'
      else scan_rows rows' changes'
  end.
End Scan.

Definition diff_sheet (wb_a wb_b : Workbook) (sheet_name : pystr)
    (max_changes : Z) : DataFrame Change :=
  if bool_decide (sheet_name ∉ sheetnames wb_a ∨ sheet_name ∉ sheetnames wb_b)
  then empty_frame diff_columns
  else
    match getitem wb_a sheet_name, getitem wb_b sheet_name with
    | Some ws_a, Some ws_b =>
        let max_row := Z.max (or_1 (max_row ws_a)) (or_1 (max_row ws_b)) in
        let max_col := Z.max (or_1 (max_column ws_a)) (or_1 (max_column ws_b)) in
        let changes :=
          scan_rows ws_a ws_b max_changes max_col (range 1 (max_row + 1)) [] in
        {| columns := diff_columns; records := changes |}
    | _, _ =>
        (* not reached: past the guard both titles are in [sheetnames] *)
        empty_frame diff_columns
    end.

(** The dictionary [diff_summary] returns, by key. *)
Record Summary := {
  changed_cells : Z;
  changed_rows : Z;
  changed_cols : Z
}.

Definition diff_summary (diffs : DataFrame Change) : Summary :=
  if empty diffs then
    {| changed_cells := 0; changed_rows := 0; changed_cols := 0 |}
  else
    {| changed_cells := len diffs;
       changed_rows := nunique (Row <$> records diffs);
       changed_cols := nunique (Col <$> records diffs) |}.

Section Hotspots.
Context `{SortValues}.

Definition top_changed_rows (diffs : DataFrame Change) (top_n : Z)
  : DataFrame (Z * Z) :=
  if empty diffs then empty_frame [py "Row"; py "ChangedCells"]
  else
    {| columns := [py "Row"; py "ChangedCells"];
       records :=
         head top_n (sort_values_desc (groupby_size (Row <$> records diffs))) |}.

Definition top_changed_cols (diffs : DataFrame Change) (top_n : Z)
  : DataFrame (Z * Z) :=
  if empty diffs then empty_frame [py "Col"; py "ChangedCells"]
  else
    {| columns := [py "Col"; py "ChangedCells"];
       records :=
         head top_n (sort_values_desc (groupby_size (Col <$> records diffs))) |}.
End Hotspots.

(** *** Vocabulary of the specification

    The notions the theorems are stated with; none of them is used by the
    helpers above. *)

(** The rows and columns [diff_sheet] scans on a pair of sheets. *)
Definition scan_max_row (ws_a ws_b : Worksheet) : Z :=
  Z.max (or_1 (max_row ws_a)) (or_1 (max_row ws_b)).

Definition scan_max_col (ws_a ws_b : Worksheet) : Z :=
  Z.max (or_1 (max_column ws_a)) (or_1 (max_column ws_b)).

(** The coordinates [1..n_rows] x [1..n_cols] in row-major order: all the
    columns of row 1, then row 2, and so on. *)
Definition scan_coords (n_rows n_cols : Z) : list (Z * Z) :=
  r ← seqZ 1 n_rows; (λ c, (r, c)) <$> seqZ 1 n_cols.

(** The two sheets disagree at a coordinate: the normalized values differ. *)
Definition differs (ws_a ws_b : Worksheet) (rc : Z * Z) : Prop :=
  _norm (cell_value ws_a rc.1 rc.2) ≠ _norm (cell_value ws_b rc.1 rc.2).

(** The difference record of a coordinate. *)
Definition change_at (ws_a ws_b : Worksheet) (rc : Z * Z) : Change :=
  {| Cell := get_column_letter rc.2 ++ str_int rc.1;
     Row := rc.1; Col := rc.2;
     A := _norm (cell_value ws_a rc.1 rc.2);
     B := _norm (cell_value ws_b rc.1 rc.2) |}.

(** Every discrepancy of the scan range, in row-major scan order: what an
    uncapped scan would report. *)
Definition discrepancies (ws_a ws_b : Worksheet) : list Change :=
  change_at ws_a ws_b
    <$> filter (differs ws_a ws_b)
          (scan_coords (scan_max_row ws_a ws_b) (scan_max_col ws_a ws_b)).

(** The discrepancies of row [r] over the columns [cols], in order. *)
Definition row_changes (ws_a ws_b : Worksheet) (r : Z) (cols : list Z)
  : list Change :=
  change_at ws_a ws_b <$> filter (differs ws_a ws_b) ((λ c, (r, c)) <$> cols).

(** The discrepancies of the rows [rows], row after row. *)
Definition all_changes (ws_a ws_b : Worksheet) (rows cols : list Z)
  : list Change :=
  rows ≫= (λ r, row_changes ws_a ws_b r cols).

(** A coordinate appears among the records of a table. *)
Definition appears (r c : Z) (df : DataFrame Change) : Prop :=
  ∃ ch, ch ∈ records df ∧ Row ch = r ∧ Col ch = c.

(** Row-major order on records: by row, then by column. *)
Definition row_major (x y : Change) : Prop :=
  Row x < Row y ∨ (Row x = Row y ∧ Col x < Col y).

(** A record with its [A] and [B] fields exchanged. *)
Definition swap_sides (ch : Change) : Change :=
  {| Cell := Cell ch; Row := Row ch; Col := Col ch; A := B ch; B := A ch |}.

(** The cap contract as the specification words it, for a cap [k]: the
    records come in row-major scan order, and when more than [k]
    coordinates differ the result is exactly the first [k] discrepancies. *)
Definition cap_enforced (wb_a wb_b : Workbook) (name : pystr) (k : Z) : Prop :=
  ∀ ws_a ws_b,
    getitem wb_a name = Some ws_a → getitem wb_b name = Some ws_b →
    let got := records (diff_sheet wb_a wb_b name k) in
    let all := discrepancies ws_a ws_b in
    (StronglySorted row_major got ∧ got `prefix_of` all)
    ∧ (k < Z.of_nat (length all) →
       Z.of_nat (length got) = k ∧ got = take (Z.to_nat k) all).

(** The behaviour claimed for a cap below 1: whenever some coordinate of
    the scan range differs, the result is exactly the first discrepancy in
    row-major order; and no result is longer than [max k 1]. *)
Definition low_cap_first_discrepancy (wb_a wb_b : Workbook) (name : pystr)
    (k : Z) : Prop :=
  ∀ ws_a ws_b,
    getitem wb_a name = Some ws_a → getitem wb_b name = Some ws_b →
    (k <= 0 → discrepancies ws_a ws_b ≠ [] →
     records (diff_sheet wb_a wb_b name k) = take 1 (discrepancies ws_a ws_b))
    ∧ len (diff_sheet wb_a wb_b name k) <= Z.max k 1.

(** The sum of the counts of a hotspot table. *)
Definition total_count (out : list (Z * Z)) : Z := foldr Z.add 0 (out.*2).

(** The number of records that carry the index [i] in a column. *)
Definition occurrences (i : Z) (col : list Z) : Z :=
  Z.of_nat (length (filter (λ j, j = i) col)).

(** The table is sorted by count, descending. *)
Definition sorted_by_count_desc (out : list (Z * Z)) : Prop :=
  Sorted (λ x y, x.2 >= y.2) out.

(** Groups of equal count stand in ascending order of their index. *)
Definition ties_in_index_order (out : list (Z * Z)) : Prop :=
  ∀ i j x y, out !! i = Some x → out !! j = Some y → (i < j)%nat →
             x.2 = y.2 → x.1 < y.1.

(** The position at which an index is first met in a column. *)
Definition first_seen (col : list Z) (i : Z) : option nat :=
  fst <$> list_find (λ j, j = i) col.

(** Groups of equal count stand in the order in which their indices are
    first met in the column [col] of the input. *)
Definition ties_in_first_seen_order (col : list Z) (out : list (Z * Z)) : Prop :=
  ∀ i j x y p q, out !! i = Some x → out !! j = Some y → (i < j)%nat →
                 x.2 = y.2 →
                 first_seen col x.1 = Some p → first_seen col y.1 = Some q →
                 (p < q)%nat.

(** The hotspot contract as the specification words it, for one of the two
    rankings: at most [n] pairs, sorted by count descending, ties in
    first-met order, an empty table for no differences, and counts that
    sum to at most [changed_cells]. *)
Definition hotspot_contract (diffs : DataFrame Change) (n : Z)
    (col : list Z) (out : DataFrame (Z * Z)) : Prop :=
  len out <= n
  ∧ sorted_by_count_desc (records out)
  ∧ ties_in_first_seen_order col (records out)
  ∧ (records diffs = [] → records out = [])
  ∧ total_count (records out) <= changed_cells (diff_summary diffs).

(** The ranking both hotspot helpers compute from a column of indices. *)
Definition ranked `{SortValues} (keys : list Z) (n : Z) : list (Z * Z) :=
  head n (sort_values_desc (groupby_size keys)).

(** The coordinate lies in the populated range of the sheet. *)
Definition in_populated_range (ws : Worksheet) (r c : Z) : Prop :=
  1 <= r <= max_row ws ∧ 1 <= c <= max_column ws.

End VariantDiff.

(** ** Example data

    The values and workbooks of the specification's examples, and a second
    pair of workbooks with several discrepancies. *)

Module Examples.
Import PyStr PyFloat Openpyxl.

(** The binary64 values the literals [1.0], [2.0], [2.00000000001] and
    [2.1] denote. *)
Definition float_1_0 : pyfloat := Ffinite false 4503599627370496 (-52).
Definition float_2_0 : pyfloat := Ffinite false 4503599627370496 (-51).
Definition float_2_00000000001 : pyfloat := Ffinite false 4503599627393014 (-51).
Definition float_2_1 : pyfloat := Ffinite false 4728779608739021 (-51).

(** [Ffinite false m e] is a binary64 value nearest to the decimal
    [p / 10^k]: it is off by at most half a unit in the last place. *)
Definition nearest_to_decimal (m : positive) (e : Z) (p k : Z) : Prop :=
  e < 0 ∧ valid_float (Ffinite false m e) = true
  ∧ Z.abs (2 * (Z.pos m * 10 ^ k - p * 2 ^ (- e))) <= 10 ^ k.

(** A text cell. *)
Definition text (s : string) : value := VObj (PyStr (py s)).

Definition sheet (name : string) (n_rows n_cols : Z)
    (cells : list (Z * Z * value)) : Worksheet :=
  {| title := py name; max_row := n_rows; max_column := n_cols;
     _cells := list_to_map cells |}.

(** The end-to-end example: workbook A has the sheets Rota and Notes,
    workbook B the sheets Rota and Audit; B2 of Rota holds Alice in A and
    Bob in B, every other cell agrees. *)
Definition rota_alice : Worksheet :=
  sheet "Rota" 2 2 [((1, 1), text "Name"); ((2, 2), text "Alice")].

Definition rota_bob : Worksheet :=
  sheet "Rota" 2 2 [((1, 1), text "Name"); ((2, 2), text "Bob")].

Definition wb_alice : Workbook :=
  {| _sheets := [rota_alice; sheet "Notes" 1 1 []] |}.

Definition wb_bob : Workbook :=
  {| _sheets := [rota_bob; sheet "Audit" 1 1 []] |}.

(** Two workbooks whose Rota sheets differ at A1, A2 and C2, and agree at
    B1 ([1.0] against [1]). *)
Definition rota_left : Worksheet :=
  sheet "Rota" 2 3 [((1, 1), text "x"); ((1, 2), VFloat float_1_0);
                    ((2, 3), VFloat float_2_1)].

Definition rota_right : Worksheet :=
  sheet "Rota" 2 3 [((1, 1), text "y"); ((1, 2), VObj (PyInt 1));
                    ((2, 1), text "z"); ((2, 3), VFloat float_2_0)].

Definition wb_left : Workbook := {| _sheets := [rota_left] |}.

Definition wb_right : Workbook := {| _sheets := [rota_right] |}.

(** Two workbooks whose Rota sheets differ at B1 and at A2: the scan meets
    column 2 before column 1. *)
Definition rota_lower : Worksheet :=
  sheet "Rota" 2 2 [((1, 2), text "p"); ((2, 1), text "q")].

Definition rota_upper : Worksheet :=
  sheet "Rota" 2 2 [((1, 2), text "P"); ((2, 1), text "Q")].

Definition wb_lower : Workbook := {| _sheets := [rota_lower] |}.

Definition wb_upper : Workbook := {| _sheets := [rota_upper] |}.

(** Two workbooks with no sheet in common. *)
Definition wb_notes : Workbook := {| _sheets := [ sheet "Notes" 1 1 [] ] |}.
Definition wb_audit : Workbook := {| _sheets := [ sheet "Audit" 1 1 [] ] |}.

End Examples.

(** ** Exceptions

    The helpers and the code around them can raise; a computation that may
    raise returns a [result].  [Other] stands for the exceptions of the
    environment (the file system, a subprocess), by their class name. *)

Module PyExn.

Inductive exn :=
  | IndexError
  | StopIteration
  | ValueError
  | OverflowError
  | AttributeError
  | IllegalCharacterError
  | Other (name : list N).

Inductive result (A : Type) :=
  | Ok (a : A)
  | Raise (e : exn).
Arguments Ok {A} a.
Arguments Raise {A} e.

#[global] Instance result_ret : MRet result := λ A, Ok.
#[global] Instance result_bind : MBind result := λ A B f x,
  match x with
  | Ok a => f a
  | Raise e => Raise e
  end.

#[global] Instance result_fmap : FMap result := λ A B f x,
  match x with
  | Ok a => Ok (f a)
  | Raise e => Raise e
  end.

(** [l.index(x)]: the position of the first occurrence, [ValueError]
    without one. *)
Fixpoint index {A} `{EqDecision A} (x : A) (l : list A) : result nat :=
  match l with
  | [] => Raise ValueError
  | y :: l' => if decide (y = x) then Ok 0%nat else S <$> index x l'
  end.

End PyExn.

(** ** The helpers where they raise

    [VariantDiff] above has the helpers on the workbooks on which they
    return.  openpyxl can hand back more: a number cell can hold an
    infinity or a NaN (a stored value such as [1e999]), on which
    [round(v)] raises; a workbook can hold chart sheets, which are listed
    in [sheetnames] and returned by [wb[name]] but have neither
    [max_row], [max_column] nor [cell]; and [get_column_letter] serves the
    columns 1 to 18278 only.  This module has the same helpers on those
    workbooks, in the [result] monad. *)

Module Raising.
Import PyStr PyFloat Pandas PyExn.
Import Openpyxl (pyobject, py_str).
Import VariantDiff (Change, Build_Change, Cell, Row, Col, A, B,
                    diff_columns, or_1, range).

(** A Python [float]. *)
Inductive float :=
  | Finite (f : pyfloat)
  | Infinity (s : bool)
  | NaN.

Definition SF (v : float) : spec_float :=
  match v with
  | Finite f => PyFloat.SF f
  | Infinity s => S754_infinity s
  | NaN => S754_nan
  end.

(** [round(v)]: "cannot convert float infinity to integer" is an
    [OverflowError], "cannot convert float NaN to integer" a
    [ValueError]. *)
Definition round (v : float) : result Z :=
  match v with
  | Finite f => Ok (py_round f)
  | Infinity _ => Raise OverflowError
  | NaN => Raise ValueError
  end.

(** [f"{v:.10g}"] *)
Definition format_10g (v : float) : pystr :=
  match v with
  | Finite f => PyFloat.format_10g f
  | Infinity s => (if s then py "-" else []) ++ py "inf"
  | NaN => py "nan"
  end.

(** What [cell.value] can be. *)
Inductive value :=
  | VNone
  | VFloat (v : float)
  | VObj (o : pyobject).

Definition _norm (v : value) : result pystr :=
  match v with
  | VNone => Ok (py "")
  | VFloat v =>
      r ← round v;
      if SFltb (SFabs (SFsub prec emax (SF v) (float_of_int r))) lit_1e_9
      then Ok (str_int r)
      else Ok (format_10g v)
  | VObj o => Ok (strip (py_str o))
  end.

(** A worksheet, as in [Openpyxl], with these cell values. *)
Record Worksheet := {
  title : pystr;
  max_row : Z;
  max_column : Z;
  _cells : gmap (Z * Z) value
}.

(** A sheet of a workbook: a worksheet or a chart sheet, which has a
    title and no cells. *)
Inductive sheet :=
  | Sheet (ws : Worksheet)
  | Chartsheet (title : pystr).

Definition sheet_title (s : sheet) : pystr :=
  match s with
  | Sheet ws => title ws
  | Chartsheet t => t
  end.

Definition is_chartsheet (s : sheet) : bool :=
  match s with Sheet _ => false | Chartsheet _ => true end.

Record Workbook := { _sheets : list sheet }.

(** [wb.sheetnames]: the titles of all the sheets. *)
Definition sheetnames (wb : Workbook) : list pystr :=
  sheet_title <$> _sheets wb.

Fixpoint find_sheet (key : pystr) (l : list sheet) : option sheet :=
  match l with
  | [] => None
  | s :: l' => if decide (sheet_title s = key) then Some s else find_sheet key l'
  end.

(** [wb[key]]: the first of [wb.worksheets + wb.chartsheets] with that
    title; [None] stands for the [KeyError] of a title that is not in
    [wb.sheetnames]. *)
Definition getitem (wb : Workbook) (key : pystr) : option sheet :=
  find_sheet key (filter (λ s, is_chartsheet s = false) (_sheets wb)
                  ++ filter (λ s, is_chartsheet s = true) (_sheets wb)).

(** [ws.max_row], [ws.max_column] and [ws.cell(r, c).value]: a chart
    sheet has none of these attributes. *)
Definition get_max_row (s : sheet) : result Z :=
  match s with
  | Sheet ws => Ok (max_row ws)
  | Chartsheet _ => Raise AttributeError
  end.

Definition get_max_column (s : sheet) : result Z :=
  match s with
  | Sheet ws => Ok (max_column ws)
  | Chartsheet _ => Raise AttributeError
  end.

Definition cell_value (s : sheet) (r c : Z) : result value :=
  match s with
  | Sheet ws => Ok (default VNone (_cells ws !! (r, c)))
  | Chartsheet _ => Raise AttributeError
  end.

(** [get_column_letter(idx)]: the letters of the columns 1..18278, a
    [ValueError] for every other index. *)
Definition get_column_letter (idx : Z) : result pystr :=
  if bool_decide (1 <= idx <= 18278) then Ok (Openpyxl.get_column_letter idx)
  else Raise ValueError.

Section Scan.
Context (ws_a ws_b : sheet) (max_changes max_col : Z).

(** [len(changes) >= max_changes] *)
Definition cap_reached (changes : list Change) : bool :=
  max_changes <=? Z.of_nat (length changes).

(** The inner loop over the columns [cols] still to visit in row [r]. *)
Fixpoint scan_row (r : Z) (cols : list Z) (changes : list Change)
  : result (list Change) :=
  match cols with
  | [] => Ok changes
  | c :: cols' =>
      a ← cell_value ws_a r c;
      va ← _norm a;
      b ← cell_value ws_b r c;
      vb ← _norm b;
      if bool_decide (va ≠ vb) then
        letter ← get_column_letter c;
        let changes' :=
          changes ++ [ {| Cell := letter ++ str_int r;
                          Row := r; Col := c; A := va; B := vb |} ] in
        if cap_reached changes' then Ok changes'
        else scan_row r cols' changes'
      else scan_row r cols' changes
  end.

(** The outer loop over the rows still to visit. *)
Fixpoint scan_rows (rows : list Z) (changes : list Change)
  : result (list Change) :=
  match rows with
  | [] => Ok changes
  | r :: rows' =>
      changes' ← scan_row r (range 1 (max_col + 1)) changes;
      if cap_reached changes' then Ok changes'
      else scan_rows rows' changes'
  end.
End Scan.

Definition diff_sheet (wb_a wb_b : Workbook) (sheet_name : pystr)
    (max_changes : Z) : result (DataFrame Change) :=
  if bool_decide (sheet_name ∉ sheetnames wb_a ∨ sheet_name ∉ sheetnames wb_b)
  then Ok (empty_frame diff_columns)
  else
    match getitem wb_a sheet_name, getitem wb_b sheet_name with
    | Some ws_a, Some ws_b =>
        ra ← get_max_row ws_a;
        rb ← get_max_row ws_b;
        let max_row := Z.max (or_1 ra) (or_1 rb) in
        ca ← get_max_column ws_a;
        cb ← get_max_column ws_b;
        let max_col := Z.max (or_1 ca) (or_1 cb) in
        changes ← scan_rows ws_a ws_b max_changes max_col
                     (range 1 (max_row + 1)) [];
        Ok {| columns := diff_columns; records := changes |}
    | _, _ =>
        (* not reached: past the guard both titles are in [sheetnames] *)
        Ok (empty_frame diff_columns)
    end.

(** *** Vocabulary *)

(** The value is no infinity and no NaN. *)
Definition finite_value (v : value) : Prop :=
  match v with
  | VFloat (Infinity _) | VFloat NaN => False
  | _ => True
  end.

(** The column of the record is one [get_column_letter] has letters
    for. *)
Definition lettered (ch : Change) : Prop := Col ch <= 18278.

(** The normalization maps the value to a text. *)
Definition normalized (v : value) : Prop := ∃ s, _norm v = Ok s.

(** The cell of the worksheet at a coordinate holds a finite value. *)
Definition finite_at (ws : Worksheet) (r c : Z) : Prop :=
  finite_value (default VNone (_cells ws !! (r, c))).

#[global] Instance finite_value_dec v : Decision (finite_value v) :=
  ltac:(destruct v as [|[| |]|]; simpl; apply _).

#[global] Instance finite_at_dec ws r c : Decision (finite_at ws r c) :=
  finite_value_dec _.

(** The workbooks of [Openpyxl] among these: worksheets only, finite
    numbers. *)
Definition of_value (v : Openpyxl.value) : value :=
  match v with
  | Openpyxl.VNone => VNone
  | Openpyxl.VFloat f => VFloat (Finite f)
  | Openpyxl.VObj o => VObj o
  end.

Definition of_worksheet (ws : Openpyxl.Worksheet) : Worksheet :=
  {| title := Openpyxl.title ws;
     max_row := Openpyxl.max_row ws;
     max_column := Openpyxl.max_column ws;
     _cells := of_value <$> Openpyxl._cells ws |}.

Definition of_workbook (wb : Openpyxl.Workbook) : Workbook :=
  {| _sheets := Sheet ∘ of_worksheet <$> Openpyxl._sheets wb |}.

End Raising.

(** ** Reading a decimal numeral

    The specification's side of [format(v, ".10g")]: the text it returns
    is read back as a decimal numeral, an optional minus sign, digits, an
    optional point with digits, an optional exponent [e], sign, digits.
    None of this is used by the helpers. *)

Module Decimal.
Import PyStr.

Record numeral := {
  negative : bool;
  int_digits : pystr;
  frac_digits : pystr;
  exponent : option Z
}.

Definition is_digitb (c : N) : bool := ((48 <=? c) && (c <=? 57))%N.

(** The digits at the front of a text, and the rest of it. *)
Fixpoint span_digits (s : pystr) : pystr * pystr :=
  match s with
  | [] => ([], [])
  | c :: s' =>
      if is_digitb c then (c :: (span_digits s').1, (span_digits s').2)
      else ([], s)
  end.

(** The exponent part, which runs to the end of the text: nothing, or
    [e], a sign and at least one digit. *)
Definition read_exponent (s : pystr) : option (option Z) :=
  match s with
  | [] => Some None
  | c :: sign :: ds =>
      if (c =? 101)%N
         && bool_decide ((span_digits ds).1 ≠ [] ∧ (span_digits ds).2 = [])
      then
        if (sign =? 43)%N then Some (Some (dec_value ds))
        else if (sign =? 45)%N then Some (Some (- dec_value ds))
        else None
      else None
  | _ => None
  end.

(** The fraction: a point and the digits after it, when the text goes on
    with a point; and the rest of the text. *)
Definition read_fraction (s : pystr) : pystr * pystr :=
  match s with
  | c :: s' => if (c =? 46)%N then span_digits s' else ([], s)
  | [] => ([], [])
  end.

(** The numeral after its sign. *)
Definition read_unsigned (neg : bool) (s : pystr) : option numeral :=
  let i := (span_digits s).1 in
  let f := (read_fraction (span_digits s).2).1 in
  match i, read_exponent (read_fraction (span_digits s).2).2 with
  | _ :: _, Some e =>
      Some {| negative := neg; int_digits := i; frac_digits := f;
              exponent := e |}
  | _, _ => None
  end.

Definition read (s : pystr) : option numeral :=
  match s with
  | c :: s' =>
      if (c =? 45)%N then read_unsigned true s' else read_unsigned false s
  | [] => None
  end.

(** The text is at its end or goes on with a character that is no
    digit. *)
Definition digits_end (s : pystr) : Prop :=
  match s with
  | [] => True
  | c :: _ => is_digitb c = false
  end.

(** The numeral denotes [mantissa * 10 ^ scale], negated when
    [negative]. *)
Definition mantissa (d : numeral) : Z :=
  dec_value (int_digits d ++ frac_digits d).

Definition scale (d : numeral) : Z :=
  default 0 (exponent d) - Z.of_nat (length (frac_digits d)).

(** The number of significant digits: the digits from the first one that
    is not zero on. *)
Definition significant (d : numeral) : nat :=
  length (drop_leading_zeros (int_digits d ++ frac_digits d)).

(** [m1 * 10^e1 = m2 * 10^e2], in integers. *)
Definition same_decimal (m1 e1 m2 e2 : Z) : Prop :=
  m1 * 10 ^ (e1 - Z.min e1 e2) = m2 * 10 ^ (e2 - Z.min e1 e2).

End Decimal.

(** ** Reading a cell label back

    The inverse of the label [f"{get_column_letter(c)}{r}"] that
    [diff_sheet] writes into the [Cell] column: the letters are read in
    base 26 with the digits A = 1 .. Z = 26, as openpyxl's
    [column_index_from_string] does, the rest as a decimal number. *)

Module CellLabel.
Import PyStr Openpyxl.

Definition is_letter (c : N) : bool := ((65 <=? c) && (c <=? 90))%N.

Definition column_index_from_string (letters : pystr) : Z :=
  foldl (λ acc c, acc * 26 + (Z.of_N c - 64)) 0 letters.

Fixpoint letters_of (label : pystr) : pystr :=
  match label with
  | [] => []
  | c :: s => if is_letter c then c :: letters_of s else []
  end.

Fixpoint digits_of (label : pystr) : pystr :=
  match label with
  | [] => []
  | c :: s => if is_letter c then digits_of s else label
  end.

(** The (row, column) a label names. *)
Definition coordinate_from_string (label : pystr) : Z * Z :=
  (int_of_str (digits_of label), column_index_from_string (letters_of label)).

End CellLabel.

(** ** Python dates

    A [datetime.date] is carried by its proleptic Gregorian ordinal
    ([toordinal]: 1 for 0001-01-01, [_MAXORDINAL] for 9999-12-31), which is
    the number date arithmetic and comparison work on. *)

Module PyDate.
Import PyExn.

Definition _MAXORDINAL : Z := 3652059.

Record date := { toordinal : Z }.

#[global] Instance date_eq_dec : EqDecision date := ltac:(solve_decision).

(** The dates Python can represent. *)
Definition valid_date (d : date) : Prop := 1 <= toordinal d <= _MAXORDINAL.

(** [d + timedelta(days=n)]: [OverflowError] outside the supported range. *)
Definition add_days (d : date) (n : Z) : result date :=
  let o := toordinal d + n in
  if (0 <? o) && (o <=? _MAXORDINAL) then Ok {| toordinal := o |}
  else Raise OverflowError.

(** [d - timedelta(days=n)] is [d + timedelta(days=-n)]. *)
Definition sub_days (d : date) (n : Z) : result date := add_days d (- n).

(** [d.isoweekday()]: Monday is 1, Sunday is 7 ([toordinal() % 7 or 7]). *)
Definition isoweekday (d : date) : Z :=
  let r := toordinal d mod 7 in if r =? 0 then 7 else r.

(** [a < b] and [a <= b] *)
Definition date_lt (a b : date) : bool := toordinal a <? toordinal b.
Definition date_le (a b : date) : bool := toordinal a <=? toordinal b.

(** [max(a, b)] and [min(a, b)]: the first argument unless the second is
    strictly larger, respectively smaller. *)
Definition date_max (a b : date) : date := if date_lt a b then b else a.
Definition date_min (a b : date) : date := if date_lt b a then b else a.

End PyDate.

(** ** The request forms of the app

    [leave_app_with_preferences_and_3_variants.py]: the date helpers, the
    lock of published periods and the two submit handlers.  A handler's
    outcome is the message it shows or the row it hands to the database
    insert (dates are sent in ISO format). *)

Module LeaveApp.
Import PyStr Pandas PyExn PyDate.

Definition validate_dates (s e : date) : option pystr :=
  if date_lt e s then Some (py "Date to cannot be earlier than Date from.")
  else None.

Definition overlap (a_start a_end b_start b_end : date) : bool :=
  date_le a_start b_end && date_le b_start a_end.

Definition week_bounds (d : date) : result (date * date) :=
  start ← sub_days d (isoweekday d - 1);
  end_ ← add_days start 6;
  Ok (start, end_).

Definition weekend_bounds (d : date) : result (date * date) :=
  '(ws, _) ← week_bounds d;
  sat ← add_days ws 5;
  sun ← add_days ws 6;
  Ok (sat, sun).

(** A row of [rota_periods], by the columns the app reads. *)
Record Period := {
  period_name : pystr;
  start_date : date;
  end_date : date;
  is_published : bool
}.

(** [df[mask]] *)
Definition select {R : Type} (P : R → bool) (df : DataFrame R) : DataFrame R :=
  {| columns := columns df; records := filter (λ r, P r = true) (records df) |}.

Definition any_published_overlap (periods : DataFrame Period) (s e : date)
  : bool :=
  if empty periods then false
  else
    let pubs := select is_published periods in
    if empty pubs then false
    else existsb (λ r, overlap s e (start_date r) (end_date r)) (records pubs).

(** The [for] loop of [is_locked_for_range], which the lockout versions of
    the app use in place of [any]. *)
Fixpoint locked_by (s e : date) (pubs : list Period) : bool :=
  match pubs with
  | [] => false
  | p :: rest =>
      if overlap s e (start_date p) (end_date p) then true
      else locked_by s e rest
  end.

Definition is_locked_for_range (periods : DataFrame Period) (s e : date)
  : bool :=
  if empty periods then false
  else
    let pubs := select is_published periods in
    if empty pubs then false else locked_by s e (records pubs).

(** What a handler does: show an error, or insert a row. *)
Inductive outcome (R : Type) :=
  | ShowError (msg : pystr)
  | Insert (row : R).
Arguments ShowError {R} msg.
Arguments Insert {R} row.

(** [if err:] for [err : str | None] *)
Definition truthy (err : option pystr) : bool :=
  match err with
  | Some (_ :: _) => true
  | _ => false
  end.

Record LeaveRow := {
  leave_consultant_name : pystr;
  leave_requester_id : pystr;
  leave_requester_email : pystr;
  leave_start_date : date;
  leave_end_date : date;
  leave_type : pystr;
  leave_approved : bool;
  leave_notes : pystr
}.

Record PrefRow := {
  pref_consultant_name : pystr;
  pref_requester_id : pystr;
  pref_requester_email : pystr;
  pref_start_date : date;
  pref_end_date : date;
  pref_kind : pystr;
  pref_shift_type : pystr;
  pref_weight : Z;
  pref_notes : pystr
}.

Section Session.
(** The signed-in user and the periods fetched for the run. *)
Context (user_id user_email : pystr) (is_admin : bool).
Context (periods : DataFrame Period).

(** [if leave_submit:] *)
Definition leave_submit (leave_name leave_kind leave_note : pystr)
    (leave_start leave_end : date) : outcome LeaveRow :=
  let err := validate_dates leave_start leave_end in
  if truthy err then ShowError (default [] err)
  else if bool_decide (strip leave_name = []) then
    ShowError (py "Consultant name is required.")
  else if negb is_admin && any_published_overlap periods leave_start leave_end
  then ShowError (py "Locked: this overlaps a published rota period.")
  else
    Insert {| leave_consultant_name := strip leave_name;
              leave_requester_id := user_id;
              leave_requester_email := user_email;
              leave_start_date := leave_start;
              leave_end_date := leave_end;
              leave_type := leave_kind;
              leave_approved := false;
              leave_notes := strip leave_note |}.

(** The start and end a preference stands for, by its kind. *)
Definition pref_bounds (kind : pystr) (ref_date pref_end_override : date)
  : result (date * date) :=
  if bool_decide (kind = py "Specific date") then Ok (ref_date, ref_date)
  else if bool_decide (kind = py "Date range") then
    Ok (ref_date, pref_end_override)
  else if bool_decide (kind = py "Week") then week_bounds ref_date
  else weekend_bounds ref_date.

(** [if pref_submit:] *)
Definition pref_submit (pref_name kind shift note : pystr) (weight : Z)
    (ref_date pref_end_override : date) : result (outcome PrefRow) :=
  '(ps, pe) ← pref_bounds kind ref_date pref_end_override;
  let err := validate_dates ps pe in
  Ok (if truthy err then ShowError (default [] err)
      else if bool_decide (strip pref_name = []) then
        ShowError (py "Consultant name is required.")
      else if negb is_admin && any_published_overlap periods ps pe then
        ShowError (py "Locked: this overlaps a published rota period.")
      else
        Insert {| pref_consultant_name := strip pref_name;
                  pref_requester_id := user_id;
                  pref_requester_email := user_email;
                  pref_start_date := ps;
                  pref_end_date := pe;
                  pref_kind := kind;
                  pref_shift_type := shift;
                  pref_weight := weight;
                  pref_notes := strip note |}).

End Session.

End LeaveApp.

(** ** Drafting: the requests written into the solver's workbook

    [leave_app_with_preferences_and_3_variants.py], under "Draft 3 rota
    versions now": the approved leave and the preferences are cut down to
    the selected period.  A table is a list of rows with their index
    labels, which masks keep and [.loc] addresses. *)

Module Drafting.
Import PyStr PyExn PyDate LeaveApp.

(** A row of [leave_requests] or of [preferred_shifts], by the columns
    the drafting step reads and writes; [approved] and [leave_type] are
    read for leave only. *)
Record Request := {
  consultant_name : pystr;
  start_date : date;
  end_date : date;
  approved : bool;
  leave_type : pystr
}.

Abbreviation Table := (list (Z * Request)).

(** [df[mask]] for a mask computed row by row. *)
Definition where_ (P : Request → bool) (df : Table) : Table :=
  filter (λ ir, P ir.2 = true) df.

(** [(r["start_date"] >= period_start) and (r["end_date"] <= period_end)] *)
Definition contained (period_start period_end : date) (r : Request) : bool :=
  date_le period_start (start_date r) && date_le (end_date r) period_end.

(** [df.loc[s.index, "start_date"] = s] and the same for ["end_date"],
    for a series [s] of (label, date): each row whose label the series
    carries takes the date the series has for it. *)
Definition loc_set_start (df : Table) (s : list (Z * date)) : Table :=
  (λ ir, match list_to_map (M := gmap Z date) s !! ir.1 with
         | Some d => (ir.1, {| consultant_name := consultant_name ir.2;
                               start_date := d;
                               end_date := end_date ir.2;
                               approved := approved ir.2;
                               leave_type := leave_type ir.2 |})
         | None => ir
         end) <$> df.

Definition loc_set_end (df : Table) (s : list (Z * date)) : Table :=
  (λ ir, match list_to_map (M := gmap Z date) s !! ir.1 with
         | Some d => (ir.1, {| consultant_name := consultant_name ir.2;
                               start_date := start_date ir.2;
                               end_date := d;
                               approved := approved ir.2;
                               leave_type := leave_type ir.2 |})
         | None => ir
         end) <$> df.

(** The filter either stops the run, showing the rows that overlap the
    period only in part, or gives the rows to write. *)
Inductive prepared :=
  | Stop (partial : Table)
  | Final (rows : Table).

Section Period.
Context (period_start period_end : date) (force_truncate : bool).

(** The body of [if not leave_ok.empty:] and of [if not pref_all.empty:],
    which are the same code. *)
Definition cut_to_period (df : Table) : prepared :=
  let df_overlap :=
    where_ (λ r, overlap (start_date r) (end_date r) period_start period_end)
      df in
  let df_partial :=
    where_ (λ r, negb (contained period_start period_end r)) df_overlap in
  if negb (bool_decide (df_partial = [])) && negb force_truncate then
    Stop df_partial
  else
    let df_overlap' :=
      if negb (bool_decide (df_partial = [])) && force_truncate then
        loc_set_end
          (loc_set_start df_overlap
             ((λ ir, (ir.1, date_max (start_date ir.2) period_start))
                <$> df_partial))
          ((λ ir, (ir.1, date_min (end_date ir.2) period_end))
             <$> df_partial)
      else df_overlap in
    Final (where_ (contained period_start period_end) df_overlap').

(** [leave_final], from the table [fetch_leave()] returns. *)
Definition leave_final (leave_all : Table) : prepared :=
  let leave_ok :=
    if bool_decide (leave_all = []) then [] else where_ approved leave_all in
  if bool_decide (leave_ok = []) then Final leave_ok
  else cut_to_period leave_ok.

(** [pref_final], from the table [fetch_prefs()] returns. *)
Definition pref_final (pref_all : Table) : prepared :=
  if bool_decide (pref_all = []) then Final pref_all
  else cut_to_period pref_all.

End Period.

(** [a <= b] on strings: by code points, a prefix first. *)
Fixpoint pystr_le (a b : pystr) : bool :=
  match a, b with
  | [], _ => true
  | _ :: _, [] => false
  | x :: a', y :: b' =>
      if (x <? y)%N then true
      else if (y <? x)%N then false
      else pystr_le a' b'
  end.

(** The order of [sort_values(["start_date", "consultant_name"])]. *)
Definition row_le (r1 r2 : Request) : Prop :=
  toordinal (start_date r1) < toordinal (start_date r2)
  ∨ (toordinal (start_date r1) = toordinal (start_date r2)
     ∧ pystr_le (consultant_name r1) (consultant_name r2) = true).

(** [df.sort_values(["start_date", "consultant_name"], na_position="last")]
    on a table without missing values: the rows rearranged into that
    order. *)
Class SortByStartName := {
  sort_by_start_name : Table → Table;
  sort_by_start_name_perm : ∀ df, sort_by_start_name df ≡ₚ df;
  sort_by_start_name_sorted :
    ∀ df, Sorted (λ x y, row_le x.2 y.2) (sort_by_start_name df)
}.

(** Insertion sort, which meets the contract. *)
Definition row_leb (r1 r2 : Request) : bool :=
  (toordinal (start_date r1) <? toordinal (start_date r2))
  || ((toordinal (start_date r1) =? toordinal (start_date r2))
      && pystr_le (consultant_name r1) (consultant_name r2)).

Fixpoint insert_row (x : Z * Request) (l : Table) : Table :=
  match l with
  | [] => [x]
  | y :: l' => if row_leb x.2 y.2 then x :: l else y :: insert_row x l'
  end.

Definition insertion_sort_rows (l : Table) : Table :=
  foldr insert_row [] l.

(** *** Vocabulary *)

(** The row cut to the period. *)
Definition clip (period_start period_end : date) (r : Request) : Request :=
  {| consultant_name := consultant_name r;
     start_date := date_max (start_date r) period_start;
     end_date := date_min (end_date r) period_end;
     approved := approved r;
     leave_type := leave_type r |}.

(** The index labels of a table are pairwise distinct, as they are for a
    table built from the rows a query returns. *)
Definition unique_index (df : Table) : Prop := NoDup df.*1.

End Drafting.

(** ** Drafting: running the solver

    [leave_app_with_preferences_and_3_variants.py], under "Run solver:
    produce 3 variants".  The file system and the solver process are
    oracles, each of which can raise: [save] is [wb.save(solver_input)];
    [run] is [subprocess.run(cmd2, ...)] followed by the test of success
    ([proc.returncode == 0 and out_file.exists() and
    out_file.stat().st_size > 0]); [read_bytes] is
    [out_file.read_bytes()].  The Streamlit calls only display, and the
    temporary directory [td] is given: making and removing it lie
    outside. *)

Module Solver.
Import PyStr PyExn.

Definition variant_seeds : list Z := [11; 22; 33].

(** [str(td_path / name)] *)
Definition path_join (td name : pystr) : pystr := td ++ py "/" ++ name.

Definition solver_input (td : pystr) : pystr :=
  path_join td (py "Rota_Master_WITH_Leave.xlsx").

(** The command of the strict attempt, which the others extend. *)
Definition strict_cmd (td : pystr) : list pystr :=
  [py "python"; py "solve_rota.py"; py "--input"; solver_input td;
   py "--output"; py "OUT.xlsx"].

Definition attempts_base (td : pystr)
    (relax_week_gap relax_no_consec_weekends : bool)
  : list (pystr * list pystr) :=
  [(py "Strict", strict_cmd td)]
  ++ (if relax_week_gap then
        [(py "Relax week-gap", strict_cmd td ++ [py "--no_hard_week_gap"])]
      else [])
  ++ (if relax_no_consec_weekends then
        [(py "Relax no-consec-weekends",
          strict_cmd td ++ [py "--no_hard_no_consec_weekends"])]
      else [])
  ++ (if relax_week_gap && relax_no_consec_weekends then
        [(py "Relax BOTH",
          strict_cmd td ++ [py "--no_hard_week_gap";
                            py "--no_hard_no_consec_weekends"])]
      else []).

(** [f"Variant {i} (seed {seed})"] *)
Definition variant_name (i seed : Z) : pystr :=
  py "Variant " ++ str_int i ++ py " (seed " ++ str_int seed ++ py ")".

(** [str(td_path / f"Rota_Solved_V{i}.xlsx")] *)
Definition out_file (td : pystr) (i : Z) : pystr :=
  path_join td (py "Rota_Solved_V" ++ str_int i ++ py ".xlsx").

(** The command run for an attempt: the placeholder replaced by the
    output file, the seed appended. *)
Definition cmd2 (cmd : list pystr) (out : pystr) (seed : Z)
  : result (list pystr) :=
  k ← index (py "OUT.xlsx") cmd;
  Ok (<[k := out]> cmd ++ [py "--seed"; str_int seed]).

Section Oracle.
Context {bytes : Type}.
Context (save : pystr → result unit)
        (run : list pystr → result bool)
        (read_bytes : pystr → result bytes).

(** The inner loop: the attempts in order, up to the first success; the
    label of that attempt. *)
Fixpoint try_attempts (attempts : list (pystr * list pystr))
    (out : pystr) (seed : Z) : result (option pystr) :=
  match attempts with
  | [] => Ok None
  | (label, cmd) :: rest =>
      c ← cmd2 cmd out seed;
      succeeded ← run c;
      if succeeded : bool then Ok (Some label)
      else try_attempts rest out seed
  end.

(** The outer loop over [enumerate(variant_seeds, start=i)]. *)
Fixpoint run_variants (attempts : list (pystr * list pystr)) (td : pystr)
    (i : Z) (seeds : list Z) : result (list (pystr * bytes * pystr)) :=
  match seeds with
  | [] => Ok []
  | seed :: seeds' =>
      used ← try_attempts attempts (out_file td i) seed;
      match used with
      | None => run_variants attempts td (i + 1) seeds'
      | Some used_label =>
          data ← read_bytes (out_file td i);
          rest ← run_variants attempts td (i + 1) seeds';
          Ok ((variant_name i seed, data, used_label) :: rest)
      end
  end.

(** The results of a drafting run, or nothing when no variant could be
    produced and the run stops. *)
Definition draft (td : pystr) (relax_week_gap relax_no_consec_weekends : bool)
  : result (option (list (pystr * bytes * pystr))) :=
  _ ← save (solver_input td);
  results ← run_variants
               (attempts_base td relax_week_gap relax_no_consec_weekends)
               td 1 variant_seeds;
  Ok (if bool_decide (results = []) then None else Some results).

End Oracle.

End Solver.

(** *** Vocabulary for the solver runs *)

Module SolverSpec.
Import PyStr PyExn Solver.

(** The flags of the attempts that the two checkboxes allow, by label and
    in the order they are tried. *)
Definition attempt_flags (relax_week_gap relax_no_consec_weekends : bool)
  : list (pystr * list pystr) :=
  [(py "Strict", [])]
  ++ (if relax_week_gap then
        [(py "Relax week-gap", [py "--no_hard_week_gap"])] else [])
  ++ (if relax_no_consec_weekends then
        [(py "Relax no-consec-weekends", [py "--no_hard_no_consec_weekends"])]
      else [])
  ++ (if relax_week_gap && relax_no_consec_weekends then
        [(py "Relax BOTH",
          [py "--no_hard_week_gap"; py "--no_hard_no_consec_weekends"])]
      else []).

(** The command line of a solver run. *)
Definition solver_cmd (td : pystr) (i seed : Z) (flags : list pystr)
  : list pystr :=
  [py "python"; py "solve_rota.py"; py "--input"; solver_input td;
   py "--output"; out_file td i] ++ flags ++ [py "--seed"; str_int seed].

(** The attempt that produced a variant: the first one, in the order of
    [flags], whose run succeeds. *)
Definition first_success (run : list pystr → result bool)
    (td : pystr) (i seed : Z) (flags : list (pystr * list pystr))
    (label : pystr) : Prop :=
  ∃ before fl after,
    flags = before ++ (label, fl) :: after
    ∧ run (solver_cmd td i seed fl) = Ok true
    ∧ Forall (λ a, run (solver_cmd td i seed a.2) = Ok false) before.

(** The names of the results. *)
Definition variant_names {bytes : Type}
    (results : list (pystr * bytes * pystr)) : list pystr :=
  (λ r, r.1.1) <$> results.

(** The attempts of a variant come to an end without raising: one of them
    succeeds, after failures only, and its output file can be read; or
    all of them fail. *)
Definition settles {bytes : Type} (run : list pystr → result bool)
    (read_bytes : pystr → result bytes) (td : pystr) (i seed : Z)
    (flags : list (pystr * list pystr)) : Prop :=
  (∃ label data, first_success run td i seed flags label
                 ∧ read_bytes (out_file td i) = Ok data)
  ∨ Forall (λ a, run (solver_cmd td i seed a.2) = Ok false) flags.

(** Nothing the run asks of its environment raises: the workbook is
    saved, and the attempts of each of the three variants settle. *)
Definition env_returns {bytes : Type} (save : pystr → result unit)
    (run : list pystr → result bool) (read_bytes : pystr → result bytes)
    (td : pystr) (relax_week_gap relax_no_consec_weekends : bool) : Prop :=
  (∃ u, save (solver_input td) = Ok u)
  ∧ ∀ i seed, (i, seed) ∈ [(1, 11); (2, 22); (3, 33)] →
      settles run read_bytes td i seed
        (attempt_flags relax_week_gap relax_no_consec_weekends).

End SolverSpec.

(** ** Drafting: the Leave sheet of the solver's workbook

    [leave_app_with_preferences_and_3_variants.py], under "Write Leave
    sheet": the rows of the template are cleared from row 2 down to the
    first row whose cell in column A is empty, then the leave is written
    from row 2 on.  [lws] is a worksheet, the map of its cells.
    [ws[label]] is a cell with a value, a new empty one where none is
    stored, or, at a coordinate inside a merged range other than its
    top-left corner, a [MergedCell], whose value reads [None] and cannot
    be assigned. *)

Module LeaveSheet.
Import PyStr PyExn PyDate VariantDiff CellLabel Drafting.

Section Cells.
(** The values of the template that are neither text, nor dates, nor
    truth values: numbers, times. *)
Context {O : Type}.

Inductive value :=
  | VNone
  | VStr (s : pystr)
  | VDate (d : date)
  | VBool (b : bool)
  | VOther (o : O).

Inductive cell :=
  | Cell (v : value)
  | MergedCell.

Abbreviation sheet := (gmap (Z * Z) cell).

(** [ws[label]] for a label such as ["A2"]. *)
Definition getitem (ws : sheet) (label : pystr) : cell :=
  default (Cell VNone) (ws !! coordinate_from_string label).

(** [cell.value] *)
Definition cell_value (c : cell) : value :=
  match c with
  | Cell v => v
  | MergedCell => VNone
  end.

(** The characters openpyxl refuses in a cell text: the control
    characters other than tab, line feed and carriage return. *)
Definition illegal (c : N) : bool :=
  ((c <=? 8) || (11 <=? c) && (c <=? 12) || (14 <=? c) && (c <=? 31))%N.

(** What the value setter does to a text: cut to 32767 characters, then
    refused if an illegal character is left. *)
Definition check_string (s : pystr) : result pystr :=
  let s' := take (Z.to_nat 32767) s in
  if existsb illegal s' then Raise IllegalCharacterError else Ok s'.

(** [ws[label].value = v], for the values the code assigns: a
    [MergedCell] has no attribute to assign to. *)
Definition set_value (ws : sheet) (label : pystr) (v : value) : result sheet :=
  match getitem ws label with
  | MergedCell => Raise AttributeError
  | Cell _ =>
      v' ← match v with
           | VStr s => VStr <$> check_string s
           | _ => Ok v
           end;
      Ok (<[coordinate_from_string label := Cell v']> ws)
  end.

(** [v in (None, "")] *)
Definition is_empty (v : value) : bool :=
  match v with
  | VNone | VStr [] => true
  | _ => false
  end.

(** [for col in cols: lws[f"{col}{r}"].value = None] *)
Fixpoint clear_cols (ws : sheet) (r : Z) (cols : list pystr) : result sheet :=
  match cols with
  | [] => Ok ws
  | col :: cols' =>
      ws' ← set_value ws (col ++ str_int r) VNone;
      clear_cols ws' r cols'
  end.

Definition clear_row (ws : sheet) (r : Z) : result sheet :=
  clear_cols ws r [py "A"; py "B"; py "C"; py "D"; py "E"].

(** The loop over [range(2, 5000)], left at the first row whose cell in
    column A is empty. *)
Fixpoint clear_rows (rows : list Z) (ws : sheet) : result sheet :=
  match rows with
  | [] => Ok ws
  | r :: rows' =>
      if is_empty (cell_value (getitem ws (py "A" ++ str_int r))) then Ok ws
      else ws' ← clear_row ws r; clear_rows rows' ws'
  end.

(** The loop over [leave_final.iterrows()], from row [r] on. *)
Fixpoint write_rows (ws : sheet) (r : Z) (recs : list Request)
  : result sheet :=
  match recs with
  | [] => Ok ws
  | rec :: recs' =>
      ws ← set_value ws (py "A" ++ str_int r) (VStr (consultant_name rec));
      ws ← set_value ws (py "B" ++ str_int r) (VDate (start_date rec));
      ws ← set_value ws (py "C" ++ str_int r) (VDate (end_date rec));
      ws ← set_value ws (py "D" ++ str_int r) (VStr (leave_type rec));
      ws ← set_value ws (py "E" ++ str_int r) (VBool true);
      write_rows ws (r + 1) recs'
  end.

Context `{SortByStartName}.

Definition write_leave_sheet (lws : sheet) (leave_final : Table)
  : result sheet :=
  lws ← clear_rows (range 2 5000) lws;
  if bool_decide (leave_final = []) then Ok lws
  else write_rows lws 2 (sort_by_start_name leave_final).*2.

(** *** Vocabulary *)

(** The cell at a coordinate. *)
Definition cell_at (ws : sheet) (r c : Z) : cell :=
  default (Cell VNone) (ws !! (r, c)).

(** How many of the rows, taken in order, have a cell in column A that is
    not empty, up to the first that has not. *)
Fixpoint filled_rows (ws : sheet) (rows : list Z) : Z :=
  match rows with
  | [] => 0
  | r :: rows' =>
      if is_empty (cell_value (cell_at ws r 1)) then 0
      else 1 + filled_rows ws rows'
  end.

(** No cell of the columns A to E in the [n] rows from [a] on is a
    merged cell. *)
Definition unmerged (ws : sheet) (a n : Z) : Prop :=
  ∀ r c, a <= r < a + n → 1 <= c <= 5 → cell_at ws r c ≠ MergedCell.

(** What a leave row puts into the columns A to E. *)
Definition leave_cell (rec : Request) (c : Z) : value :=
  if c =? 1 then VStr (take (Z.to_nat 32767) (consultant_name rec))
  else if c =? 2 then VDate (start_date rec)
  else if c =? 3 then VDate (end_date rec)
  else if c =? 4 then VStr (take (Z.to_nat 32767) (leave_type rec))
  else VBool true.

(** The texts of the row are accepted by the value setter. *)
Definition legal_row (rec : Request) : Prop :=
  existsb illegal (take (Z.to_nat 32767) (consultant_name rec)) = false
  ∧ existsb illegal (take (Z.to_nat 32767) (leave_type rec)) = false.

End Cells.
Arguments value : clear implicits.
Arguments cell : clear implicits.

End LeaveSheet.

(** ** Example data for the app *)

Module AppExamples.
Import PyStr PyFloat Openpyxl Pandas VariantDiff Examples.
Import PyExn PyDate LeaveApp Drafting Solver LeaveSheet.

(** 2025-01-13 (a Monday), 2025-01-15, 2025-01-19 (a Sunday), and the
    first and last day of January 2025. *)
Definition d_2025_01_13 : date := {| toordinal := 739264 |}.
Definition d_2025_01_15 : date := {| toordinal := 739266 |}.
Definition d_2025_01_19 : date := {| toordinal := 739270 |}.
Definition d_2025_01_01 : date := {| toordinal := 739252 |}.
Definition d_2025_01_31 : date := {| toordinal := 739282 |}.
Definition d_2024_12_20 : date := {| toordinal := 739240 |}.
Definition d_2025_02_10 : date := {| toordinal := 739292 |}.

(** January 2025, published. *)
Definition january : DataFrame Period :=
  {| columns := [py "name"; py "start_date"; py "end_date"; py "is_published"];
     records := [ {| period_name := py "January";
                     LeaveApp.start_date := d_2025_01_01;
                     LeaveApp.end_date := d_2025_01_31;
                     is_published := true |} ] |}.

(** Three requests: one inside January, one reaching into it from
    December, one in February. *)
Definition requests : Table :=
  [ (0, {| consultant_name := py "Ada"; start_date := d_2025_01_13;
           end_date := d_2025_01_19; approved := true;
           leave_type := py "Annual" |});
    (1, {| consultant_name := py "Bo"; start_date := d_2024_12_20;
           end_date := d_2025_01_15; approved := true;
           leave_type := py "Annual" |});
    (2, {| consultant_name := py "Cy"; start_date := d_2025_02_10;
           end_date := d_2025_02_10; approved := true;
           leave_type := py "Annual" |}) ].

(** A Leave sheet with a header and four rows left from an earlier run. *)
Definition leave_template : gmap (Z * Z) (cell Empty_set) :=
  list_to_map
    [ ((1, 1), Cell (VStr (py "Name"))); ((1, 2), Cell (VStr (py "Start")));
      ((2, 1), Cell (VStr (py "Old"))); ((3, 1), Cell (VStr (py "Old")));
      ((4, 1), Cell (VStr (py "Old"))); ((5, 1), Cell (VStr (py "Old")));
      ((5, 2), Cell (VDate d_2024_12_20)) ].

(** The binary64 values of [1e22] and [1e-10]. *)
Definition float_1e22 : pyfloat := Ffinite false 4768371582031250 21.
Definition float_1e_10 : pyfloat := Ffinite false 7737125245533627 (-86).

End AppExamples.

(** * Properties *)

(** ** Strings *)

Module PyStrFacts.
Import PyStr.


Lemma lstrip_clean s : clean_front (lstrip s).
Proof.
  induction s as [|c s IH]; simpl; [done|].
  destruct (isspace c) eqn:E; [done|]. simpl. exact E.
Qed.

Lemma lstrip_fixed s : clean_front s → lstrip s = s.
Proof. destruct s as [|c s]; simpl; [done|]. by intros ->. Qed.

Lemma lstrip_split s : ∃ sp, s = sp ++ lstrip s ∧ blank sp.
Proof.
  induction s as [|c s (sp & Hs & Hsp)]; simpl.
  - exists []. split; [done | constructor].
  - destruct (isspace c) eqn:E.
    + exists (c :: sp). split; [simpl; congruence | by constructor].
    + exists []. split; [done | constructor].
Qed.

Lemma rstrip_split s : ∃ sp, s = rstrip s ++ sp ∧ blank sp.
Proof.
  unfold rstrip. destruct (lstrip_split (rev s)) as (sp & Hs & Hsp).
  exists (rev sp). split.
  - rewrite <- rev_app_distr, <- Hs. by rewrite rev_involutive.
  - unfold blank. by apply Forall_rev.
Qed.

Lemma clean_front_prefix s t : clean_front (s ++ t) → clean_front s.
Proof. destruct s; simpl; done. Qed.

Lemma strip_clean s : clean_ends (strip s).
Proof.
  unfold strip. split.
  - destruct (rstrip_split (lstrip s)) as (sp & Hs & _).
    apply clean_front_prefix with sp. rewrite <- Hs. apply lstrip_clean.
  - unfold rstrip. rewrite rev_involutive. apply lstrip_clean.
Qed.

Lemma strip_fixed s : clean_ends s → strip s = s.
Proof.
  intros [Hf Hb]. unfold strip, rstrip.
  rewrite (lstrip_fixed s Hf), (lstrip_fixed _ Hb). apply rev_involutive.
Qed.

Lemma strip_idemp s : strip (strip s) = strip s.
Proof. apply strip_fixed, strip_clean. Qed.

(** What [strip] removes is whitespace at the two ends, and it leaves none
    there. *)
Lemma strip_split s :
  ∃ l r, s = l ++ strip s ++ r ∧ blank l ∧ blank r ∧ clean_ends (strip s).
Proof.
  destruct (lstrip_split s) as (l & Hl & Bl).
  destruct (rstrip_split (lstrip s)) as (r & Hr & Br).
  exists l, r. split_and!; [|done|done|apply strip_clean].
  unfold strip. by rewrite <- Hr.
Qed.

Lemma spaceless_clean_front s : spaceless s → clean_front s.
Proof. destruct 1; simpl; done. Qed.

Lemma spaceless_clean s : spaceless s → clean_ends s.
Proof.
  intros H. split; apply spaceless_clean_front; [done|].
  unfold spaceless. by apply Forall_rev.
Qed.

Lemma strip_spaceless s : spaceless s → strip s = s.
Proof. intros. by apply strip_fixed, spaceless_clean. Qed.

Lemma spaceless_app s t : spaceless s → spaceless t → spaceless (s ++ t).
Proof. apply Forall_app_2. Qed.

Lemma spaceless_take n s : spaceless s → spaceless (take n s).
Proof. apply Forall_take. Qed.

Lemma spaceless_drop n s : spaceless s → spaceless (drop n s).
Proof. apply Forall_drop. Qed.

(** *** Decimal digits *)


Lemma digit_char_is_digit n : is_digit (digit_char (n mod 10)).
Proof.
  unfold is_digit, digit_char.
  pose proof (Z.mod_pos_bound n 10 ltac:(lia)). lia.
Qed.

Lemma digits_fuel_all_digits fuel n acc :
  all_digits acc → all_digits (digits_fuel fuel n acc).
Proof.
  revert n acc. induction fuel as [|fuel IH]; intros n acc Hacc; simpl; [done|].
  assert (all_digits (digit_char (n mod 10) :: acc))
    by (constructor; [apply digit_char_is_digit | done]).
  destruct (n <? 10); [done | by apply IH].
Qed.

Lemma str_nat_all_digits n : all_digits (str_nat n).
Proof. apply digits_fuel_all_digits. constructor. Qed.

Lemma digit_not_space c : is_digit c → isspace c = false.
Proof.
  unfold is_digit, isspace. intros H.
  repeat match goal with
  | |- context [(?a <=? ?b)%N] => destruct (N.leb_spec a b); try lia
  | |- context [(?a =? ?b)%N] => destruct (N.eqb_spec a b); try lia
  end.
Qed.

Lemma all_digits_spaceless s : all_digits s → spaceless s.
Proof.
  intros H. eapply Forall_impl; [exact H|]. intros c. apply digit_not_space.
Qed.

Lemma str_nat_spaceless n : spaceless (str_nat n).
Proof. apply all_digits_spaceless, str_nat_all_digits. Qed.

Lemma str_int_spaceless n : spaceless (str_int n).
Proof.
  unfold str_int. destruct (n <? 0); [|apply str_nat_spaceless].
  apply spaceless_app; [by repeat constructor | apply str_nat_spaceless].
Qed.

Lemma str_bool_spaceless b : spaceless (str_bool b).
Proof. destruct b; by repeat constructor. Qed.

Lemma zeros_spaceless n : spaceless (zeros n).
Proof. unfold zeros. apply Forall_replicate. done. Qed.

Lemma drop_leading_zeros_suffix s : ∃ z, s = z ++ drop_leading_zeros s.
Proof.
  induction s as [|c s [z Hz]]; simpl; [by exists []|].
  destruct (c =? 48)%N; [|by exists []].
  exists (c :: z). simpl. congruence.
Qed.

Lemma strip_trailing_zeros_prefix s : ∃ z, s = strip_trailing_zeros s ++ z.
Proof.
  unfold strip_trailing_zeros.
  destruct (drop_leading_zeros_suffix (rev s)) as [z Hz].
  exists (rev z). rewrite <- rev_app_distr, <- Hz. by rewrite rev_involutive.
Qed.

Lemma strip_trailing_zeros_length s :
  (length (strip_trailing_zeros s) <= length s)%nat.
Proof.
  destruct (strip_trailing_zeros_prefix s) as [z Hz].
  rewrite Hz at 2. rewrite length_app. lia.
Qed.

Lemma strip_trailing_zeros_spaceless s :
  spaceless s → spaceless (strip_trailing_zeros s).
Proof.
  intros H. destruct (strip_trailing_zeros_prefix s) as [z Hz].
  rewrite Hz in H. by apply Forall_app in H as [? _].
Qed.

(** A number below [10^k] has at most [k] digits. *)
Lemma digits_fuel_length fuel n acc k :
  (1 <= k)%nat → 0 <= n < 10 ^ Z.of_nat k →
  (length (digits_fuel fuel n acc) <= length acc + k)%nat.
Proof.
  revert n acc k. induction fuel as [|fuel IH]; intros n acc k Hk Hn; simpl; [lia|].
  destruct (Z.ltb_spec n 10) as [Hlt|Hge]; simpl; [lia|].
  destruct k as [|[|k]]; [lia| simpl in Hn; lia |].
  specialize (IH (n / 10) (digit_char (n mod 10) :: acc) (S k)).
  simpl length in IH. etransitivity; [apply IH|lia]; [lia|].
  split; [apply Z.div_pos; lia|].
  apply Z.div_lt_upper_bound; [lia|].
  replace (Z.of_nat (S (S k))) with (Z.succ (Z.of_nat (S k))) in Hn by lia.
  rewrite Z.pow_succ_r in Hn by lia. lia.
Qed.

Lemma str_nat_length n k :
  (1 <= k)%nat → 0 <= n < 10 ^ Z.of_nat k → (length (str_nat n) <= k)%nat.
Proof. intros. by apply (digits_fuel_length _ n [] k). Qed.

Lemma drop_leading_zeros_zeros s :
  ∃ z : nat, s = replicate z 48%N ++ drop_leading_zeros s.
Proof.
  induction s as [|c s [z Hz]]; simpl; [by exists 0%nat|].
  destruct (N.eqb_spec c 48) as [->|]; [|by exists 0%nat].
  exists (S z). simpl. congruence.
Qed.

Lemma replicate_snoc {A} (z : nat) (x : A) :
  replicate z x ++ [x] = x :: replicate z x.
Proof. induction z as [|z IH]; [done|]. simpl. by rewrite IH. Qed.

Lemma rev_replicate {A} (z : nat) (x : A) :
  rev (replicate z x) = replicate z x.
Proof.
  induction z as [|z IH]; [done|]. simpl. rewrite IH. apply replicate_snoc.
Qed.

(** What [strip_trailing_zeros] removes is a run of zeros. *)
Lemma strip_trailing_zeros_zeros s :
  ∃ z : nat, s = strip_trailing_zeros s ++ replicate z 48%N.
Proof.
  unfold strip_trailing_zeros.
  destruct (drop_leading_zeros_zeros (rev s)) as [z Hz]. exists z.
  apply (f_equal (@rev N)) in Hz.
  by rewrite rev_involutive, rev_app_distr, rev_replicate in Hz.
Qed.

(** *** The value of a decimal string *)

Lemma dec_value_from_app acc s t :
  dec_value_from acc (s ++ t) = dec_value_from (dec_value_from acc s) t.
Proof. revert acc. induction s as [|c s IH]; intros acc; simpl; [done|apply IH]. Qed.

Lemma digit_char_value d : 0 <= d < 10 → Z.of_N (digit_char d) - 48 = d.
Proof. unfold digit_char. lia. Qed.

(** With fuel enough, [digits_fuel] puts the digits of [n] before [acc]:
    they denote [n], and for [n > 0] there are exactly as many of them as
    [n] has decimal digits (no leading zero). *)
Lemma digits_fuel_spec fuel n acc :
  0 <= n < 2 ^ Z.of_nat fuel →
  ∃ ds, digits_fuel fuel n acc = ds ++ acc
        ∧ dec_value ds = n
        ∧ (0 < n → 10 ^ (Z.of_nat (length ds) - 1) <= n
                   < 10 ^ Z.of_nat (length ds)).
Proof.
  revert n acc. induction fuel as [|fuel IH]; intros n acc Hn.
  - exists []. simpl in *. split_and!; [done | unfold dec_value; simpl; lia | lia].
  - simpl. pose proof (Z.mod_pos_bound n 10 ltac:(lia)) as Hm.
    pose proof (Z.div_mod n 10 ltac:(lia)) as Hdm.
    destruct (Z.ltb_spec n 10) as [Hlt|Hge].
    + exists [digit_char (n mod 10)]. split_and!; [done | |].
      * unfold dec_value. simpl. rewrite digit_char_value by done.
        rewrite Z.mod_small; lia.
      * intros Hpos. simpl. lia.
    + destruct (IH (n / 10) (digit_char (n mod 10) :: acc))
        as (ds & Hds & Hv & Hlen).
      { split; [apply Z.div_pos; lia|].
        apply Z.div_lt_upper_bound; [lia|].
        rewrite Nat2Z.inj_succ, Z.pow_succ_r in Hn by lia. lia. }
      exists (ds ++ [digit_char (n mod 10)]). split_and!.
      * rewrite Hds. by rewrite <- app_assoc.
      * unfold dec_value in *. rewrite dec_value_from_app, Hv. simpl.
        rewrite digit_char_value by done. lia.
      * intros _. rewrite length_app. simpl length.
        assert (0 < n / 10) as Hq by (apply Z.div_str_pos; lia).
        specialize (Hlen Hq).
        replace (Z.of_nat (length ds + 1) - 1) with (Z.of_nat (length ds)) by lia.
        replace (Z.of_nat (length ds + 1)) with (Z.succ (Z.of_nat (length ds))) by lia.
        rewrite Z.pow_succ_r by lia.
        assert (Z.of_nat (length ds) = Z.succ (Z.of_nat (length ds) - 1)) as E by lia.
        rewrite E at 1. rewrite Z.pow_succ_r.
        -- lia.
        -- destruct ds; [|simpl; lia]. unfold dec_value in Hv. simpl in Hv. lia.
Qed.

Lemma str_nat_spec n :
  0 <= n →
  dec_value (str_nat n) = n
  ∧ (0 < n → 10 ^ (Z.of_nat (length (str_nat n)) - 1) <= n
             < 10 ^ Z.of_nat (length (str_nat n))).
Proof.
  intros Hn. unfold str_nat.
  destruct (digits_fuel_spec (S (Z.to_nat (Z.log2 n))) n []) as (ds & -> & Hv & Hl).
  - split; [done|]. destruct (Z.eq_dec n 0) as [->|]; [done|].
    rewrite Nat2Z.inj_succ, Z2Nat.id by apply Z.log2_nonneg.
    apply Z.log2_spec. lia.
  - rewrite app_nil_r. done.
Qed.

Lemma dec_value_zeros s (z : nat) :
  dec_value (s ++ replicate z 48%N) = dec_value s * 10 ^ Z.of_nat z.
Proof.
  unfold dec_value. rewrite dec_value_from_app.
  generalize (dec_value_from 0 s). intros v.
  revert v. induction z as [|z IH]; intros v.
  - simpl. lia.
  - cbn [replicate dec_value_from]. rewrite IH.
    rewrite Nat2Z.inj_succ, Z.pow_succ_r by lia. lia.
Qed.

(** [str(n)] is the decimal string of [n]: reading it back gives [n]. *)
Lemma int_of_str_int n : int_of_str (str_int n) = n.
Proof.
  unfold str_int. destruct (Z.ltb_spec n 0).
  - simpl. destruct (str_nat_spec (- n)) as [-> _]; lia.
  - destruct (str_nat_spec n) as [Hv _]; [done|].
    pose proof (str_nat_all_digits n) as Hd.
    unfold int_of_str. destruct (str_nat n) as [|c s]; [done|].
    apply Forall_cons in Hd as [Hc _]. unfold is_digit in Hc.
    destruct c as [|p]; [lia|].
    repeat (destruct p as [p|p|]; try done; try lia).
Qed.

End PyStrFacts.

(** ** Floats *)

Module PyFloatFacts.
Import PyStr PyFloat PyStrFacts.

Lemma num_pos m e : 0 < num m e.
Proof.
  unfold num. destruct (Z.leb_spec 0 e); [|lia].
  apply Z.mul_pos_pos; [lia|]. apply Z.pow_pos_nonneg; lia.
Qed.

Lemma den_pos e : 0 < den e.
Proof.
  unfold den. destruct (Z.leb_spec 0 e); [lia|].
  apply Z.pow_pos_nonneg; lia.
Qed.

(** [div_half_even n d] is an integer nearest to [n / d]: it is off by at
    most one half. *)
Lemma div_half_even_nearest n d :
  0 < d → Z.abs (2 * n - 2 * d * div_half_even n d) <= d.
Proof.
  intros Hd. unfold div_half_even.
  pose proof (Z.div_mod n d ltac:(lia)) as Hdm.
  pose proof (Z.mod_pos_bound n d Hd) as Hr.
  destruct (Z.ltb_spec (2 * (n mod d)) d);
    [|destruct (Z.ltb_spec d (2 * (n mod d))); [|destruct (Z.even (n / d))]];
    nia.
Qed.

(** A tie goes to the even neighbour. *)
Lemma div_half_even_tie n d :
  0 < d → 2 * (n mod d) = d → Z.even (div_half_even n d) = true.
Proof.
  intros Hd Ht. unfold div_half_even.
  destruct (Z.ltb_spec (2 * (n mod d)) d); [lia|].
  destruct (Z.ltb_spec d (2 * (n mod d))); [lia|].
  destruct (Z.even (n / d)) eqn:E; [done|].
  rewrite Z.even_add, E. done.
Qed.

Lemma div_half_even_nonneg n d : 0 <= n → 0 < d → 0 <= div_half_even n d.
Proof.
  intros Hn Hd. unfold div_half_even.
  pose proof (Z.div_pos n d Hn Hd).
  repeat match goal with |- context [if ?b then _ else _] => destruct b end; lia.
Qed.

(** [round(v)] is an integer nearest to [v]: with [|v| = num / den],
    [|v| - |round(v)|] is at most one half in absolute value, and the sign
    of [round(v)] is the sign of [v]. *)
Lemma py_round_nearest s m e :
  py_round (Ffinite s m e)
    = cond_Zopp s (div_half_even (num m e) (den e))
  ∧ Z.abs (2 * num m e - 2 * den e * div_half_even (num m e) (den e)) <= den e.
Proof. split; [done|]. apply div_half_even_nearest, den_pos. Qed.

(** *** Correct rounding of the decimal conversion *)

Lemma pow10_pos u : 0 <= u → 0 < 10 ^ u.
Proof. intros. apply Z.pow_pos_nonneg; lia. Qed.

Lemma pow10_add u v : 0 <= u → 0 <= v → 10 ^ (u + v) = 10 ^ u * 10 ^ v.
Proof. intros. by apply Z.pow_add_r. Qed.

Lemma ndigits_spec n :
  0 < n → 1 <= ndigits n ∧ 10 ^ (ndigits n - 1) <= n < 10 ^ ndigits n.
Proof.
  intros Hn. unfold ndigits.
  destruct (str_nat_spec n) as [Hv Hl]; [lia|]. specialize (Hl Hn).
  split; [|done]. destruct (str_nat n); [|simpl; lia].
  unfold dec_value in Hv. simpl in Hv. lia.
Qed.

(** [floor_log10 n d] is the decimal exponent of [n / d]:
    [10^x <= n / d < 10^(x+1)]. *)
Lemma floor_log10_spec n d :
  0 < n → 0 < d →
  pow10_le (floor_log10 n d) n d = true
  ∧ pow10_le (floor_log10 n d + 1) n d = false.
Proof.
  intros Hn Hd.
  destruct (ndigits_spec n Hn) as (Ha & Hn1 & Hn2).
  destruct (ndigits_spec d Hd) as (Hb & Hd1 & Hd2).
  set (a := ndigits n) in *. set (b := ndigits d) in *.
  assert (pow10_le (a - b - 1) n d = true) as Hlow.
  { unfold pow10_le. destruct (Z.leb_spec 0 (a - b - 1)).
    - apply Z.leb_le.
      assert (10 ^ (a - 1) = 10 ^ (a - b - 1) * 10 ^ b) as E
        by (rewrite <- pow10_add by lia; f_equal; lia).
      pose proof (pow10_pos (a - b - 1) ltac:(lia)). nia.
    - apply Z.leb_le.
      assert (10 ^ b = 10 ^ (a - 1) * 10 ^ (- (a - b - 1))) as E
        by (rewrite <- pow10_add by lia; f_equal; lia).
      pose proof (pow10_pos (- (a - b - 1)) ltac:(lia)). nia. }
  assert (pow10_le (a - b + 1) n d = false) as Hhigh.
  { unfold pow10_le. destruct (Z.leb_spec 0 (a - b + 1)).
    - apply Z.leb_gt.
      assert (10 ^ a = 10 ^ (a - b + 1) * 10 ^ (b - 1)) as E
        by (rewrite <- pow10_add by lia; f_equal; lia).
      pose proof (pow10_pos (a - b + 1) ltac:(lia)). nia.
    - apply Z.leb_gt.
      assert (10 ^ (b - 1) = 10 ^ a * 10 ^ (- (a - b + 1))) as E
        by (rewrite <- pow10_add by lia; f_equal; lia).
      pose proof (pow10_pos (- (a - b + 1)) ltac:(lia)). nia. }
  unfold floor_log10. fold a b.
  destruct (pow10_le (a - b) n d) eqn:E.
  - done.
  - replace (a - b - 1 + 1) with (a - b) by lia. done.
Qed.

(** The fraction scaled to ten digits before the point lies in
    [10^9, 10^10). *)
Lemma scaled_range n d :
  0 < n → 0 < d →
  let sh := floor_log10 n d - 9 in
  if 0 <=? sh then 10 ^ 9 * (d * 10 ^ sh) <= n < 10 ^ 10 * (d * 10 ^ sh)
  else 10 ^ 9 * d <= n * 10 ^ (- sh) < 10 ^ 10 * d.
Proof.
  intros Hn Hd sh.
  destruct (floor_log10_spec n d Hn Hd) as [Hlo Hhi].
  set (x := floor_log10 n d) in *. unfold pow10_le in Hlo, Hhi.
  destruct (Z.leb_spec 0 sh) as [Hsh|Hsh].
  - rewrite (proj2 (Z.leb_le 0 x)) in Hlo by lia.
    rewrite (proj2 (Z.leb_le 0 (x + 1))) in Hhi by lia.
    apply Z.leb_le in Hlo. apply Z.leb_gt in Hhi.
    assert (10 ^ x = 10 ^ 9 * 10 ^ sh) as E1
      by (rewrite <- pow10_add by lia; f_equal; lia).
    assert (10 ^ (x + 1) = 10 ^ 10 * 10 ^ sh) as E2
      by (rewrite <- pow10_add by lia; f_equal; lia).
    rewrite E1 in Hlo. rewrite E2 in Hhi. lia.
  - pose proof (pow10_pos (- sh) ltac:(lia)) as Hp. split.
    + destruct (Z.leb_spec 0 x).
      * apply Z.leb_le in Hlo.
        assert (10 ^ 9 = 10 ^ x * 10 ^ (- sh)) as E
          by (rewrite <- pow10_add by lia; f_equal; lia).
        rewrite E. nia.
      * apply Z.leb_le in Hlo.
        assert (10 ^ (- sh) = 10 ^ (- x) * 10 ^ 9) as E
          by (rewrite <- pow10_add by lia; f_equal; lia).
        rewrite E. nia.
    + destruct (Z.leb_spec 0 (x + 1)).
      * apply Z.leb_gt in Hhi.
        assert (10 ^ 10 = 10 ^ (x + 1) * 10 ^ (- sh)) as E
          by (rewrite <- pow10_add by lia; f_equal; lia).
        rewrite E. nia.
      * apply Z.leb_gt in Hhi.
        assert (10 ^ (- sh) = 10 ^ (- (x + 1)) * 10 ^ 10) as E
          by (rewrite <- pow10_add by lia; f_equal; lia).
        rewrite E. nia.
Qed.

(** The ten digits [dtoa] returns are the correctly rounded ones: a
    ten-digit integer [q] with [q * 10^(x-9)] within half a unit of the
    tenth digit of [n / d]. *)
Lemma dtoa_correct n d :
  0 < n → 0 < d →
  10 ^ 9 <= fst (dtoa 10 n d) < 10 ^ 10
  ∧ within_half_unit n d (fst (dtoa 10 n d)) (snd (dtoa 10 n d) - 9).
Proof.
  intros Hn Hd. pose proof (scaled_range n d Hn Hd) as Hr.
  unfold dtoa. cbv zeta in *.
  replace (floor_log10 n d - (10 - 1)) with (floor_log10 n d - 9) by lia.
  set (sh := floor_log10 n d - 9) in *.
  unfold within_half_unit.
  change (10 ^ (10 - 1)) with 1000000000.
  change (10 ^ 9) with 1000000000 in *.
  change (10 ^ 10) with 10000000000 in *.
  destruct (Z.leb_spec 0 sh) as [Hsh|Hsh].
  - pose proof (pow10_pos sh Hsh) as Hp.
    set (D := d * 10 ^ sh) in *. assert (0 < D) as HD by (subst D; nia).
    pose proof (div_half_even_nearest n D HD) as Hq.
    set (q := div_half_even n D) in *.
    destruct (Z.leb_spec 10000000000 q) as [Hc|Hc]; simpl.
    + replace (floor_log10 n d + 1 - 9) with (sh + 1) by lia.
      rewrite (proj2 (Z.leb_le 0 (sh + 1))) by lia.
      rewrite Z.pow_add_r by lia. change (10 ^ 1) with 10.
      replace (d * (10 ^ sh * 10)) with (10 * D) by (subst D; ring).
      assert (q = 10000000000) as Eq by nia. rewrite Eq in Hq. lia.
    + fold sh. rewrite (proj2 (Z.leb_le 0 sh)) by lia. fold D.
      split; [|lia]. split; [nia | lia].
  - pose proof (pow10_pos (- sh) ltac:(lia)) as Hp.
    set (N := n * 10 ^ (- sh)) in *.
    pose proof (div_half_even_nearest N d Hd) as Hq.
    set (q := div_half_even N d) in *.
    destruct (Z.leb_spec 10000000000 q) as [Hc|Hc]; simpl.
    + replace (floor_log10 n d + 1 - 9) with (sh + 1) by lia.
      assert (q = 10000000000) as Eq by nia. rewrite Eq in Hq.
      destruct (Z.leb_spec 0 (sh + 1)).
      * assert (sh = -1) as Es by lia. subst N. rewrite Es in *.
        change (10 ^ (- -1)) with 10 in *. change (10 ^ (-1 + 1)) with 1. lia.
      * assert (10 ^ (- sh) = 10 * 10 ^ (- (sh + 1))) as E.
        { change 10 with (10 ^ 1) at 2. rewrite <- pow10_add by lia.
          f_equal. lia. }
        subst N. rewrite E in *. lia.
    + fold sh. rewrite (proj2 (Z.leb_gt 0 sh)) by lia. fold N.
      split; [|lia]. split; [nia | lia].
Qed.

Lemma dtoa_digits_range n d :
  0 < n → 0 < d → 0 <= fst (dtoa 10 n d) < 10 ^ 10.
Proof.
  intros Hn Hd. unfold dtoa.
  set (sh := floor_log10 n d - (10 - 1)).
  set (q := if 0 <=? sh then _ else _).
  assert (0 <= q) as Hq.
  { subst q. destruct (Z.leb_spec 0 sh).
    - apply div_half_even_nonneg; [lia|].
      apply Z.mul_pos_pos; [done|]. apply Z.pow_pos_nonneg; lia.
    - apply div_half_even_nonneg; [|done].
      apply Z.mul_nonneg_nonneg; [lia|]. apply Z.pow_nonneg; lia. }
  destruct (Z.leb_spec (10 ^ 10) q); simpl; lia.
Qed.

(** The digits [format(v, ".10g")] prints, between one and ten of them,
    are the ten correctly rounded digits of [|v|] without their trailing
    zeros. *)
Lemma significant_digits_value s m e :
  ∃ z : nat,
    dec_value (significant_digits (Ffinite s m e)) * 10 ^ Z.of_nat z
    = fst (dtoa 10 (num m e) (den e))
    ∧ (length (significant_digits (Ffinite s m e)) + z = 10)%nat
    ∧ (1 <= length (significant_digits (Ffinite s m e)))%nat.
Proof.
  destruct (dtoa_correct (num m e) (den e) (num_pos m e) (den_pos e))
    as [Hq _].
  set (q := fst (dtoa 10 (num m e) (den e))) in *. simpl. fold q.
  destruct (strip_trailing_zeros_zeros (str_nat q)) as [z Hz].
  destruct (str_nat_spec q) as [Hv Hl]; [lia|]. specialize (Hl ltac:(lia)).
  assert (length (str_nat q) = 10%nat) as Hlen.
  { destruct (Nat.lt_trichotomy (length (str_nat q)) 10) as [Hlt|[E|Hgt]];
      [exfalso | done | exfalso].
    - assert (10 ^ Z.of_nat (length (str_nat q)) <= 10 ^ 9)
        by (apply Z.pow_le_mono_r; lia).
      lia.
    - assert (10 ^ 10 <= 10 ^ (Z.of_nat (length (str_nat q)) - 1))
        by (apply Z.pow_le_mono_r; lia).
      lia. }
  exists z. rewrite Hz in Hv, Hlen. rewrite dec_value_zeros in Hv.
  rewrite length_app, length_replicate in Hlen.
  split_and!; [done | done |].
  destruct (strip_trailing_zeros (str_nat q)); [|simpl; lia].
  unfold dec_value in Hv. simpl in Hv. lia.
Qed.

(** [format(v, ".10g")] prints at most ten significant digits. *)
Lemma significant_digits_length v :
  (length (significant_digits v) <= 10)%nat.
Proof.
  destruct v as [s|s m e]; simpl; [lia|].
  etransitivity; [apply strip_trailing_zeros_length|].
  apply str_nat_length; [lia|].
  apply dtoa_digits_range; [apply num_pos | apply den_pos].
Qed.

Lemma significant_digits_all_digits v : all_digits (significant_digits v).
Proof.
  destruct v as [s|s m e]; simpl.
  - repeat constructor; unfold is_digit; lia.
  - destruct (strip_trailing_zeros_prefix
                (str_nat (fst (dtoa 10 (num m e) (den e))))) as [z Hz].
    pose proof (str_nat_all_digits (fst (dtoa 10 (num m e) (den e)))) as H.
    rewrite Hz in H. by apply Forall_app in H as [? _].
Qed.

(** A literal without whitespace. *)
Ltac spaceless_literal :=
  unfold spaceless; apply (bool_decide_unpack _); vm_compute; reflexivity.

Lemma format_exp_spaceless x : spaceless (format_exp x).
Proof.
  unfold format_exp.
  repeat apply spaceless_app; try apply str_nat_spaceless;
    repeat match goal with |- context [if ?b then _ else _] => destruct b end;
    spaceless_literal.
Qed.

Lemma format_g_spaceless p neg digits decpt :
  spaceless digits → spaceless (format_g p neg digits decpt).
Proof.
  intros Hd. unfold format_g.
  repeat match goal with |- context [if ?b then _ else _] => destruct b end;
    repeat first [apply format_exp_spaceless | apply spaceless_app];
    try apply zeros_spaceless;
    try (by apply spaceless_take); try (by apply spaceless_drop);
    try done; spaceless_literal.
Qed.

Lemma format_10g_spaceless v : spaceless (format_10g v).
Proof.
  pose proof (all_digits_spaceless _ (significant_digits_all_digits v)).
  destruct v; by apply format_g_spaceless.
Qed.

End PyFloatFacts.

(** ** Exactness of the near-integer test

    [abs(v - round(v)) < 1e-9] is evaluated in binary64 arithmetic.  None of
    its three operations rounds: [round(v)] converts to a float exactly, the
    difference is a multiple of the last place of [v] that is no larger than
    [v], and no binary64 value lies between [10^-9] and the literal. *)

Module FloatExactFacts.
Import PyStr PyFloat PyFloatFacts.

Lemma digits2_bounds m :
  2 ^ (Z.pos (digits2_pos m) - 1) <= Z.pos m < 2 ^ Z.pos (digits2_pos m).
Proof.
  induction m as [m IH|m IH|]; cbn [digits2_pos].
  - rewrite Pos2Z.inj_succ.
    replace (Z.succ (Z.pos (digits2_pos m)) - 1)
      with (Z.succ (Z.pos (digits2_pos m) - 1)) by lia.
    rewrite !Z.pow_succ_r by lia. lia.
  - rewrite Pos2Z.inj_succ.
    replace (Z.succ (Z.pos (digits2_pos m)) - 1)
      with (Z.succ (Z.pos (digits2_pos m) - 1)) by lia.
    rewrite !Z.pow_succ_r by lia. lia.
  - simpl. lia.
Qed.

(** The number of binary digits is determined by the binade. *)
Lemma digits2_unique m d :
  2 ^ (d - 1) <= Z.pos m < 2 ^ d → 1 <= d → Z.pos (digits2_pos m) = d.
Proof.
  intros [Hlo Hhi] Hd. pose proof (digits2_bounds m) as [Blo Bhi].
  destruct (Z.lt_trichotomy (Z.pos (digits2_pos m)) d) as [Hlt|[E|Hgt]];
    [exfalso | done | exfalso].
  - assert (2 ^ Z.pos (digits2_pos m) <= 2 ^ (d - 1))
      by (apply Z.pow_le_mono_r; lia). lia.
  - assert (2 ^ d <= 2 ^ (Z.pos (digits2_pos m) - 1))
      by (apply Z.pow_le_mono_r; lia). lia.
Qed.

Lemma iter_xO_value (k : nat) m :
  Z.pos (Nat.iter k xO m) = Z.pos m * 2 ^ Z.of_nat k.
Proof.
  induction k as [|k IH]; [simpl; lia|].
  rewrite Nat2Z.inj_succ, Z.pow_succ_r by lia.
  cbn [Nat.iter nat_rect]. rewrite Pos2Z.inj_xO. unfold Nat.iter in IH. lia.
Qed.

Lemma iter_xO_digits (k : nat) m :
  Z.pos (digits2_pos (Nat.iter k xO m)) = Z.pos (digits2_pos m) + Z.of_nat k.
Proof.
  induction k as [|k IH]; [simpl; lia|].
  cbn [Nat.iter nat_rect digits2_pos]. unfold Nat.iter in IH. lia.
Qed.

(** Aligning to a smaller exponent keeps the value. *)
Lemma shl_align_spec mx ex ex' :
  ex' <= ex →
  ∃ mz, shl_align mx ex ex' = (mz, ex')
        ∧ Z.pos mz = Z.pos mx * 2 ^ (ex - ex')
        ∧ Z.pos (digits2_pos mz) = Z.pos (digits2_pos mx) + (ex - ex').
Proof.
  intros Hle. unfold shl_align.
  destruct (ex' - ex) as [|p|p] eqn:E; [|lia|].
  - assert (ex' = ex) as -> by lia. exists mx.
    rewrite Z.sub_diag. simpl. split_and!; [done | lia | lia].
  - exists (Pos.iter xO mx p). rewrite Pos2Nat.inj_iter.
    change (nat_rect (λ _, positive) mx (λ _, xO) (Pos.to_nat p))
      with (Nat.iter (Pos.to_nat p) xO mx).
    rewrite iter_xO_value, iter_xO_digits, positive_nat_Z.
    replace (ex - ex') with (Z.pos p) by lia. done.
Qed.

(** A mantissa that needs no right shift is kept as it is. *)
Lemma binary_round_aux_exact sx mz ez :
  fexp prec emax (Z.pos (digits2_pos mz) + ez) <= ez → ez <= emax - prec →
  binary_round_aux prec emax sx (Z.pos mz) ez loc_Exact = S754_finite sx mz ez.
Proof.
  intros Hf He. unfold binary_round_aux.
  assert (shr_fexp prec emax (Z.pos mz) ez loc_Exact
          = ({| shr_m := Z.pos mz; shr_r := false; shr_s := false |}, ez))
    as Hshr.
  { unfold shr_fexp, shr. simpl Zdigits2.
    destruct (fexp prec emax (Z.pos (digits2_pos mz) + ez) - ez) eqn:E;
      try done. lia. }
  rewrite Hshr. cbn [shr_m loc_of_shr_record round_nearest_even].
  rewrite Hshr. cbn [shr_m].
  by rewrite (proj2 (Z.leb_le ez (emax - prec))).
Qed.

(** Rounding a number of at most 53 significant bits, at an exponent that
    is not below the smallest one, is exact and gives its canonical form. *)
Lemma binary_round_exact sx mx ex :
  let fe := fexp prec emax (Z.pos (digits2_pos mx) + ex) in
  fe <= ex → fe <= emax - prec →
  ∃ mz, binary_round prec emax sx mx ex = S754_finite sx mz fe
        ∧ Z.pos mz = Z.pos mx * 2 ^ (ex - fe)
        ∧ bounded prec emax mz fe = true.
Proof.
  intros fe Hle Hmax. unfold binary_round. fold fe.
  destruct (shl_align_spec mx ex fe Hle) as (mz & -> & Hv & Hd).
  assert (Z.pos (digits2_pos mz) + fe = Z.pos (digits2_pos mx) + ex) as Hsum
    by lia.
  exists mz. split_and!; [|done|].
  - apply binary_round_aux_exact; [|done]. rewrite Hsum. fold fe. lia.
  - unfold bounded, canonical_mantissa. rewrite Hsum. fold fe.
    rewrite Z.eqb_refl. simpl. by apply Z.leb_le.
Qed.

Lemma iter_pos_nat {A} (f : A → A) p x :
  SpecFloat.iter_pos f p x = Nat.iter (Pos.to_nat p) f x.
Proof.
  revert x. induction p as [p IH|p IH|]; intros x; cbn [SpecFloat.iter_pos].
  - rewrite !IH, Pos2Nat.inj_xI.
    replace (S (2 * Pos.to_nat p)) with (Pos.to_nat p + (Pos.to_nat p + 1))%nat
      by lia.
    rewrite !Nat.iter_add. done.
  - rewrite !IH, Pos2Nat.inj_xO.
    replace (2 * Pos.to_nat p)%nat with (Pos.to_nat p + Pos.to_nat p)%nat
      by lia.
    by rewrite Nat.iter_add.
  - done.
Qed.

(** Shifting out zero bits loses nothing. *)
Lemma shr_1_iter_xO (k : nat) m :
  Nat.iter k shr_1
    {| shr_m := Z.pos (Nat.iter k xO m); shr_r := false; shr_s := false |}
  = {| shr_m := Z.pos m; shr_r := false; shr_s := false |}.
Proof.
  induction k as [|k IH]; [done|].
  rewrite Nat.iter_succ_r. cbn [Nat.iter nat_rect shr_1 orb].
  apply IH.
Qed.

Lemma fexp_normal d :
  - 1021 <= d → fexp prec emax d = d - 53.
Proof. intros. unfold fexp, emin, prec, emax. lia. Qed.

(** In a valid float with an exponent above the smallest one the mantissa
    has 53 bits. *)
Lemma bounded_normal m e :
  bounded prec emax m e = true → - 1074 < e →
  Z.pos (digits2_pos m) = 53 ∧ e <= 971.
Proof.
  unfold bounded, canonical_mantissa, fexp, emin, prec, emax.
  intros [Hc He]%andb_true_iff Hlt.
  apply Z.eqb_eq in Hc. apply Z.leb_le in He. lia.
Qed.

Lemma bounded_digits m e :
  bounded prec emax m e = true →
  Z.pos (digits2_pos m) <= 53 ∧ - 1074 <= e <= 971.
Proof.
  unfold bounded, canonical_mantissa, fexp, emin, prec, emax.
  intros [Hc He]%andb_true_iff.
  apply Z.eqb_eq in Hc. apply Z.leb_le in He. lia.
Qed.

(** [float(n)] is exact for a positive [n] below [2^53]. *)
Lemma float_of_int_small s (q : positive) :
  Z.pos q < 2 ^ 53 →
  ∃ mq eq, float_of_int (cond_Zopp s (Z.pos q)) = S754_finite s mq eq
           ∧ eq = Z.pos (digits2_pos q) - 53
           ∧ Z.pos mq = Z.pos q * 2 ^ (- eq).
Proof.
  intros Hq.
  assert (Z.pos (digits2_pos q) <= 53) as Hd.
  { pose proof (digits2_bounds q) as [Hlo _].
    destruct (Z.le_gt_cases (Z.pos (digits2_pos q)) 53); [done|].
    assert (2 ^ 53 <= 2 ^ (Z.pos (digits2_pos q) - 1))
      by (apply Z.pow_le_mono_r; lia). lia. }
  assert (fexp prec emax (Z.pos (digits2_pos q) + 0) = Z.pos (digits2_pos q) - 53)
    as Hfe by (rewrite fexp_normal; lia).
  destruct (binary_round_exact s q 0) as (mz & Hr & Hv & _).
  { rewrite Hfe. lia. }
  { rewrite Hfe. unfold emax, prec. lia. }
  rewrite Hfe in Hr, Hv.
  exists mz, (Z.pos (digits2_pos q) - 53). split_and!; [|done|].
  - unfold float_of_int, binary_normalize. by destruct s.
  - rewrite Hv. repeat (f_equal; try lia).
Qed.

(** [float(n)] gives a valid float back when [n] is its integer value. *)
Lemma float_of_int_integer s m e :
  bounded prec emax m e = true → 0 <= e →
  float_of_int (cond_Zopp s (Z.pos m * 2 ^ e)) = S754_finite s m e.
Proof.
  intros Hb He.
  destruct (bounded_normal m e Hb ltac:(lia)) as [Hd Hmax].
  set (k := Z.to_nat e).
  assert (Z.pos m * 2 ^ e = Z.pos (Nat.iter k xO m)) as ->
    by (rewrite iter_xO_value; subst k; by rewrite Z2Nat.id).
  assert (Z.pos (digits2_pos (Nat.iter k xO m)) = 53 + e) as Hdk
    by (rewrite iter_xO_digits; subst k; rewrite Z2Nat.id; lia).
  assert (float_of_int (cond_Zopp s (Z.pos (Nat.iter k xO m)))
          = binary_round prec emax s (Nat.iter k xO m) 0) as ->
    by (unfold float_of_int, binary_normalize; by destruct s).
  unfold binary_round. rewrite Hdk.
  assert (fexp prec emax (53 + e + 0) = e) as Hfe
    by (unfold fexp, emin, prec, emax; lia).
  rewrite Hfe.
  destruct (Z.eq_dec e 0) as [E0|Hne].
  - assert (k = 0%nat) as -> by (subst k; lia). rewrite E0.
    cbn [Nat.iter nat_rect shl_align Z.sub Z.opp Z.add].
    apply binary_round_aux_exact.
    + rewrite Hd. unfold fexp, emin, prec, emax. lia.
    + unfold emax, prec. lia.
  - assert (shl_align (Nat.iter k xO m) 0 e = (Nat.iter k xO m, 0)) as ->.
    { unfold shl_align. destruct (e - 0) eqn:E; try done. lia. }
    unfold binary_round_aux.
    assert (shr_fexp prec emax (Z.pos (Nat.iter k xO m)) 0 loc_Exact
            = ({| shr_m := Z.pos m; shr_r := false; shr_s := false |}, e))
      as ->.
    { unfold shr_fexp, shr. cbn [Zdigits2]. rewrite Hdk, Hfe.
      destruct (e - 0) as [|p|p] eqn:E; [lia| |lia].
      cbn [shr_record_of_loc]. rewrite iter_pos_nat.
      assert (Pos.to_nat p = k) as -> by (subst k; lia).
      rewrite shr_1_iter_xO. f_equal. lia. }
    cbn [shr_m loc_of_shr_record round_nearest_even].
    assert (shr_fexp prec emax (Z.pos m) e loc_Exact
            = ({| shr_m := Z.pos m; shr_r := false; shr_s := false |}, e))
      as ->.
    { unfold shr_fexp, shr. cbn [Zdigits2]. rewrite Hd.
      replace (fexp prec emax (53 + e) - e) with 0
        by (unfold fexp, emin, prec, emax; lia).
      done. }
    cbn [shr_m]. by rewrite (proj2 (Z.leb_le e (emax - prec))).
Qed.

Lemma digits2_le m k : Z.pos m < 2 ^ k → Z.pos (digits2_pos m) <= k.
Proof.
  intros Hm. pose proof (digits2_bounds m) as [Hlo _].
  destruct (Z.le_gt_cases (Z.pos (digits2_pos m)) k); [done|].
  assert (2 ^ k <= 2 ^ (Z.pos (digits2_pos m) - 1)).
  { apply Z.pow_le_mono_r; lia. }
  lia.
Qed.

Lemma div_half_even_1 n : div_half_even n 1 = n.
Proof. unfold div_half_even. by rewrite Z.div_1_r, Z.mod_1_r. Qed.

(** The distance to the rounded quotient never exceeds the dividend. *)
Lemma div_half_even_residue n d :
  0 < n → 0 < d → Z.abs (n - div_half_even n d * d) <= n.
Proof.
  intros Hn Hd. unfold div_half_even.
  pose proof (Z.div_mod n d ltac:(lia)) as Hdm.
  pose proof (Z.mod_pos_bound n d Hd) as Hr.
  pose proof (Z.div_pos n d ltac:(lia) Hd) as Hq.
  destruct (Z.ltb_spec (2 * (n mod d)) d);
    [|destruct (Z.ltb_spec d (2 * (n mod d))); [|destruct (Z.even (n / d))]];
    nia.
Qed.

Lemma cond_Zopp_sub s a b : cond_Zopp s a - cond_Zopp s b = cond_Zopp s (a - b).
Proof. destruct s; cbn; lia. Qed.

Lemma binary_normalize_pos s p e :
  binary_normalize prec emax (cond_Zopp s (Z.pos p)) e false
  = binary_round prec emax s p e.
Proof. by destruct s. Qed.

Lemma binary_normalize_neg s p e :
  binary_normalize prec emax (cond_Zopp s (Z.neg p)) e false
  = binary_round prec emax (negb s) p e.
Proof. by destruct s. Qed.

(** The comparison with the literal [1e-9] is the comparison of the values. *)
Lemma SFltb_lit m1 e1 :
  bounded prec emax m1 e1 = true → e1 <= 0 →
  SFltb (S754_finite false m1 e1) lit_1e_9 = true
  ↔ Z.pos m1 * 2 ^ 82 < 4835703278458517 * 2 ^ (- e1).
Proof.
  intros Hb He.
  destruct (bounded_digits m1 e1 Hb) as [Hd _].
  pose proof (digits2_bounds m1) as [Hlo Hhi].
  assert (Z.pos m1 < 2 ^ 53) as Hm.
  { eapply Z.lt_le_trans; [exact Hhi|]. apply Z.pow_le_mono_r; lia. }
  unfold SFltb, lit_1e_9, SFcompare.
  destruct (Z.compare_spec e1 (- 82)) as [E|Hlt|Hgt].
  - subst e1. clear Hb.
    rewrite Pos.compare_cont_spec. cbn [Pos.switch_Eq].
    change (2 ^ (- - 82)) with 4835703278458516698824704.
    change (2 ^ 82) with 4835703278458516698824704.
    destruct (Pos.compare_spec m1 4835703278458517) as [E|E|E].
    + subst m1. split; [discriminate | lia].
    + apply Pos2Z.pos_lt_pos in E.
      split; [intros _; lia | intros _; reflexivity].
    + apply Pos2Z.pos_lt_pos in E. split; [discriminate | lia].
  - assert (2 ^ 83 <= 2 ^ (- e1)) as Hp by (apply Z.pow_le_mono_r; lia).
    clear Hb.
    change (2 ^ 53) with 9007199254740992 in Hm.
    change (2 ^ 83) with 9671406556917033397649408 in Hp.
    change (2 ^ 82) with 4835703278458516698824704.
    split; [intros _; lia | intros _; reflexivity].
  - destruct (bounded_normal m1 e1 Hb ltac:(lia)) as [Hd53 _].
    rewrite Hd53 in Hlo. clear Hb.
    assert (2 ^ (- e1) <= 2 ^ 81) as Hp by (apply Z.pow_le_mono_r; lia).
    change (2 ^ (53 - 1)) with 4503599627370496 in Hlo.
    change (2 ^ 81) with 2417851639229258349412352 in Hp.
    change (2 ^ 82) with 4835703278458516698824704.
    split; [discriminate | intros; lia].
Qed.

Lemma shl_align_same m e : shl_align m e e = (m, e).
Proof. unfold shl_align. by rewrite Z.sub_diag. Qed.

Lemma SFsub_finite s m e s' m' e' :
  SFsub prec emax (S754_finite s m e) (S754_finite s' m' e')
  = binary_normalize prec emax
      (cond_Zopp s (Z.pos (fst (shl_align m e (Z.min e e'))))
       - cond_Zopp s' (Z.pos (fst (shl_align m' e' (Z.min e e')))))
      (Z.min e e') false.
Proof. done. Qed.

Lemma near_integer_zero s : near_integer (Fzero s) = true.
Proof. by destruct s. Qed.

(** A float without a fractional part is its own [round]. *)
Lemma near_integer_integral s m e :
  bounded prec emax m e = true → 0 <= e →
  near_integer (Ffinite s m e) = true.
Proof.
  intros Hb He. unfold near_integer. cbn [SF py_round].
  unfold num, den. rewrite (proj2 (Z.leb_le 0 e) He), div_half_even_1.
  rewrite float_of_int_integer by done.
  rewrite SFsub_finite, Z.min_id, shl_align_same. cbn [fst].
  by rewrite Z.sub_diag.
Qed.

(** With a fractional part: the subtraction is exact. *)
Lemma sub_round_exact s m e :
  bounded prec emax m e = true → e < 0 →
  let w := Z.pos m - div_half_even (Z.pos m) (2 ^ (- e)) * 2 ^ (- e) in
  SFltb (SFabs (SFsub prec emax (S754_finite s m e)
                  (float_of_int (cond_Zopp s (div_half_even (Z.pos m) (2 ^ (- e)))))))
        lit_1e_9 = true
  ↔ Z.abs w * 2 ^ 82 < 4835703278458517 * 2 ^ (- e).
Proof.
  intros Hb He.
  set (d := 2 ^ (- e)). set (q := div_half_even (Z.pos m) d). intros w.
  destruct (bounded_digits m e Hb) as [Hdm [Hemin _]].
  pose proof (digits2_bounds m) as [Hmlo Hmhi].
  assert (Z.pos m < 2 ^ 53) as Hm.
  { eapply Z.lt_le_trans; [exact Hmhi|]. apply Z.pow_le_mono_r; lia. }
  assert (2 <= d) as Hd2.
  { subst d. change 2 with (2 ^ 1) at 1. apply Z.pow_le_mono_r; lia. }
  assert (0 <= q) as Hq0 by (apply div_half_even_nonneg; lia).
  pose proof (div_half_even_residue (Z.pos m) d ltac:(lia) ltac:(lia)) as Hres.
  pose proof (div_half_even_nearest (Z.pos m) d ltac:(lia)) as Hnear.
  fold q in Hres, Hnear. fold w in Hres.
  assert (2 * Z.abs w <= d) as Hw by (subst w; lia).
  assert (0 < 4835703278458517 * d) as HL by lia.
  destruct q as [|pq|pq] eqn:Eq; [| |lia].
  - (* round(v) = 0: nothing is subtracted *)
    assert (w = Z.pos m) as -> by (subst w; lia).
    destruct s; cbn [cond_Zopp Z.opp]; change (float_of_int 0) with (S754_zero false);
      cbn [SFsub SFabs]; rewrite (SFltb_lit m e Hb ltac:(lia)); by fold d.
  - assert (Z.pos pq < 2 ^ 53) as Hq by nia.
    destruct (float_of_int_small s pq Hq) as (mq & e' & Hf & He' & Hmq).
    rewrite Hf.
    assert (e <= e') as Hle.
    { destruct (Z.le_gt_cases e (- 52)) as [|He52]; [lia|].
      destruct (bounded_normal m e Hb ltac:(lia)) as [Hd53 _].
      rewrite Hd53 in Hmlo. change (2 ^ (53 - 1)) with (2 ^ 52) in Hmlo.
      destruct (Z.le_gt_cases e e') as [|Hlt]; [done|exfalso].
      pose proof (digits2_bounds pq) as [_ Hqhi].
      assert (2 ^ Z.pos (digits2_pos pq) <= 2 ^ (52 + e))
        by (apply Z.pow_le_mono_r; lia).
      assert (2 ^ (52 + e) * d = 2 ^ 52)
        by (subst d; rewrite <- Z.pow_add_r by lia; f_equal; lia).
      nia. }
    pose proof (digits2_le pq 53 Hq) as Hdq.
    assert (0 <= - e') by lia.
    rewrite SFsub_finite, (Z.min_l e e' Hle), shl_align_same.
    destruct (shl_align_spec mq e' e Hle) as (mz & -> & Hmz & _).
    cbn [fst].
    assert (Z.pos mz = Z.pos pq * d) as ->.
    { rewrite Hmz, Hmq, <- Z.mul_assoc, <- Z.pow_add_r by lia.
      subst d. do 2 f_equal. lia. }
    rewrite cond_Zopp_sub. fold w.
    assert (∀ s' pz, Z.abs w = Z.pos pz →
      SFltb (SFabs (binary_round prec emax s' pz e)) lit_1e_9 = true
      ↔ Z.abs w * 2 ^ 82 < 4835703278458517 * d) as Hround.
    { intros s' pz Hpz.
      assert (Z.pos pz < 2 ^ 53) as Hz by lia.
      pose proof (digits2_le pz 53 Hz) as Hdz.
      set (fe := fexp prec emax (Z.pos (digits2_pos pz) + e)).
      assert (fe <= e) as Hfe by (subst fe; unfold fexp, emin, prec, emax; lia).
      destruct (binary_round_exact s' pz e) as (mr & Hr & Hmr & Hbr);
        [by fold fe | fold fe; unfold emax, prec; lia |].
      rewrite Hr. fold fe in Hmr, Hbr |- *. cbn [SFabs].
      rewrite (SFltb_lit mr fe Hbr ltac:(lia)), Hmr, Hpz.
      assert (2 ^ (- fe) = d * 2 ^ (e - fe)) as ->
        by (subst d; rewrite <- Z.pow_add_r by lia; f_equal; lia).
      assert (0 < 2 ^ (e - fe)) by (apply Z.pow_pos_nonneg; lia).
      rewrite <- (Z.mul_assoc (Z.pos pz)), (Z.mul_comm (2 ^ (e - fe))),
        !Z.mul_assoc.
      symmetry. by apply Z.mul_lt_mono_pos_r. }
    destruct w as [|pw|pw] eqn:Ew.
    + change (Z.abs 0 * 2 ^ 82) with 0.
      split; [by intros _ | intros _; by destruct s].
    + rewrite binary_normalize_pos. by apply Hround.
    + rewrite binary_normalize_neg. by apply Hround.
Qed.

(** The floating-point test decides the comparison of the exact distance
    [|v - round(v)|] with the value of the literal,
    [4835703278458517 / 2^82]: neither the conversion of [round(v)], nor the
    subtraction, nor the comparison rounds. *)
Lemma near_integer_below_lit v :
  valid_float v = true → near_integer v = true ↔ below_lit_1e_9 v.
Proof.
  destruct v as [s|s m e]; intros Hv.
  - by rewrite near_integer_zero.
  - change (bounded prec emax m e = true) in Hv.
    destruct (Z.le_gt_cases 0 e) as [He|He].
    + rewrite near_integer_integral by done.
      unfold below_lit_1e_9, round_distance, num, den.
      rewrite (proj2 (Z.leb_le 0 e) He).
      rewrite div_half_even_1, Z.mul_1_r, Z.sub_diag. done.
    + unfold near_integer, below_lit_1e_9, round_distance, py_round, num, den.
      cbn [SF]. rewrite (proj2 (Z.leb_gt 0 e) He).
      by apply sub_round_exact.
Qed.

(** No binary64 value lies between [10^-9] and the literal [1e-9]: for a
    value [a / 2^k] with a mantissa below [2^53], being below the literal
    and being below [10^-9] are the same. *)
Lemma lit_1e_9_tight a k :
  0 <= a < 2 ^ 53 → 1 <= k →
  a * 2 ^ 82 < 4835703278458517 * 2 ^ k ↔ a * 10 ^ 9 < 2 ^ k.
Proof.
  intros Ha Hk.
  assert (0 < 2 ^ k) as Hd by (apply Z.pow_pos_nonneg; lia).
  change (2 ^ 53) with 9007199254740992 in Ha.
  change (10 ^ 9) with 1000000000.
  split.
  - intros Hlt.
    destruct (Z.lt_trichotomy k 82) as [Hk82|[->|Hk82]].
    + assert (2 ^ (82 - k) * 2 ^ k = 2 ^ 82) as Ht
        by (rewrite <- Z.pow_add_r by lia; f_equal; lia).
      assert (0 < 2 ^ (82 - k)) as Htpos by (apply Z.pow_pos_nonneg; lia).
      set (t := 2 ^ (82 - k)) in *. set (d := 2 ^ k) in *.
      assert (a * t < 4835703278458517) as Hat.
      { apply (Z.mul_lt_mono_pos_r d); [done|].
        rewrite <- Z.mul_assoc, Ht. done. }
      change (2 ^ 82) with 4835703278458516698824704 in Ht.
      apply (Z.mul_lt_mono_pos_r t); [done|].
      rewrite (Z.mul_comm d t), Ht. lia.
    + change (2 ^ 82) with 4835703278458516698824704 in *. lia.
    + assert (2 ^ 83 <= 2 ^ k) as Hp by (apply Z.pow_le_mono_r; lia).
      change (2 ^ 83) with 9671406556917033397649408 in Hp. lia.
  - intros Hlt. change (2 ^ 82) with 4835703278458516698824704. lia.
Qed.

(** The test [abs(v - round(v)) < 1e-9] of the source, computed in binary64
    arithmetic, holds exactly when [v] is less than [10^-9] away from
    [round(v)]. *)
Lemma near_integer_exact v :
  valid_float v = true → near_integer v = true ↔ within_1e_9 v.
Proof.
  intros Hv. rewrite (near_integer_below_lit v Hv).
  destruct v as [s|s m e]; [done|].
  change (bounded prec emax m e = true) in Hv.
  unfold below_lit_1e_9, within_1e_9.
  destruct (Z.le_gt_cases 0 e) as [He|He].
  - unfold round_distance, num, den.
    rewrite (proj2 (Z.leb_le 0 e) He), div_half_even_1, Z.mul_1_r, Z.sub_diag.
    change (Z.abs 0) with 0. rewrite !Z.mul_0_l. split; lia.
  - destruct (bounded_digits m e Hv) as [Hdm _].
    pose proof (digits2_bounds m) as [_ Hmhi].
    assert (Z.pos m < 2 ^ 53) as Hm.
    { eapply Z.lt_le_trans; [exact Hmhi|]. apply Z.pow_le_mono_r; lia. }
    pose proof (div_half_even_residue (num m e) (den e) (num_pos m e)
                  (den_pos e)) as Hres.
    fold (round_distance m e) in Hres.
    assert (0 <= round_distance m e) by (unfold round_distance; lia).
    assert (den e = 2 ^ (- e)) as Hden
      by (unfold den; by rewrite (proj2 (Z.leb_gt 0 e) He)).
    assert (num m e = Z.pos m) as Hnum
      by (unfold num; by rewrite (proj2 (Z.leb_gt 0 e) He)).
    rewrite Hnum in Hres. rewrite Hden. apply lit_1e_9_tight; lia.
Qed.

End FloatExactFacts.

(** ** Normalization *)

Module NormFacts.
Import PyStr PyFloat Openpyxl Pandas VariantDiff Examples.
Import PyStrFacts PyFloatFacts FloatExactFacts.

Lemma example_floats_denote_literals :
  nearest_to_decimal 4503599627370496 (-52) 10 1
  ∧ nearest_to_decimal 4503599627370496 (-51) 20 1
  ∧ nearest_to_decimal 4503599627393014 (-51) 200000000001 11
  ∧ nearest_to_decimal 4728779608739021 (-51) 21 1.
Proof. unfold nearest_to_decimal. repeat split; vm_compute; congruence. Qed.

(** The literal [1e-9] of the source is the binary64 value nearest to
    [10^-9]. *)
Lemma lit_1e_9_denotes_literal :
  lit_1e_9 = SF (Ffinite false 4835703278458517 (-82))
  ∧ nearest_to_decimal 4835703278458517 (-82) 1 9.
Proof. unfold nearest_to_decimal. repeat split; vm_compute; congruence. Qed.

Lemma norm_clean_ends v : clean_ends (_norm v).
Proof.
  destruct v as [|f|o]; simpl.
  - by split.
  - apply spaceless_clean.
    destruct (near_integer f);
      [apply str_int_spaceless | apply format_10g_spaceless].
  - apply strip_clean.
Qed.

(** C9: normalization is idempotent on its own outputs: normalizing the
    canonical string [_norm x], taken as a text cell value, gives that
    string back, for every cell value [x]. *)
Theorem norm_idempotent (x : value) :
  _norm (VObj (PyStr (_norm x))) = _norm x.
Proof. simpl. apply strip_fixed, norm_clean_ends. Qed.

(** [round(v)] is an integer nearest to [v]. *)
Lemma py_round_abs_nearest s m e :
  Z.abs (2 * num m e - 2 * den e * Z.abs (py_round (Ffinite s m e))) <= den e.
Proof.
  pose proof (div_half_even_nonneg (num m e) (den e)
                ltac:(pose proof (num_pos m e); lia) (den_pos e)) as Hq.
  assert (Z.abs (py_round (Ffinite s m e))
          = div_half_even (num m e) (den e)) as ->
    by (destruct s; cbn [py_round cond_Zopp]; lia).
  apply div_half_even_nearest, den_pos.
Qed.

(** The digits of the [.10g] form, filled up with zeros to ten digits, are
    the ten correctly rounded significant digits of the float. *)
Lemma significant_digits_correct s m e :
  ∃ z : nat,
    (length (significant_digits (Ffinite s m e)) + z = 10)%nat
    ∧ within_half_unit (num m e) (den e)
        (dec_value (significant_digits (Ffinite s m e)) * 10 ^ Z.of_nat z)
        (snd (dtoa 10 (num m e) (den e)) - 9).
Proof.
  destruct (significant_digits_value s m e) as (z & Hq & Hlen & _).
  destruct (dtoa_correct (num m e) (den e) (num_pos m e) (den_pos e))
    as [_ Hc].
  exists z. split; [done|]. by rewrite Hq.
Qed.

End NormFacts.

(** ** Lists *)

Module ListFacts.

Lemma filter_all {A} (P : A → Prop) `{!∀ x, Decision (P x)} (l : list A) :
  Forall P l → filter P l = l.
Proof.
  induction 1 as [|x l Hx _ IH]; [done|].
  by rewrite filter_cons_True, IH.
Qed.

Lemma filter_none {A} (P : A → Prop) `{!∀ x, Decision (P x)} (l : list A) :
  Forall (λ x, ¬ P x) l → filter P l = [].
Proof.
  induction 1 as [|x l Hx _ IH]; [done|].
  by rewrite filter_cons_False.
Qed.

Lemma StronglySorted_filter {A} (R : relation A) (P : A → Prop)
    `{!∀ x, Decision (P x)} (l : list A) :
  StronglySorted R l → StronglySorted R (filter P l).
Proof.
  induction 1 as [|x l Hl IH Hx]; [constructor|].
  rewrite filter_cons. case_decide; [|done].
  constructor; [done|].
  apply Forall_forall. intros y Hy. apply list_elem_of_filter in Hy as [_ Hy].
  by eapply Forall_forall in Hx.
Qed.

Lemma StronglySorted_take {A} (R : relation A) n (l : list A) :
  StronglySorted R l → StronglySorted R (take n l).
Proof.
  intros H. rewrite <- (take_drop n l) in H.
  by apply StronglySorted_app_1_l in H.
Qed.

Lemma StronglySorted_seqZ m n : StronglySorted Z.lt (seqZ m n).
Proof.
  remember (Z.to_nat n) as len eqn:E. revert m n E.
  induction len as [|len IH]; intros m n E.
  - rewrite seqZ_nil by lia. constructor.
  - rewrite seqZ_cons by lia. constructor.
    + apply IH. lia.
    + apply Forall_forall. intros x Hx. apply elem_of_seqZ in Hx. lia.
Qed.

Lemma StronglySorted_prefix {A} (R : relation A) (l1 l2 : list A) :
  l1 `prefix_of` l2 → StronglySorted R l2 → StronglySorted R l1.
Proof. intros [l ->]. apply StronglySorted_app_1_l. Qed.

Lemma Sorted_prefix {A} (R : relation A) (l1 l2 : list A) :
  l1 `prefix_of` l2 → Sorted R l2 → Sorted R l1.
Proof.
  intros [k ->]. revert k. induction l1 as [|x l1 IH]; intros k H.
  - constructor.
  - simpl in H. apply Sorted_inv in H as [Hs Hh]. constructor; [by eapply IH|].
    destruct l1; [constructor|]. inversion Hh. by constructor.
Qed.

End ListFacts.

(** ** Sheet lookup and the diff scan *)

Module DiffFacts.
Import PyStr PyFloat Openpyxl Pandas VariantDiff ListFacts.

Lemma find_sheet_Some key l ws :
  find_sheet key l = Some ws → title ws = key ∧ ws ∈ l.
Proof.
  induction l as [|w l IH]; simpl; [done|].
  destruct (decide (title w = key)) as [E|E].
  - intros [= <-]. split; [done | left].
  - intros H. destruct (IH H). split; [done | by right].
Qed.

Lemma find_sheet_None key l :
  find_sheet key l = None ↔ key ∉ title <$> l.
Proof.
  induction l as [|w l IH]; simpl.
  - split; [intros _; apply not_elem_of_nil | done].
  - rewrite not_elem_of_cons. destruct (decide (title w = key)) as [E|E].
    + split; [done | intros [? _]; congruence].
    + rewrite IH. split; [intros ?; split; [congruence | done] | tauto].
Qed.

(** Past the guard of [diff_sheet] the lookup [wb[sheet_name]] succeeds. *)
Lemma getitem_is_Some wb key :
  key ∈ sheetnames wb ↔ is_Some (getitem wb key).
Proof.
  unfold getitem, sheetnames. destruct (find_sheet key (_sheets wb)) eqn:E.
  - split; [by eexists|]. intros _.
    destruct (decide (key ∈ title <$> _sheets wb)) as [|Hn]; [done|].
    apply find_sheet_None in Hn. congruence.
  - apply find_sheet_None in E. split; [done | by intros [? [=]]].
Qed.

Lemma getitem_Some wb key ws :
  getitem wb key = Some ws → key ∈ sheetnames wb.
Proof. intros H. apply getitem_is_Some. by eexists. Qed.

Section ScanFacts.
Context (ws_a ws_b : Worksheet) (k max_col : Z).

Local Abbreviation row_changes := (VariantDiff.row_changes ws_a ws_b).
Local Abbreviation all_changes := (VariantDiff.all_changes ws_a ws_b).


Lemma row_changes_cons r c cols :
  row_changes r (c :: cols)
  = if bool_decide (_norm (cell_value ws_a r c) ≠ _norm (cell_value ws_b r c))
    then change_at ws_a ws_b (r, c) :: row_changes r cols
    else row_changes r cols.
Proof.
  unfold row_changes. rewrite fmap_cons, filter_cons.
  case_bool_decide as Hd; destruct (decide (differs ws_a ws_b (r, c))) as [D|D];
    unfold differs in D; simpl in D; done.
Qed.

(** The inner loop appends the discrepancies of the row until the cap is
    reached, and at least one of them when there is one. *)
Lemma scan_row_spec r cols changes :
  scan_row ws_a ws_b k r cols changes
  = changes ++ take (Z.to_nat (Z.max 1 (k - Z.of_nat (length changes))))
                 (row_changes r cols).
Proof.
  revert changes. induction cols as [|c cols IH]; intros changes.
  - simpl. unfold row_changes. simpl. by rewrite take_nil, app_nil_r.
  - simpl. rewrite row_changes_cons.
    case_bool_decide as Hd; [|apply IH].
    unfold cap_reached. rewrite length_app. simpl.
    destruct (Z.leb_spec k (Z.of_nat (length changes + 1))) as [Hc|Hc].
    + replace (Z.to_nat (Z.max 1 (k - Z.of_nat (length changes)))) with 1%nat
        by lia.
      simpl. by rewrite take_0.
    + rewrite IH, length_app. simpl.
      replace (Z.to_nat (Z.max 1 (k - Z.of_nat (length changes))))
        with (S (Z.to_nat (Z.max 1 (k - Z.of_nat (length changes + 1)))))
        by lia.
      simpl. by rewrite <- app_assoc.
Qed.

(** With a cap of at least 1 not yet reached, the outer loop appends the
    discrepancies of the remaining rows up to the cap. *)
Lemma scan_rows_spec rows changes :
  Z.of_nat (length changes) < k →
  scan_rows ws_a ws_b k max_col rows changes
  = changes ++ take (Z.to_nat (k - Z.of_nat (length changes)))
                 (all_changes rows (range 1 (max_col + 1))).
Proof.
  revert changes. induction rows as [|r rows IH]; intros changes Hlt.
  - simpl. unfold all_changes. simpl. by rewrite take_nil, app_nil_r.
  - cbn [scan_rows]. rewrite scan_row_spec. unfold all_changes.
    rewrite bind_cons.
    fold (all_changes rows (range 1 (max_col + 1))).
    set (D := row_changes r (range 1 (max_col + 1))).
    replace (Z.max 1 (k - Z.of_nat (length changes)))
      with (k - Z.of_nat (length changes)) by lia.
    set (n := Z.to_nat (k - Z.of_nat (length changes))).
    unfold cap_reached. rewrite length_app, length_take.
    destruct (Z.leb_spec k (Z.of_nat (length changes + n `min` length D)))
      as [Hc|Hc].
    + rewrite take_app_le by lia. done.
    + rewrite take_ge by lia.
      rewrite IH by (rewrite length_app; lia).
      rewrite <- app_assoc. f_equal.
      rewrite take_app. rewrite (take_ge D) by lia. f_equal. f_equal.
      rewrite length_app. lia.
Qed.

(** With a cap below 1 the outer loop stops after its first row, whatever
    that row held. *)
Lemma scan_rows_low_cap r rows :
  k <= 0 →
  scan_rows ws_a ws_b k max_col (r :: rows) []
  = take 1 (row_changes r (range 1 (max_col + 1))).
Proof.
  intros Hk. cbn [scan_rows]. rewrite scan_row_spec.
  replace (Z.to_nat (Z.max 1 (k - Z.of_nat (length (@nil Change)))))
    with 1%nat by (simpl; lia).
  rewrite app_nil_l. unfold cap_reached.
  destruct (Z.leb_spec k (Z.of_nat (length (take 1
    (row_changes r (range 1 (max_col + 1))))))); [done | lia].
Qed.

Lemma row_changes_Row r cols ch : ch ∈ row_changes r cols → Row ch = r.
Proof.
  unfold row_changes. rewrite list_elem_of_fmap.
  intros (rc & -> & H). apply list_elem_of_filter in H as [_ H].
  apply list_elem_of_fmap in H as (c & -> & _). done.
Qed.

Lemma all_changes_Row rows cols ch :
  ch ∈ all_changes rows cols → Row ch ∈ rows.
Proof.
  unfold all_changes. rewrite list_elem_of_bind. intros (r & H & Hr).
  by rewrite (row_changes_Row _ _ _ H).
Qed.

End ScanFacts.

Lemma range_1 n : range 1 (n + 1) = seqZ 1 n.
Proof. unfold range. f_equal. lia. Qed.

Lemma scan_coords_bind n_rows n_cols :
  scan_coords n_rows n_cols
  = seqZ 1 n_rows ≫= (λ r, (λ c, (r, c)) <$> seqZ 1 n_cols).
Proof. done. Qed.

Lemma all_changes_discrepancies ws_a ws_b :
  discrepancies ws_a ws_b
  = all_changes ws_a ws_b
      (range 1 (scan_max_row ws_a ws_b + 1))
      (range 1 (scan_max_col ws_a ws_b + 1)).
Proof.
  rewrite !range_1. unfold discrepancies, all_changes, scan_coords.
  induction (seqZ 1 (scan_max_row ws_a ws_b)) as [|r rows IH]; [done|].
  rewrite !bind_cons, filter_app, fmap_app, IH. done.
Qed.

(** What [diff_sheet] computes on a sheet present in both workbooks. *)
Lemma diff_sheet_unfold wb_a wb_b name k ws_a ws_b :
  getitem wb_a name = Some ws_a → getitem wb_b name = Some ws_b →
  diff_sheet wb_a wb_b name k
  = {| columns := diff_columns;
       records := scan_rows ws_a ws_b k (scan_max_col ws_a ws_b)
                    (range 1 (scan_max_row ws_a ws_b + 1)) [] |}.
Proof.
  intros Ha Hb. unfold diff_sheet. rewrite Ha, Hb.
  rewrite bool_decide_eq_false_2; [done|].
  intros [H|H]; apply H; eauto using getitem_Some.
Qed.

(** The records of [diff_sheet]: with a cap of at least 1, the first
    [max_changes] discrepancies in row-major order; with a cap below 1,
    the first discrepancy of row 1 if that row has one, nothing
    otherwise. *)
Lemma diff_sheet_records wb_a wb_b name k ws_a ws_b :
  getitem wb_a name = Some ws_a → getitem wb_b name = Some ws_b →
  records (diff_sheet wb_a wb_b name k)
  = if 1 <=? k then take (Z.to_nat k) (discrepancies ws_a ws_b)
    else take 1 (filter (λ ch, Row ch = 1) (discrepancies ws_a ws_b)).
Proof.
  intros Ha Hb. rewrite (diff_sheet_unfold _ _ _ _ _ _ Ha Hb). simpl.
  rewrite all_changes_discrepancies.
  destruct (Z.leb_spec 1 k) as [Hk|Hk].
  - rewrite scan_rows_spec by (simpl; lia). simpl. f_equal. f_equal. lia.
  - rewrite !(range_1 (scan_max_row ws_a ws_b)).
    destruct (Z.le_gt_cases (scan_max_row ws_a ws_b) 0) as [Hr|Hr].
    + rewrite seqZ_nil by done. done.
    + rewrite seqZ_cons by done. rewrite scan_rows_low_cap by lia.
      unfold all_changes. rewrite bind_cons, filter_app. f_equal.
      fold (all_changes ws_a ws_b (seqZ (Z.succ 1) (Z.pred (scan_max_row ws_a ws_b)))
              (range 1 (scan_max_col ws_a ws_b + 1))).
      rewrite filter_all
        by (apply Forall_forall; intros ch; apply row_changes_Row).
      rewrite filter_none; [by rewrite app_nil_r|].
      apply Forall_forall. intros ch Hch E.
      apply all_changes_Row, elem_of_seqZ in Hch. lia.
Qed.

End DiffFacts.

(** ** Properties of [diff_sheet] *)

Module DiffTheorems.
Import PyStr PyFloat Openpyxl Pandas VariantDiff ListFacts DiffFacts.

(** *** Order of the scan *)

Section Order.
Context (ws_a ws_b : Worksheet).

Lemma row_changes_sorted r cols :
  StronglySorted Z.lt cols →
  StronglySorted row_major (row_changes ws_a ws_b r cols).
Proof.
  intros Hc. unfold row_changes.
  apply (StronglySorted_fmap _ (λ x y : Z * Z, x.1 = y.1 ∧ x.2 < y.2)).
  - intros x y [E L]. right. simpl. done.
  - apply StronglySorted_filter.
    apply (StronglySorted_fmap _ Z.lt); [|done].
    intros x y L. simpl. done.
Qed.

Lemma all_changes_sorted rows cols :
  StronglySorted Z.lt rows → StronglySorted Z.lt cols →
  StronglySorted row_major (all_changes ws_a ws_b rows cols).
Proof.
  intros Hr Hc. induction Hr as [|r rows Hrows IH Hlt].
  - constructor.
  - unfold all_changes. rewrite bind_cons. apply StronglySorted_app_2.
    + intros x y Hx Hy. left.
      rewrite (row_changes_Row _ _ _ _ _ Hx).
      apply (all_changes_Row ws_a ws_b) in Hy.
      by eapply Forall_forall in Hlt.
    + by apply row_changes_sorted.
    + apply IH.
Qed.

(** The discrepancies are listed in row-major order. *)
Lemma discrepancies_sorted :
  StronglySorted row_major (discrepancies ws_a ws_b).
Proof.
  rewrite all_changes_discrepancies, !range_1.
  apply all_changes_sorted; apply StronglySorted_seqZ.
Qed.

(** The discrepancies of row 1 come first. *)
Lemma discrepancies_first_row :
  filter (λ ch, Row ch = 1) (discrepancies ws_a ws_b)
    `prefix_of` discrepancies ws_a ws_b.
Proof.
  rewrite all_changes_discrepancies, !range_1.
  destruct (Z.le_gt_cases (scan_max_row ws_a ws_b) 0) as [Hr|Hr].
  - rewrite seqZ_nil by done. by exists [].
  - rewrite seqZ_cons by done. unfold all_changes. rewrite bind_cons, filter_app.
    rewrite filter_all
      by (apply Forall_forall; intros ch; apply row_changes_Row).
    rewrite filter_none.
    + rewrite app_nil_r. by eexists.
    + apply Forall_forall. intros ch Hch E.
      apply (all_changes_Row ws_a ws_b), elem_of_seqZ in Hch. lia.
Qed.

(** Membership in the discrepancies, by coordinate. *)
Lemma elem_of_discrepancies ch :
  ch ∈ discrepancies ws_a ws_b ↔
  ch = change_at ws_a ws_b (Row ch, Col ch)
  ∧ differs ws_a ws_b (Row ch, Col ch)
  ∧ 1 <= Row ch <= scan_max_row ws_a ws_b
  ∧ 1 <= Col ch <= scan_max_col ws_a ws_b.
Proof.
  unfold discrepancies, scan_coords.
  rewrite list_elem_of_fmap. split.
  - intros ([r c] & -> & H). apply list_elem_of_filter in H as [Hd H].
    apply list_elem_of_bind in H as (r' & H & Hr).
    apply list_elem_of_fmap in H as (c' & [= -> ->] & Hc).
    apply elem_of_seqZ in Hr, Hc. simpl. split_and!; try done; lia.
  - intros (E & Hd & Hr & Hc). exists (Row ch, Col ch). split; [done|].
    apply list_elem_of_filter. split; [done|].
    apply list_elem_of_bind. exists (Row ch). split.
    + apply list_elem_of_fmap. exists (Col ch). split; [done|].
      apply elem_of_seqZ. lia.
    + apply elem_of_seqZ. lia.
Qed.

End Order.

(** *** Completeness of the scan *)

Lemma absent_cell_normalizes_empty ws r c :
  _cells ws !! (r, c) = None →
  cell_value ws r c = VNone ∧ _norm (cell_value ws r c) = py "".
Proof. unfold cell_value. intros ->. done. Qed.

Lemma outside_populated_range ws r c :
  populated_within ws → ¬ in_populated_range ws r c →
  _cells ws !! (r, c) = None.
Proof.
  intros Hw Hout. destruct (_cells ws !! (r, c)) eqn:E; [|done].
  destruct Hout. by eapply Hw.
Qed.

Lemma scan_covers_max_row ws_a ws_b :
  Z.max (max_row ws_a) (max_row ws_b) <= scan_max_row ws_a ws_b.
Proof.
  unfold scan_max_row, or_1.
  destruct (Z.eqb_spec (max_row ws_a) 0), (Z.eqb_spec (max_row ws_b) 0); lia.
Qed.

Lemma scan_covers_max_col ws_a ws_b :
  Z.max (max_column ws_a) (max_column ws_b) <= scan_max_col ws_a ws_b.
Proof.
  unfold scan_max_col, or_1.
  destruct (Z.eqb_spec (max_column ws_a) 0), (Z.eqb_spec (max_column ws_b) 0); lia.
Qed.

(** Without truncation the result holds every discrepancy. *)
Lemma diff_sheet_untruncated wb_a wb_b name k ws_a ws_b :
  getitem wb_a name = Some ws_a → getitem wb_b name = Some ws_b →
  len (diff_sheet wb_a wb_b name k) < k →
  records (diff_sheet wb_a wb_b name k) = discrepancies ws_a ws_b.
Proof.
  intros Ha Hb. unfold len.
  rewrite (diff_sheet_records _ _ _ _ _ _ Ha Hb).
  destruct (Z.leb_spec 1 k) as [Hk|Hk]; [|lia].
  rewrite length_take. intros Hlen. apply take_ge. lia.
Qed.

(** C1: for a sheet present in both workbooks, whenever the result of
    [diff_sheet] has fewer records than the cap, a coordinate of the range
    [1..max(maxRowA, maxRowB)] x [1..max(maxColA, maxColB)] appears among
    the records if and only if the normalized values of the two cells
    there differ; a coordinate outside the populated range of a sheet
    reads as an absent cell, which normalizes to the empty string. *)
Theorem diff_sheet_complete wb_a wb_b name k :
  name ∈ sheetnames wb_a → name ∈ sheetnames wb_b →
  ∃ ws_a ws_b,
    getitem wb_a name = Some ws_a ∧ getitem wb_b name = Some ws_b
    ∧ (len (diff_sheet wb_a wb_b name k) < k →
       ∀ r c,
         1 <= r <= Z.max (max_row ws_a) (max_row ws_b) →
         1 <= c <= Z.max (max_column ws_a) (max_column ws_b) →
         (appears r c (diff_sheet wb_a wb_b name k)
          ↔ _norm (cell_value ws_a r c) ≠ _norm (cell_value ws_b r c)))
    ∧ (∀ ws r c,
         ws = ws_a ∨ ws = ws_b →
         populated_within ws → ¬ in_populated_range ws r c →
         cell_value ws r c = VNone ∧ _norm (cell_value ws r c) = py "").
Proof.
  intros [ws_a Ha]%getitem_is_Some [ws_b Hb]%getitem_is_Some.
  exists ws_a, ws_b. split_and!; [done | done | |].
  - intros Hlen r c Hr Hc. unfold appears.
    rewrite (diff_sheet_untruncated _ _ _ _ _ _ Ha Hb Hlen).
    pose proof (scan_covers_max_row ws_a ws_b).
    pose proof (scan_covers_max_col ws_a ws_b).
    split.
    + intros (ch & Hch & <- & <-).
      by apply elem_of_discrepancies in Hch as (_ & Hd & _).
    + intros Hd. exists (change_at ws_a ws_b (r, c)). split; [|done].
      apply elem_of_discrepancies. simpl. split_and!; try done; lia.
  - intros ws r c _ Hw Hout.
    by apply absent_cell_normalizes_empty, outside_populated_range.
Qed.

(** *** The cap *)

Lemma diff_sheet_prefix wb_a wb_b name k ws_a ws_b :
  getitem wb_a name = Some ws_a → getitem wb_b name = Some ws_b →
  records (diff_sheet wb_a wb_b name k) `prefix_of` discrepancies ws_a ws_b.
Proof.
  intros Ha Hb. rewrite (diff_sheet_records _ _ _ _ _ _ Ha Hb).
  destruct (1 <=? k); [apply prefix_take|].
  etransitivity; [apply prefix_take | apply discrepancies_first_row].
Qed.

(** C2, amended to caps of at least 1: for every cap the records are
    listed in row-major scan order, as a prefix of the discrepancies of
    the scan range; for a cap [k >= 1], when more than [k] coordinates
    differ the result is exactly the first [k] discrepancies, and
    otherwise it is all of them. *)
Theorem diff_sheet_cap wb_a wb_b name k ws_a ws_b :
  getitem wb_a name = Some ws_a → getitem wb_b name = Some ws_b →
  let got := records (diff_sheet wb_a wb_b name k) in
  let all := discrepancies ws_a ws_b in
  (StronglySorted row_major got ∧ got `prefix_of` all)
  ∧ (1 <= k →
     (k < Z.of_nat (length all) →
      Z.of_nat (length got) = k ∧ got = take (Z.to_nat k) all)
     ∧ (Z.of_nat (length all) <= k → got = all)
     ∧ cap_enforced wb_a wb_b name k).
Proof.
  intros Ha Hb got all.
  assert (got `prefix_of` all) as Hp by by apply diff_sheet_prefix.
  assert (StronglySorted row_major got) as Hs
    by (eapply StronglySorted_prefix; [done | apply discrepancies_sorted]).
  split; [done|]. intros Hk.
  assert (got = take (Z.to_nat k) all) as Hgot.
  { subst got all. rewrite (diff_sheet_records _ _ _ _ _ _ Ha Hb).
    by destruct (Z.leb_spec 1 k); [|lia]. }
  split_and!.
  - intros Hlt. split; [|done]. rewrite Hgot, length_take. lia.
  - intros Hle. rewrite Hgot. apply take_ge. lia.
  - intros ws_a' ws_b' Ha' Hb'.
    replace ws_a' with ws_a by congruence.
    replace ws_b' with ws_b by congruence.
    cbv zeta. fold got all. split; [done|].
    intros Hlt. split; [|done]. rewrite Hgot, length_take. lia.
Qed.

(** C10, amended: with a cap below 1 the scan stops after row 1.  If row 1
    holds a discrepancy the result is exactly one record, the first
    discrepancy in row-major order; if it holds none the result is empty,
    whatever the later rows hold.  In every case the result has at most
    [max max_changes 1] records. *)
Theorem diff_sheet_low_cap wb_a wb_b name k ws_a ws_b :
  getitem wb_a name = Some ws_a → getitem wb_b name = Some ws_b →
  let got := records (diff_sheet wb_a wb_b name k) in
  let all := discrepancies ws_a ws_b in
  let first_row := filter (λ ch, Row ch = 1) all in
  (k <= 0 →
   (first_row ≠ [] → got = take 1 all ∧ length got = 1%nat)
   ∧ (first_row = [] → got = []))
  ∧ len (diff_sheet wb_a wb_b name k) <= Z.max k 1.
Proof.
  intros Ha Hb got all first_row.
  assert (got = if 1 <=? k then take (Z.to_nat k) all else take 1 first_row)
    as Hgot by by apply diff_sheet_records.
  split.
  - intros Hk. destruct (Z.leb_spec 1 k); [lia|]. split.
    + intros Hne. destruct (discrepancies_first_row ws_a ws_b) as [rest Hrest].
      fold all first_row in Hrest. rewrite Hgot.
      destruct first_row as [|ch l]; [done|].
      rewrite Hrest. done.
    + intros ->. by rewrite Hgot.
  - unfold len. fold got. rewrite Hgot.
    destruct (Z.leb_spec 1 k); rewrite length_take; lia.
Qed.

(** *** Swapping the workbooks *)

Section Swap.
Context (ws_a ws_b : Worksheet) (k max_col : Z).

Lemma cap_reached_swap changes :
  cap_reached k (swap_sides <$> changes) = cap_reached k changes.
Proof. unfold cap_reached. by rewrite length_fmap. Qed.

Lemma scan_row_swap r cols changes :
  scan_row ws_b ws_a k r cols (swap_sides <$> changes)
  = swap_sides <$> scan_row ws_a ws_b k r cols changes.
Proof.
  revert changes. induction cols as [|c cols IH]; intros changes; [done|].
  cbn [scan_row].
  case_bool_decide as Hba; case_bool_decide as Hab;
    [|congruence|congruence|apply IH].
  set (ch := {| Cell := get_column_letter c ++ str_int r; Row := r; Col := c;
                  A := _norm (cell_value ws_a r c);
                  B := _norm (cell_value ws_b r c) |}).
  assert ((swap_sides <$> changes)
            ++ [ {| Cell := get_column_letter c ++ str_int r;
                    Row := r; Col := c;
                    A := _norm (cell_value ws_b r c);
                    B := _norm (cell_value ws_a r c) |} ]
          = swap_sides <$> (changes ++ [ch])) as E by by rewrite fmap_app.
  rewrite E, cap_reached_swap.
  destruct (cap_reached k (changes ++ [ch])); [done | apply IH].
Qed.

Lemma scan_rows_swap rows changes :
  scan_rows ws_b ws_a k max_col rows (swap_sides <$> changes)
  = swap_sides <$> scan_rows ws_a ws_b k max_col rows changes.
Proof.
  revert changes. induction rows as [|r rows IH]; intros changes; [done|].
  cbn [scan_rows]. rewrite scan_row_swap, cap_reached_swap.
  destruct (cap_reached k _); [done | apply IH].
Qed.

End Swap.

(** The swapped scan, record by record. *)
Lemma diff_sheet_swap_frame wb_a wb_b name k :
  records (diff_sheet wb_b wb_a name k)
  = swap_sides <$> records (diff_sheet wb_a wb_b name k)
  ∧ columns (diff_sheet wb_b wb_a name k)
    = columns (diff_sheet wb_a wb_b name k).
Proof.
  unfold diff_sheet.
  rewrite (bool_decide_ext (name ∉ sheetnames wb_b ∨ name ∉ sheetnames wb_a)
             (name ∉ sheetnames wb_a ∨ name ∉ sheetnames wb_b)) by tauto.
  case_bool_decide; [done|].
  destruct (getitem wb_a name) as [ws_a|], (getitem wb_b name) as [ws_b|];
    try done.
  simpl. split; [|done].
  rewrite (Z.max_comm (or_1 (max_row ws_b))).
  rewrite (Z.max_comm (or_1 (max_column ws_b))).
  apply (scan_rows_swap ws_a ws_b k _ _ []).
Qed.

(** C7: swapping the two workbooks gives a table over the same (Row, Col)
    coordinates in the same order, each record with its [A] and [B] fields
    exchanged; this holds for every sheet name and every cap. *)
Theorem diff_sheet_swap wb_a wb_b name k :
  columns (diff_sheet wb_b wb_a name k) = columns (diff_sheet wb_a wb_b name k)
  ∧ records (diff_sheet wb_b wb_a name k)
    = swap_sides <$> records (diff_sheet wb_a wb_b name k)
  ∧ (λ ch, (Row ch, Col ch)) <$> records (diff_sheet wb_b wb_a name k)
    = (λ ch, (Row ch, Col ch)) <$> records (diff_sheet wb_a wb_b name k).
Proof.
  destruct (diff_sheet_swap_frame wb_a wb_b name k) as [Hr Hc].
  split_and!; [done | done |].
  rewrite Hr, <- list_fmap_compose.
  apply list_fmap_ext. by intros i [].
Qed.

(** *** Missing data *)

Lemma diff_sheet_missing wb_a wb_b name k :
  ¬ (name ∈ sheetnames wb_a ∧ name ∈ sheetnames wb_b) →
  diff_sheet wb_a wb_b name k = empty_frame diff_columns.
Proof.
  intros H. unfold diff_sheet. rewrite bool_decide_eq_true_2; [done|].
  destruct (decide (name ∈ sheetnames wb_a)); [|by left].
  destruct (decide (name ∈ sheetnames wb_b)); [|by right].
  by destruct H.
Qed.

Lemma diff_sheet_no_discrepancy wb_a wb_b name k ws_a ws_b :
  getitem wb_a name = Some ws_a → getitem wb_b name = Some ws_b →
  discrepancies ws_a ws_b = [] →
  diff_sheet wb_a wb_b name k = empty_frame diff_columns.
Proof.
  intros Ha Hb Hd.
  pose proof (diff_sheet_records _ _ _ k _ _ Ha Hb) as Hr.
  rewrite Hd in Hr.
  rewrite (diff_sheet_unfold _ _ _ _ _ _ Ha Hb) in *. simpl in Hr.
  unfold empty_frame. f_equal. rewrite Hr.
  destruct (1 <=? k); [apply take_nil | done].
Qed.

Lemma no_cells_no_discrepancy ws_a ws_b :
  (∀ r c, _cells ws_a !! (r, c) = None ∧ _cells ws_b !! (r, c) = None) →
  discrepancies ws_a ws_b = [].
Proof.
  intros H. unfold discrepancies. rewrite filter_none; [done|].
  apply Forall_forall. intros [r c] _. unfold differs, cell_value. simpl.
  destruct (H r c) as [-> ->]. by intros [].
Qed.

Lemma common_sheets_elem wb_a wb_b s :
  s ∈ common_sheets wb_a wb_b ↔ s ∈ sheetnames wb_a ∧ s ∈ sheetnames wb_b.
Proof. unfold common_sheets. rewrite list_elem_of_filter. tauto. Qed.

Lemma common_sheets_none wb_a wb_b :
  (∀ s, ¬ (s ∈ sheetnames wb_a ∧ s ∈ sheetnames wb_b)) →
  common_sheets wb_a wb_b = [].
Proof.
  intros H. unfold common_sheets. apply filter_none.
  apply Forall_forall. intros s Ha Hb. by apply (H s).
Qed.

End DiffTheorems.

(** ** pandas operations *)

Module PandasFacts.
Import PyStr Openpyxl Pandas VariantDiff ListFacts.

(** *** [nunique] *)

Lemma remove_dups_length {A} `{EqDecision A} (l : list A) :
  (length (remove_dups l) <= length l)%nat.
Proof.
  induction l as [|x l IH]; simpl; [lia|].
  case_decide; simpl; lia.
Qed.

(** [nunique] counts the distinct values of the column. *)
Lemma nunique_size col :
  nunique col = Z.of_nat (size (list_to_set col : gset Z)).
Proof.
  unfold nunique. f_equal.
  rewrite <- (size_list_to_set (C:=gset Z) (remove_dups col))
    by apply NoDup_remove_dups.
  f_equal. apply set_eq. intros x.
  by rewrite !elem_of_list_to_set, elem_of_remove_dups.
Qed.

Lemma nunique_bounds col : 0 <= nunique col <= Z.of_nat (length col).
Proof. unfold nunique. pose proof (remove_dups_length col). lia. Qed.

(** *** [groupby(...).size()] *)

Lemma groupby_size_keys keys :
  (groupby_size keys).*1 = merge_sort Z.le (remove_dups keys).
Proof.
  unfold groupby_size.
  induction (merge_sort Z.le (remove_dups keys)) as [|k l IH]; [done|].
  rewrite !fmap_cons, IH. done.
Qed.

Lemma groupby_size_keys_perm keys :
  (groupby_size keys).*1 ≡ₚ remove_dups keys.
Proof. rewrite groupby_size_keys. apply merge_sort_Permutation. Qed.

Lemma groupby_size_NoDup keys : NoDup (groupby_size keys).*1.
Proof. rewrite groupby_size_keys_perm. apply NoDup_remove_dups. Qed.

(** The grouping step lists the groups by ascending key. *)
Lemma groupby_size_ascending keys :
  StronglySorted Z.lt (groupby_size keys).*1.
Proof.
  pose proof (groupby_size_NoDup keys) as Hnd.
  assert (StronglySorted Z.le (groupby_size keys).*1) as Hs.
  { rewrite groupby_size_keys. apply StronglySorted_merge_sort; apply _. }
  induction Hs as [|x l Hl IH Hx]; [constructor|].
  apply NoDup_cons in Hnd as [Hnx Hnd]. constructor; [by apply IH|].
  apply Forall_forall. intros y Hy.
  eapply Forall_forall in Hx; [|done].
  assert (x ≠ y) by (intros ->; done). lia.
Qed.

(** Every group is an index of the column with the number of records that
    carry it. *)
Lemma elem_of_groupby_size keys i c :
  (i, c) ∈ groupby_size keys ↔ i ∈ keys ∧ c = occurrences i keys.
Proof.
  unfold groupby_size, occurrences. rewrite list_elem_of_fmap. split.
  - intros (k & [= -> ->] & Hk).
    rewrite merge_sort_Permutation, elem_of_remove_dups in Hk. done.
  - intros [Hi ->]. exists i. split; [done|].
    by rewrite merge_sort_Permutation, elem_of_remove_dups.
Qed.

Lemma occurrences_pos i keys : i ∈ keys → 1 <= occurrences i keys.
Proof.
  intros Hi. unfold occurrences.
  assert (i ∈ filter (λ j, j = i) keys) as H
    by by apply list_elem_of_filter.
  destruct (filter (λ j, j = i) keys); [by apply elem_of_nil in H|].
  simpl. lia.
Qed.

Lemma total_count_cons x out :
  total_count (x :: out) = x.2 + total_count out.
Proof. done. Qed.

Lemma total_count_app out1 out2 :
  total_count (out1 ++ out2) = total_count out1 + total_count out2.
Proof.
  induction out1 as [|x out1 IH]; [done|].
  simpl. rewrite !total_count_cons, IH. lia.
Qed.

Lemma total_count_perm out1 out2 :
  out1 ≡ₚ out2 → total_count out1 = total_count out2.
Proof.
  induction 1 as [|x l1 l2 _ IH|x y l|l1 l2 l3 _ IH1 _ IH2];
    rewrite ?total_count_cons; try lia; done.
Qed.

Lemma total_count_nonneg out :
  Forall (λ x, 0 <= x.2) out → 0 <= total_count out.
Proof.
  induction 1 as [|x l Hx _ IH]; [done|]. rewrite total_count_cons. lia.
Qed.

(** The sizes of the groups whose keys are [ks] (all distinct) add up to
    the number of entries of the column that lie in [ks]. *)
Lemma total_count_groups ks keys :
  NoDup ks →
  total_count ((λ k, (k, occurrences k keys)) <$> ks)
  = Z.of_nat (length (filter (λ j, j ∈ ks) keys)).
Proof.
  induction 1 as [|k ks Hk Hnd IH].
  - simpl. rewrite filter_none; [done|].
    apply Forall_forall. intros j _. apply not_elem_of_nil.
  - rewrite fmap_cons, total_count_cons, IH. simpl. unfold occurrences.
    clear IH Hnd. induction keys as [|j keys IHk]; [done|].
    rewrite !filter_cons.
    destruct (decide (j = k)) as [E|E], (decide (j ∈ ks)) as [I|I],
      (decide (j ∈ k :: ks)) as [I'|I'];
      simpl length; try lia; exfalso; subst;
      first [ done | by apply I'; left | by apply I'; right
            | by apply elem_of_cons in I' as [?|?] ].
Qed.

(** The sizes of all groups add up to the number of records. *)
Lemma total_count_groupby keys :
  total_count (groupby_size keys) = Z.of_nat (length keys).
Proof.
  unfold groupby_size.
  change (λ k : Z, (k, Z.of_nat (length (filter (λ k' : Z, k' = k) keys))))
    with (λ k : Z, (k, occurrences k keys)).
  rewrite total_count_groups.
  - rewrite filter_all; [done|].
    apply Forall_forall. intros j Hj.
    by rewrite merge_sort_Permutation, elem_of_remove_dups.
  - rewrite merge_sort_Permutation. apply NoDup_remove_dups.
Qed.

Lemma groupby_size_counts_pos keys :
  Forall (λ x, 1 <= x.2) (groupby_size keys).
Proof.
  apply Forall_forall. intros [i c] [Hi ->]%elem_of_groupby_size.
  by apply occurrences_pos.
Qed.

(** *** [head] *)

Lemma head_prefix {A} n (l : list A) : head n l `prefix_of` l.
Proof. unfold head. destruct (0 <=? n); apply prefix_take. Qed.

Lemma head_length {A} n (l : list A) :
  0 <= n → Z.of_nat (length (head n l)) <= n.
Proof.
  intros Hn. unfold head. destruct (Z.leb_spec 0 n); [|lia].
  rewrite length_take. lia.
Qed.

(** *** A sort that meets the contract of [sort_values] *)

Lemma insert_desc_perm x l : insert_desc x l ≡ₚ x :: l.
Proof.
  induction l as [|y l IH]; simpl; [done|].
  destruct (x.2 <? y.2); [|done].
  rewrite IH. apply perm_swap.
Qed.

Lemma insertion_sort_desc_perm l : insertion_sort_desc l ≡ₚ l.
Proof.
  induction l as [|x l IH]; simpl; [done|].
  by rewrite insert_desc_perm, IH.
Qed.

Lemma insert_desc_sorted x l :
  Sorted (λ x y, x.2 >= y.2) l → Sorted (λ x y, x.2 >= y.2) (insert_desc x l).
Proof.
  induction 1 as [|y l Hl IH Hy]; simpl; [by repeat constructor|].
  destruct (Z.ltb_spec x.2 y.2).
  - constructor; [done|].
    destruct Hy as [|z l Hz]; simpl; [constructor; lia|].
    destruct (x.2 <? z.2); constructor; lia.
  - repeat constructor; [done | done | lia].
Qed.

Lemma insertion_sort_desc_sorted l :
  Sorted (λ x y, x.2 >= y.2) (insertion_sort_desc l).
Proof.
  induction l as [|x l IH]; simpl; [constructor|].
  by apply insert_desc_sorted.
Qed.

Lemma insert_desc_filter n x l :
  filter (λ y, y.2 = n) (insert_desc x l) = filter (λ y, y.2 = n) (x :: l).
Proof.
  induction l as [|y l IH]; simpl; [done|].
  destruct (Z.ltb_spec x.2 y.2); [|done].
  rewrite filter_cons, IH, !(filter_cons _ x), !(filter_cons _ y).
  repeat case_decide; try done; lia.
Qed.

(** Insertion sort keeps rows of equal size in their order. *)
Lemma insertion_sort_desc_stable : stable insertion_sort_desc.
Proof.
  intros l n. induction l as [|x l IH]; simpl; [done|].
  by rewrite insert_desc_filter, !filter_cons, IH.
Qed.

(** The contract of [sort_values] is met by insertion sort. *)
#[local] Instance insertion_sort_values : SortValues :=
  {| sort_values_desc := insertion_sort_desc;
     sort_values_perm := insertion_sort_desc_perm;
     sort_values_sorted := insertion_sort_desc_sorted |}.

(** *** Order among ties *)

(** In a stably sorted table the groups of one count keep the order of the
    grouping step, which is ascending in the index. *)
Lemma stable_ties_in_index_order (sort : list (Z * Z) → list (Z * Z))
    (g : list (Z * Z)) m :
  stable sort → StronglySorted Z.lt g.*1 →
  ties_in_index_order (take m (sort g)).
Proof.
  intros Hst Hg i j x y Hi Hj Hij Hxy.
  apply lookup_take_Some in Hi as [Hi _], Hj as [Hj _].
  set (l := sort g) in *.
  assert (∃ l1 l2 l3, l = l1 ++ x :: l2 ++ y :: l3) as (l1 & l2 & l3 & Hl).
  { exists (take i l), (take (j - S i) (drop (S i) l)),
      (drop (S (j - S i)) (drop (S i) l)).
    rewrite <- (take_drop_middle l i x Hi) at 1. f_equal. f_equal.
    apply eq_sym, take_drop_middle. rewrite lookup_drop.
    by replace (S i + (j - S i))%nat with j by lia. }
  assert (StronglySorted (λ a b : Z * Z, a.1 < b.1)
            (filter (λ z, z.2 = x.2) l)) as Hs.
  { subst l. rewrite Hst. apply StronglySorted_filter.
    clear -Hg. induction g as [|a g IH]; [constructor|].
    rewrite fmap_cons in Hg. apply StronglySorted_inv in Hg as [Hg Ha].
    constructor; [by apply IH|].
    apply Forall_forall. intros b Hb.
    eapply Forall_forall in Ha; [done|]. by apply list_elem_of_fmap_2. }
  rewrite Hl, filter_app, filter_cons_True, filter_app, filter_cons_True in Hs
    by done.
  apply StronglySorted_app_1_r, StronglySorted_inv in Hs as [_ Hs].
  eapply Forall_forall in Hs; [done|].
  apply elem_of_app. right. left.
Qed.

Lemma head_as_take {A} n (l : list A) : ∃ m, head n l = take m l.
Proof. unfold head. destruct (0 <=? n); by eexists. Qed.

End PandasFacts.

(** ** Sheet enumeration, summary and hotspots *)

Module SummaryTheorems.
Import PyStr PyFloat Openpyxl Pandas VariantDiff Examples.
Import ListFacts DiffFacts DiffTheorems PandasFacts.

(** *** [common_sheets] *)

(** A sublist of a duplicate-free list is determined by its elements. *)
Lemma sublist_unique {A} (l l1 l2 : list A) :
  NoDup l → l1 `sublist_of` l → l2 `sublist_of` l →
  (∀ x, x ∈ l1 ↔ x ∈ l2) → l1 = l2.
Proof.
  intros Hnd. revert l1 l2.
  induction Hnd as [|x l Hx Hnd IH]; intros l1 l2 H1 H2 Hiff.
  - apply sublist_nil_r in H1, H2. by subst.
  - apply sublist_cons_r in H1 as [H1|(l1' & -> & H1)],
      H2 as [H2|(l2' & -> & H2)].
    + by apply IH.
    + exfalso. apply Hx. apply (elem_of_sublist l1); [|done].
      apply Hiff. left.
    + exfalso. apply Hx. apply (elem_of_sublist l2); [|done].
      apply Hiff. left.
    + f_equal. apply IH; [done | done |]. intros y. split; intros Hy.
      * assert (y ∈ x :: l2') as [->|?]%elem_of_cons
          by (apply Hiff; by right); [|done].
        exfalso. apply Hx. by apply (elem_of_sublist l1').
      * assert (y ∈ x :: l1') as [->|?]%elem_of_cons
          by (apply Hiff; by right); [|done].
        exfalso. apply Hx. by apply (elem_of_sublist l2').
Qed.

(** C5: [common_sheets] returns the sheet names present in both
    workbooks, in the order of workbook A: a name is returned exactly when
    both workbooks have it, the result is a subsequence of A's names, and
    (titles being distinct) it is the only such subsequence; it is empty
    when no name is common; on the example with sheets Rota, Notes and
    Rota, Audit it is exactly [Rota]. *)
Theorem common_sheets_spec wb_a wb_b :
  let common := common_sheets wb_a wb_b in
  (∀ s, s ∈ common ↔ s ∈ sheetnames wb_a ∧ s ∈ sheetnames wb_b)
  ∧ common `sublist_of` sheetnames wb_a
  ∧ (NoDup (sheetnames wb_a) →
     NoDup common
     ∧ ∀ names, names `sublist_of` sheetnames wb_a →
                (∀ s, s ∈ names ↔ s ∈ sheetnames wb_a ∧ s ∈ sheetnames wb_b) →
                names = common)
  ∧ ((∀ s, ¬ (s ∈ sheetnames wb_a ∧ s ∈ sheetnames wb_b)) → common = [])
  ∧ common_sheets wb_alice wb_bob = [py "Rota"].
Proof.
  intros common.
  assert (common `sublist_of` sheetnames wb_a) as Hsub
    by apply sublist_filter.
  split_and!.
  - apply common_sheets_elem.
  - done.
  - intros Hnd. split; [by eapply sublist_NoDup|].
    intros names Hn Hiff. apply (sublist_unique (sheetnames wb_a)); try done.
    intros s. rewrite Hiff. symmetry. apply common_sheets_elem.
  - apply common_sheets_none.
  - by vm_compute.
Qed.

(** *** [diff_summary] *)

(** C6: [diff_summary] returns the number of records as [changed_cells],
    the number of distinct [Row] values as [changed_rows] and the number
    of distinct [Col] values as [changed_cols]; all three are 0 for an
    empty input, and neither [changed_rows] nor [changed_cols] exceeds
    [changed_cells]. *)
Theorem diff_summary_counts (diffs : DataFrame Change) :
  let s := diff_summary diffs in
  changed_cells s = Z.of_nat (length (records diffs))
  ∧ changed_rows s
    = Z.of_nat (size (list_to_set (Row <$> records diffs) : gset Z))
  ∧ changed_cols s
    = Z.of_nat (size (list_to_set (Col <$> records diffs) : gset Z))
  ∧ (records diffs = [] →
     s = {| changed_cells := 0; changed_rows := 0; changed_cols := 0 |})
  ∧ 0 <= changed_rows s <= changed_cells s
  ∧ 0 <= changed_cols s <= changed_cells s.
Proof.
  unfold diff_summary, empty, len.
  destruct (records diffs) as [|ch l] eqn:E; simpl.
  - split_and!; try done; lia.
  - pose proof (nunique_bounds (Row <$> ch :: l)) as Hr.
    pose proof (nunique_bounds (Col <$> ch :: l)) as Hc.
    rewrite length_fmap in Hr, Hc. simpl in Hr, Hc.
    split_and!; try done; try lia; apply nunique_size.
Qed.

(** *** Hotspots *)

Section Ranking.
Context `{SortValues}.


Lemma sort_values_nil : sort_values_desc [] = [].
Proof. apply Permutation_nil_r, sort_values_perm. Qed.

Lemma top_changed_rows_records diffs n :
  records (top_changed_rows diffs n) = ranked (Row <$> records diffs) n.
Proof.
  unfold top_changed_rows, empty, ranked.
  destruct (records diffs); [|done].
  simpl. change (groupby_size []) with (@nil (Z * Z)).
  rewrite sort_values_nil.
  destruct (head_as_take n (@nil (Z * Z))) as [m ->]. by rewrite take_nil.
Qed.

Lemma top_changed_cols_records diffs n :
  records (top_changed_cols diffs n) = ranked (Col <$> records diffs) n.
Proof.
  unfold top_changed_cols, empty, ranked.
  destruct (records diffs); [|done].
  simpl. change (groupby_size []) with (@nil (Z * Z)).
  rewrite sort_values_nil.
  destruct (head_as_take n (@nil (Z * Z))) as [m ->]. by rewrite take_nil.
Qed.

Lemma ranked_prefix keys n :
  ranked keys n `prefix_of` sort_values_desc (groupby_size keys).
Proof. apply head_prefix. Qed.

Lemma ranked_elem keys n x :
  x ∈ ranked keys n → x ∈ groupby_size keys.
Proof.
  intros Hx. destruct (ranked_prefix keys n) as [rest Hr].
  rewrite <- (sort_values_perm (groupby_size keys)), Hr.
  apply elem_of_app. by left.
Qed.

Lemma ranked_spec keys n :
  (0 <= n → Z.of_nat (length (ranked keys n)) <= n)
  ∧ sorted_by_count_desc (ranked keys n)
  ∧ (∀ i c, (i, c) ∈ ranked keys n → i ∈ keys ∧ c = occurrences i keys ∧ 1 <= c)
  ∧ NoDup (ranked keys n).*1
  ∧ (stable sort_values_desc → ties_in_index_order (ranked keys n))
  ∧ 0 <= total_count (ranked keys n) <= Z.of_nat (length keys).
Proof.
  destruct (ranked_prefix keys n) as [rest Hr].
  pose proof (sort_values_perm (groupby_size keys)) as Hp.
  assert (0 <= total_count (ranked keys n) <= Z.of_nat (length keys)) as Htot.
  { pose proof (groupby_size_counts_pos keys) as Hpos.
    rewrite <- Hp, Hr in Hpos. apply Forall_app in Hpos as [Hp1 Hp2].
    pose proof (total_count_groupby keys) as Ht.
    rewrite <- (total_count_perm _ _ Hp), Hr, total_count_app in Ht.
    assert (0 <= total_count (ranked keys n)).
    { apply total_count_nonneg. eapply Forall_impl; [exact Hp1|].
      intros x. simpl. lia. }
    assert (0 <= total_count rest).
    { apply total_count_nonneg. eapply Forall_impl; [exact Hp2|].
      intros x. simpl. lia. }
    lia. }
  split_and!; [| | | | | lia | lia].
  - apply head_length.
  - eapply Sorted_prefix; [apply ranked_prefix | apply sort_values_sorted].
  - intros i c Hic. apply ranked_elem in Hic.
    apply elem_of_groupby_size in Hic as [Hi ->].
    split_and!; [done | done | by apply occurrences_pos].
  - pose proof (groupby_size_NoDup keys) as Hnd.
    rewrite <- Hp, Hr, fmap_app in Hnd. by apply NoDup_app in Hnd as [? _].
  - intros Hst. unfold ranked.
    destruct (head_as_take n (sort_values_desc (groupby_size keys))) as [m ->].
    apply stable_ties_in_index_order; [done | apply groupby_size_ascending].
Qed.

End Ranking.


(** C8: missing data is answered with empty results, not with an error.
    A sheet name that is not in both workbooks gives the empty table with
    the columns Cell, Row, Col, A, B; so do two sheets without stored
    cells, and two sheets without discrepancies; no common sheet gives the
    empty list; an absent cell reads as the empty string; the summary of
    an empty table is all zeros and its hotspot tables are empty. *)
Theorem no_data_is_not_an_error :
  (∀ wb_a wb_b name k,
     ¬ (name ∈ sheetnames wb_a ∧ name ∈ sheetnames wb_b) →
     diff_sheet wb_a wb_b name k = empty_frame diff_columns
     ∧ columns (diff_sheet wb_a wb_b name k)
       = [py "Cell"; py "Row"; py "Col"; py "A"; py "B"]
     ∧ records (diff_sheet wb_a wb_b name k) = [])
  ∧ (∀ wb_a wb_b,
       (∀ s, ¬ (s ∈ sheetnames wb_a ∧ s ∈ sheetnames wb_b)) →
       common_sheets wb_a wb_b = [])
  ∧ (∀ ws r c, _cells ws !! (r, c) = None → _norm (cell_value ws r c) = py "")
  ∧ (∀ wb_a wb_b name k ws_a ws_b,
       getitem wb_a name = Some ws_a → getitem wb_b name = Some ws_b →
       (∀ r c, _cells ws_a !! (r, c) = None ∧ _cells ws_b !! (r, c) = None) →
       diff_sheet wb_a wb_b name k = empty_frame diff_columns)
  ∧ (∀ wb_a wb_b name k ws_a ws_b,
       getitem wb_a name = Some ws_a → getitem wb_b name = Some ws_b →
       discrepancies ws_a ws_b = [] →
       diff_sheet wb_a wb_b name k = empty_frame diff_columns)
  ∧ (∀ cols,
       diff_summary (empty_frame cols)
       = {| changed_cells := 0; changed_rows := 0; changed_cols := 0 |})
  ∧ (∀ (S : SortValues) cols n,
       top_changed_rows (empty_frame cols) n
       = empty_frame [py "Row"; py "ChangedCells"]
       ∧ top_changed_cols (empty_frame cols) n
         = empty_frame [py "Col"; py "ChangedCells"]).
Proof.
  split_and!.
  - intros wb_a wb_b name k H.
    by rewrite (diff_sheet_missing _ _ _ _ H).
  - apply common_sheets_none.
  - intros ws r c H. by apply absent_cell_normalizes_empty.
  - intros wb_a wb_b name k ws_a ws_b Ha Hb H.
    eapply diff_sheet_no_discrepancy; [done | done |].
    by apply no_cells_no_discrepancy.
  - intros wb_a wb_b name k ws_a ws_b Ha Hb H.
    by eapply diff_sheet_no_discrepancy.
  - done.
  - done.
Qed.

End SummaryTheorems.

(** ** Further properties of the helpers *)

Module FurtherProperties.
Import PyStr PyFloat Openpyxl Pandas VariantDiff.
Import Examples PyStrFacts PyFloatFacts ListFacts DiffFacts DiffTheorems.
Import PandasFacts.

(** A list in strict row-major order holds no coordinate twice. *)
Lemma row_major_NoDup (l : list Change) :
  StronglySorted row_major l → NoDup ((λ ch, (Row ch, Col ch)) <$> l).
Proof.
  induction 1 as [|x l Hs IH Hx]; [constructor|].
  rewrite fmap_cons. constructor; [|done].
  intros (y & [= Hr Hc] & Hy)%list_elem_of_fmap.
  rewrite Forall_forall in Hx. specialize (Hx y Hy).
  unfold row_major in Hx. lia.
Qed.

Lemma diff_sheet_absent wb_a wb_b name k :
  getitem wb_a name = None ∨ getitem wb_b name = None →
  diff_sheet wb_a wb_b name k = empty_frame diff_columns.
Proof.
  intros Hn. apply diff_sheet_missing. intros [Ha Hb].
  apply getitem_is_Some in Ha as [? Ha], Hb as [? Hb].
  destruct Hn; congruence.
Qed.

(** X2: every record [diff_sheet] returns is a genuine discrepancy: its
    [A] and [B] strings differ and are the normalized values of the two
    sheets at its coordinate, its [Cell] is the A1 label of that
    coordinate, and the coordinate lies in the scan range. *)
Theorem diff_sheet_sound wb_a wb_b name k :
  Forall (λ ch,
            A ch ≠ B ch
            ∧ Cell ch = get_column_letter (Col ch) ++ str_int (Row ch)
            ∧ ∃ ws_a ws_b,
                getitem wb_a name = Some ws_a ∧ getitem wb_b name = Some ws_b
                ∧ A ch = _norm (cell_value ws_a (Row ch) (Col ch))
                ∧ B ch = _norm (cell_value ws_b (Row ch) (Col ch))
                ∧ 1 <= Row ch <= scan_max_row ws_a ws_b
                ∧ 1 <= Col ch <= scan_max_col ws_a ws_b)
         (records (diff_sheet wb_a wb_b name k)).
Proof.
  destruct (getitem wb_a name) as [ws_a|] eqn:Ea;
    [destruct (getitem wb_b name) as [ws_b|] eqn:Eb|].
  - apply Forall_forall. intros ch Hch.
    pose proof (diff_sheet_prefix _ _ _ k _ _ Ea Eb) as [rest Hp].
    assert (ch ∈ discrepancies ws_a ws_b) as Hd
      by (rewrite Hp; apply elem_of_app; by left).
    apply elem_of_discrepancies in Hd as (E & Hdiff & Hr & Hc).
    pose proof (f_equal A E) as EA. pose proof (f_equal B E) as EB.
    pose proof (f_equal Cell E) as EC. cbn in EA, EB, EC.
    split_and!; [by rewrite EA, EB | done |].
    by exists ws_a, ws_b.
  - rewrite diff_sheet_absent by (by right). constructor.
  - rewrite diff_sheet_absent by (by left). constructor.
Qed.

(** X3: the records come in strictly increasing row-major order, so no
    coordinate is reported twice, for every sheet name and every cap. *)
Theorem diff_sheet_no_repeats wb_a wb_b name k :
  StronglySorted row_major (records (diff_sheet wb_a wb_b name k))
  ∧ NoDup ((λ ch, (Row ch, Col ch)) <$> records (diff_sheet wb_a wb_b name k)).
Proof.
  assert (StronglySorted row_major (records (diff_sheet wb_a wb_b name k)))
    as Hs.
  { destruct (getitem wb_a name) as [ws_a|] eqn:Ea;
      [destruct (getitem wb_b name) as [ws_b|] eqn:Eb|].
    - eapply StronglySorted_prefix;
        [apply (diff_sheet_prefix _ _ _ k _ _ Ea Eb)
        |apply discrepancies_sorted].
    - rewrite diff_sheet_absent by (by right). constructor.
    - rewrite diff_sheet_absent by (by left). constructor. }
  split; [done | by apply row_major_NoDup].
Qed.

(** X4: the summary and the hotspot rankings do not depend on which of
    the two workbooks comes first. *)
Theorem summary_swap `{SortValues} wb_a wb_b name k n :
  diff_summary (diff_sheet wb_b wb_a name k)
  = diff_summary (diff_sheet wb_a wb_b name k)
  ∧ top_changed_rows (diff_sheet wb_b wb_a name k) n
    = top_changed_rows (diff_sheet wb_a wb_b name k) n
  ∧ top_changed_cols (diff_sheet wb_b wb_a name k) n
    = top_changed_cols (diff_sheet wb_a wb_b name k) n.
Proof.
  destruct (diff_sheet_swap_frame wb_a wb_b name k) as [Hr _].
  set (ab := diff_sheet wb_a wb_b name k) in *.
  set (ba := diff_sheet wb_b wb_a name k) in *.
  assert (Row <$> records ba = Row <$> records ab) as HR
    by (rewrite Hr, <- list_fmap_compose; done).
  assert (Col <$> records ba = Col <$> records ab) as HC
    by (rewrite Hr, <- list_fmap_compose; done).
  assert (empty ba = empty ab) as HE
    by (unfold empty; rewrite Hr; by destruct (records ab)).
  assert (len ba = len ab) as HL
    by (unfold len; by rewrite Hr, length_fmap).
  unfold diff_summary, top_changed_rows, top_changed_cols.
  by rewrite HE, HL, HR, HC.
Qed.

Lemma prefix_take_r {A} (l1 l : list A) n :
  l1 `prefix_of` l → (length l1 <= n)%nat → l1 `prefix_of` take n l.
Proof.
  intros [r ->] Hn. exists (take (n - length l1) r).
  by rewrite take_app_ge by lia.
Qed.

(** X5: raising the cap only extends the result: the records under a cap
    are a prefix of the records under any larger cap. *)
Theorem diff_sheet_cap_monotone wb_a wb_b name k k' :
  k <= k' →
  records (diff_sheet wb_a wb_b name k)
    `prefix_of` records (diff_sheet wb_a wb_b name k').
Proof.
  intros Hk.
  destruct (getitem wb_a name) as [ws_a|] eqn:Ea;
    [destruct (getitem wb_b name) as [ws_b|] eqn:Eb|].
  - rewrite !(diff_sheet_records _ _ _ _ _ _ Ea Eb).
    destruct (Z.leb_spec 1 k), (Z.leb_spec 1 k'); try lia.
    + apply prefix_take_r; [apply prefix_take|].
      rewrite length_take. lia.
    + apply prefix_take_r.
      * etransitivity; [apply prefix_take | apply discrepancies_first_row].
      * rewrite length_take. lia.
    + done.
  - rewrite !diff_sheet_absent by (by right). done.
  - rewrite !diff_sheet_absent by (by left). done.
Qed.

(** The left/right pair under the caps 1 and 2. *)
Lemma diff_sheet_cap_monotone_witness :
  1 <= 2
  ∧ records (diff_sheet wb_left wb_right (py "Rota") 1)
      `prefix_of` records (diff_sheet wb_left wb_right (py "Rota") 2).
Proof.
  split; [lia|]. apply (diff_sheet_cap_monotone wb_left wb_right). lia.
Defined.

Lemma norm_int n : _norm (VObj (PyInt n)) = str_int n.
Proof. apply strip_spaceless, str_int_spaceless. Qed.

(** X6: an [int] cell normalizes to its decimal string, which reads back
    as the integer: cells holding different integers never normalize to
    the same string. *)
Theorem norm_int_faithful n :
  _norm (VObj (PyInt n)) = str_int n
  ∧ int_of_str (_norm (VObj (PyInt n))) = n.
Proof. split; [apply norm_int|]. rewrite norm_int. apply int_of_str_int. Qed.

(** X7: a float cell that passes the near-integer test normalizes to the
    same string as an [int] cell holding [round] of it, so the two cells
    are not reported as different. *)
Theorem norm_float_matches_int f :
  near_integer f = true →
  _norm (VFloat f) = _norm (VObj (PyInt (py_round f))).
Proof.
  intros Hf. rewrite norm_int. cbn [_norm]. by rewrite Hf.
Qed.

(** [2.00000000001] against the [int] 2. *)
Lemma norm_float_matches_int_witness :
  near_integer float_2_00000000001 = true
  ∧ _norm (VFloat float_2_00000000001)
    = _norm (VObj (PyInt (py_round float_2_00000000001))).
Proof.
  split; [by vm_compute|].
  apply (norm_float_matches_int float_2_00000000001). by vm_compute.
Defined.

End FurtherProperties.

(** ** The helpers where they raise *)

Module RaisingFacts.
Import PyStr PyFloat Pandas PyExn Raising.
Import VariantDiff (Change, Build_Change, Cell, Row, Col, A, B,
                    diff_columns, or_1, range, scan_max_col).
Import PyStrFacts ListFacts DiffFacts.

(** On a finite number [_norm] returns what [VariantDiff._norm] does. *)
Lemma norm_of_value v : _norm (of_value v) = Ok (VariantDiff._norm v).
Proof.
  destruct v as [|f|o]; [done | | done].
  cbn [of_value _norm round mbind result_bind VariantDiff._norm SF format_10g].
  fold (near_integer f). by destruct (near_integer f).
Qed.

Lemma norm_finite v : finite_value v → ∃ s, _norm v = Ok s.
Proof.
  destruct v as [|[f|s|]|o]; try done; intros _.
  - by eexists.
  - change (VFloat (Finite f)) with (of_value (Openpyxl.VFloat f)).
    rewrite norm_of_value. by eexists.
  - by eexists.
Qed.

Lemma norm_not_finite v :
  ¬ finite_value v →
  _norm v = Raise OverflowError ∨ _norm v = Raise ValueError.
Proof.
  destruct v as [|[f|s|]|o]; try (by intros []); intros _; [by left | by right].
Qed.

Lemma cell_value_of_worksheet ws r c :
  cell_value (Sheet (of_worksheet ws)) r c
  = Ok (of_value (Openpyxl.cell_value ws r c)).
Proof.
  unfold cell_value, Openpyxl.cell_value, of_worksheet. cbn [_cells].
  rewrite lookup_fmap. by destruct (Openpyxl._cells ws !! (r, c)).
Qed.

Section Bridge.
Context (ws_a ws_b : Openpyxl.Worksheet) (max_changes max_col : Z).

Lemma scan_row_prefix r cols changes :
  changes `prefix_of`
    VariantDiff.scan_row ws_a ws_b max_changes r cols changes.
Proof. rewrite scan_row_spec. by eexists. Qed.

Lemma scan_rows_prefix rows changes :
  changes `prefix_of`
    VariantDiff.scan_rows ws_a ws_b max_changes max_col rows changes.
Proof.
  revert changes. induction rows as [|r rows IH]; intros changes; [done|].
  cbn [VariantDiff.scan_rows].
  pose proof (scan_row_prefix r (range 1 (max_col + 1)) changes) as Hp.
  destruct (VariantDiff.cap_reached _ _); [done|].
  etransitivity; [exact Hp | apply IH].
Qed.

Lemma not_lettered_prefix (l1 l2 : list Change) :
  l1 `prefix_of` l2 → ¬ Forall lettered l1 → ¬ Forall lettered l2.
Proof.
  intros [l ->] Hn Hf. apply Hn. by apply Forall_app in Hf as [? _].
Qed.

(** The inner loop returns what [VariantDiff.scan_row] does, unless a
    record to append has a column without letters. *)
Lemma scan_row_of_worksheet r cols changes :
  Forall (λ c, 1 <= c) cols → Forall lettered changes →
  scan_row (Sheet (of_worksheet ws_a)) (Sheet (of_worksheet ws_b))
    max_changes r cols changes
  = if bool_decide
         (Forall lettered
            (VariantDiff.scan_row ws_a ws_b max_changes r cols changes))
    then Ok (VariantDiff.scan_row ws_a ws_b max_changes r cols changes)
    else Raise ValueError.
Proof.
  intros Hc. revert changes.
  induction Hc as [|c cols Hc _ IH]; intros changes Hl.
  { cbn [scan_row VariantDiff.scan_row]. by rewrite bool_decide_eq_true_2. }
  cbn [scan_row VariantDiff.scan_row].
  rewrite !cell_value_of_worksheet. cbn [mbind result_bind].
  rewrite !norm_of_value. cbn [mbind result_bind].
  case_bool_decide; [|by apply IH].
  unfold get_column_letter.
  change (cap_reached max_changes) with (VariantDiff.cap_reached max_changes).
  case_bool_decide as Hcol; cbn [mbind result_bind].
  - set (changes' := changes ++ _).
    assert (Forall lettered changes') as Hl'.
    { apply Forall_app. split; [done|]. constructor; [|constructor].
      unfold lettered. cbn [Col]. lia. }
    destruct (VariantDiff.cap_reached _ changes');
      [by rewrite bool_decide_eq_true_2 | by apply IH].
  - set (changes' := changes ++ _).
    assert (¬ Forall lettered changes') as Hl'.
    { intros [_ Hx]%Forall_app. apply Forall_cons in Hx as [Hx _].
      unfold lettered in Hx. cbn [Col] in Hx. lia. }
    rewrite bool_decide_eq_false_2; [done|].
    destruct (VariantDiff.cap_reached _ changes'); [done|].
    by apply (not_lettered_prefix changes'); [apply scan_row_prefix|].
Qed.

Lemma scan_rows_of_worksheet rows changes :
  Forall lettered changes →
  scan_rows (Sheet (of_worksheet ws_a)) (Sheet (of_worksheet ws_b))
    max_changes max_col rows changes
  = if bool_decide
         (Forall lettered
            (VariantDiff.scan_rows ws_a ws_b max_changes max_col rows changes))
    then Ok (VariantDiff.scan_rows ws_a ws_b max_changes max_col rows changes)
    else Raise ValueError.
Proof.
  revert changes.
  induction rows as [|r rows IH]; intros changes Hl.
  { cbn [scan_rows VariantDiff.scan_rows]. by rewrite bool_decide_eq_true_2. }
  cbn [scan_rows VariantDiff.scan_rows].
  rewrite scan_row_of_worksheet; [|
    apply Forall_forall; intros c Hin; unfold range in Hin;
    apply elem_of_seqZ in Hin; lia | done].
  change (cap_reached max_changes) with (VariantDiff.cap_reached max_changes).
  set (T1 := VariantDiff.scan_row ws_a ws_b max_changes r
               (range 1 (max_col + 1)) changes).
  case_bool_decide as H1; cbn [mbind result_bind].
  - destruct (VariantDiff.cap_reached _ T1);
      [by rewrite bool_decide_eq_true_2 | by apply IH].
  - rewrite bool_decide_eq_false_2; [done|].
    destruct (VariantDiff.cap_reached _ T1); [done|].
    by apply (not_lettered_prefix T1); [apply scan_rows_prefix|].
Qed.
End Bridge.

Lemma sheetnames_of_workbook wb :
  sheetnames (of_workbook wb) = Openpyxl.sheetnames wb.
Proof.
  unfold sheetnames, Openpyxl.sheetnames, of_workbook. cbn [_sheets].
  rewrite <- list_fmap_compose. by apply list_fmap_ext.
Qed.

Lemma find_sheet_of_worksheets key l :
  find_sheet key (Sheet ∘ of_worksheet <$> l)
  = Sheet ∘ of_worksheet <$> Openpyxl.find_sheet key l.
Proof.
  induction l as [|ws l IH]; [done|].
  cbn [fmap list_fmap find_sheet Openpyxl.find_sheet compose sheet_title
       of_worksheet title].
  by destruct (decide (Openpyxl.title ws = key)).
Qed.

Lemma getitem_of_workbook wb key :
  getitem (of_workbook wb) key
  = Sheet ∘ of_worksheet <$> Openpyxl.getitem wb key.
Proof.
  unfold getitem, Openpyxl.getitem, of_workbook. cbn [_sheets].
  rewrite filter_all, filter_none, app_nil_r.
  - apply find_sheet_of_worksheets.
  - apply Forall_forall. by intros s (ws & -> & _)%list_elem_of_fmap.
  - apply Forall_forall. by intros s (ws & -> & _)%list_elem_of_fmap.
Qed.

(** X8: on workbooks of worksheets with finite numbers [diff_sheet] returns
    the table the theorems about [VariantDiff.diff_sheet] describe,
    unless one of the records of that table lies in a column beyond
    18278 (ZZZ), for which [get_column_letter] raises [ValueError]; for
    every sheet name and every cap. *)
Theorem diff_sheet_returns wb_a wb_b name k :
  diff_sheet (of_workbook wb_a) (of_workbook wb_b) name k
  = if bool_decide
         (Forall lettered (records (VariantDiff.diff_sheet wb_a wb_b name k)))
    then Ok (VariantDiff.diff_sheet wb_a wb_b name k)
    else Raise ValueError.
Proof.
  unfold diff_sheet, VariantDiff.diff_sheet.
  rewrite !sheetnames_of_workbook, !getitem_of_workbook.
  case_bool_decide; [by rewrite bool_decide_eq_true_2 by constructor|].
  destruct (Openpyxl.getitem wb_a name) as [ws_a|] eqn:Ea;
    [|by rewrite bool_decide_eq_true_2 by constructor].
  destruct (Openpyxl.getitem wb_b name) as [ws_b|] eqn:Eb;
    [|by rewrite bool_decide_eq_true_2 by constructor].
  cbn [fmap option_fmap option_map compose get_max_row get_max_column
       mbind result_bind of_worksheet max_row max_column records].
  fold (of_worksheet ws_a) (of_worksheet ws_b).
  rewrite scan_rows_of_worksheet by constructor.
  by case_bool_decide.
Qed.

Lemma find_sheet_elem key l s :
  find_sheet key l = Some s → s ∈ l ∧ sheet_title s = key.
Proof.
  induction l as [|s' l IH]; [done|]. cbn [find_sheet].
  destruct (decide (sheet_title s' = key)).
  - intros [= ->]. split; [by left | done].
  - intros [? ?]%IH. split; [by right | done].
Qed.

Lemma getitem_sheetnames wb key s :
  getitem wb key = Some s → key ∈ sheetnames wb.
Proof.
  intros [Hin <-]%find_sheet_elem.
  apply list_elem_of_fmap. exists s. split; [done|].
  apply elem_of_app in Hin as [Hin|Hin];
    by apply list_elem_of_filter in Hin as [_ ?].
Qed.

(** *** A workbook against itself *)

Section Self.
Context (ws : Worksheet) (max_changes max_col : Z).

Lemma scan_row_self_Ok r cols :
  Forall (finite_at ws r) cols →
  scan_row (Sheet ws) (Sheet ws) max_changes r cols [] = Ok [].
Proof.
  induction 1 as [|c cols Hc _ IH]; [done|].
  cbn [scan_row cell_value mbind result_bind].
  destruct (norm_finite _ Hc) as [s ->]. cbn [mbind result_bind].
  by rewrite bool_decide_eq_false_2 by (by intros []).
Qed.

Lemma scan_row_self_Raise r cols :
  Exists (λ c, ¬ finite_at ws r c) cols →
  ∃ e, scan_row (Sheet ws) (Sheet ws) max_changes r cols [] = Raise e
       ∧ (e = OverflowError ∨ e = ValueError).
Proof.
  induction cols as [|c cols IH]; intros Hex; [by apply Exists_nil in Hex|].
  cbn [scan_row cell_value mbind result_bind].
  destruct (decide (finite_at ws r c)) as [Hc|Hc].
  - destruct (norm_finite _ Hc) as [s ->]. cbn [mbind result_bind].
    rewrite bool_decide_eq_false_2 by (by intros []).
    apply IH. by apply Exists_cons in Hex as [?|?].
  - destruct (norm_not_finite _ Hc) as [-> | ->]; eexists; split; try done;
      [by left | by right].
Qed.

Lemma scan_rows_self_Ok rows :
  (∀ r c, r ∈ rows → 1 <= c <= max_col → finite_at ws r c) →
  scan_rows (Sheet ws) (Sheet ws) max_changes max_col rows [] = Ok [].
Proof.
  induction rows as [|r rows IH]; intros Hf; [done|].
  cbn [scan_rows]. rewrite scan_row_self_Ok.
  - cbn [mbind result_bind]. destruct (cap_reached _ _); [done|].
    apply IH. intros r' c Hr'. apply Hf. by right.
  - apply Forall_forall. intros c Hc. apply Hf; [by left|].
    unfold range in Hc. apply elem_of_seqZ in Hc. lia.
Qed.

Lemma scan_rows_self_Raise rows r c :
  1 <= max_changes → r ∈ rows → 1 <= c <= max_col → ¬ finite_at ws r c →
  ∃ e, scan_rows (Sheet ws) (Sheet ws) max_changes max_col rows [] = Raise e
       ∧ (e = OverflowError ∨ e = ValueError).
Proof.
  intros Hk Hr Hc Hn.
  induction rows as [|r' rows IH]; [by apply elem_of_nil in Hr|].
  cbn [scan_rows].
  destruct (decide (Forall (finite_at ws r') (range 1 (max_col + 1)))) as [Hf|Hf].
  - rewrite scan_row_self_Ok by done. cbn [mbind result_bind].
    assert (cap_reached max_changes [] = false) as ->
      by (apply Z.leb_gt; simpl; lia).
    apply IH. apply elem_of_cons in Hr as [->|Hr]; [|done].
    rewrite Forall_forall in Hf. destruct Hn. apply Hf.
    unfold range. apply elem_of_seqZ. lia.
  - apply not_Forall_Exists in Hf; [|intros ?; apply _].
    destruct (scan_row_self_Raise r' _ Hf) as (e & -> & He).
    by exists e.
Qed.
End Self.

(** X1: a workbook compared with itself.  For a name that is no sheet of
    the workbook the result is the empty table; for the name of a chart
    sheet the call raises [AttributeError]; for the name of a worksheet
    the result is the empty table with the columns Cell, Row, Col, A, B
    when no cell of the scanned range holds an infinity or a NaN, and for
    a cap of at least 1 the call raises [OverflowError] or [ValueError]
    when some cell of that range does. *)
Theorem diff_sheet_self wb name k :
  match getitem wb name with
  | None => diff_sheet wb wb name k = Ok (empty_frame diff_columns)
  | Some (Chartsheet _) => diff_sheet wb wb name k = Raise AttributeError
  | Some (Sheet ws) =>
      ((∀ r c, 1 <= r <= or_1 (max_row ws) → 1 <= c <= or_1 (max_column ws) →
               finite_at ws r c) →
       diff_sheet wb wb name k = Ok (empty_frame diff_columns))
      ∧ (∀ r c, 1 <= k →
                1 <= r <= or_1 (max_row ws) → 1 <= c <= or_1 (max_column ws) →
                ¬ finite_at ws r c →
                ∃ e, diff_sheet wb wb name k = Raise e
                     ∧ (e = OverflowError ∨ e = ValueError))
  end.
Proof.
  unfold diff_sheet.
  destruct (getitem wb name) as [[ws|t]|] eqn:E.
  - pose proof (getitem_sheetnames _ _ _ E) as Hin.
    rewrite bool_decide_eq_false_2 by (by intros [?|?]).
    cbn [get_max_row get_max_column mbind result_bind].
    rewrite !Z.max_id. split.
    + intros Hf. rewrite scan_rows_self_Ok; [done|].
      intros r c Hr Hc. apply Hf; [|done].
      unfold range in Hr. apply elem_of_seqZ in Hr. lia.
    + intros r c Hk Hr Hc Hn.
      destruct (scan_rows_self_Raise ws k (or_1 (max_column ws))
                  (range 1 (or_1 (max_row ws) + 1)) r c Hk)
        as (e & -> & He); [|done|done|by exists e].
      unfold range. apply elem_of_seqZ. lia.
  - pose proof (getitem_sheetnames _ _ _ E) as Hin.
    by rewrite bool_decide_eq_false_2 by (by intros [?|?]).
  - by case_bool_decide.
Qed.

(** *** The exceptions of [diff_sheet] *)

Lemma norm_errors v e :
  _norm v = Raise e → e = OverflowError ∨ e = ValueError.
Proof.
  destruct (decide (finite_value v)) as [Hf|Hf].
  - destruct (norm_finite v Hf) as [s ->]. by intros [=].
  - destruct (norm_not_finite v Hf) as [-> | ->]; intros [= <-];
      [by left | by right].
Qed.

Lemma scan_row_errors (ws_a ws_b : Worksheet) k r cols changes e :
  scan_row (Sheet ws_a) (Sheet ws_b) k r cols changes = Raise e →
  e = OverflowError ∨ e = ValueError.
Proof.
  revert changes. induction cols as [|c cols IH]; intros changes; [done|].
  cbn [scan_row cell_value mbind result_bind].
  destruct (_norm (default VNone (_cells ws_a !! (r, c)))) as [va|ea] eqn:Ea;
    cbn [mbind result_bind]; [|intros [= <-]; by apply (norm_errors _ _ Ea)].
  destruct (_norm (default VNone (_cells ws_b !! (r, c)))) as [vb|eb] eqn:Eb;
    cbn [mbind result_bind]; [|intros [= <-]; by apply (norm_errors _ _ Eb)].
  case_bool_decide; [|apply IH].
  unfold get_column_letter. case_bool_decide; cbn [mbind result_bind].
  - destruct (cap_reached _ _); [done | apply IH].
  - intros [= <-]. by right.
Qed.

Lemma scan_rows_errors (ws_a ws_b : Worksheet) k max_col rows changes e :
  scan_rows (Sheet ws_a) (Sheet ws_b) k max_col rows changes = Raise e →
  e = OverflowError ∨ e = ValueError.
Proof.
  revert changes. induction rows as [|r rows IH]; intros changes; [done|].
  cbn [scan_rows].
  destruct (scan_row _ _ _ _ _ _) as [changes'|e'] eqn:E;
    cbn [mbind result_bind].
  - destruct (cap_reached _ _); [done | apply IH].
  - intros [= <-]. by apply (scan_row_errors _ _ _ _ _ _ _ E).
Qed.

Lemma find_sheet_is_Some key l s :
  s ∈ l → sheet_title s = key → is_Some (find_sheet key l).
Proof.
  induction l as [|s' l IH]; [by intros ?%elem_of_nil|].
  intros Hin Ht. cbn [find_sheet].
  destruct (decide (sheet_title s' = key)); [by eexists|].
  apply elem_of_cons in Hin as [->|Hin]; [done | by apply IH].
Qed.

Lemma sheetnames_getitem wb key :
  key ∈ sheetnames wb → is_Some (getitem wb key).
Proof.
  intros (s & -> & Hin)%list_elem_of_fmap.
  apply (find_sheet_is_Some _ _ s); [|done].
  apply elem_of_app. destruct (is_chartsheet s) eqn:E.
  - right. by apply list_elem_of_filter.
  - left. by apply list_elem_of_filter.
Qed.

(** X10: [diff_sheet] raises [AttributeError] exactly when the name is a
    sheet of both workbooks and a chart sheet in one of them; nothing the
    cells hold raises it.  The only other exceptions it raises are
    [OverflowError] and [ValueError]. *)
Theorem diff_sheet_chartsheet wb_a wb_b name k :
  (diff_sheet wb_a wb_b name k = Raise AttributeError
   ↔ ∃ sa sb, getitem wb_a name = Some sa ∧ getitem wb_b name = Some sb
              ∧ (is_chartsheet sa = true ∨ is_chartsheet sb = true))
  ∧ ∀ e, diff_sheet wb_a wb_b name k = Raise e →
         e = AttributeError ∨ e = OverflowError ∨ e = ValueError.
Proof.
  unfold diff_sheet. case_bool_decide as Hg.
  { split; [|done]. split; [done|].
    intros (sa & sb & Ea & Eb & _).
    apply getitem_sheetnames in Ea, Eb. by destruct Hg. }
  destruct (sheetnames_getitem wb_a name) as [sa Ea].
  { destruct (decide (name ∈ sheetnames wb_a)); [done|]. destruct Hg. by left. }
  destruct (sheetnames_getitem wb_b name) as [sb Eb].
  { destruct (decide (name ∈ sheetnames wb_b)); [done|]. destruct Hg. by right. }
  rewrite Ea, Eb.
  destruct sa as [ws_a|ta], sb as [ws_b|tb];
    cbn [get_max_row get_max_column mbind result_bind].
  - destruct (scan_rows _ _ _ _ _ _) as [changes|e'] eqn:E;
      cbn [mbind result_bind].
    + split; [|done]. split; [done|].
      intros (sa & sb & [= <-] & [= <-] & [?|?]); done.
    + apply scan_rows_errors in E. split.
      * split; [intros [= ->]; by destruct E|].
        intros (sa & sb & [= <-] & [= <-] & [?|?]); done.
      * intros e [= <-]. by right.
  - split; [|intros e [= <-]; by left].
    split; [|done]. intros _. exists (Sheet ws_a), (Chartsheet tb). by auto.
  - split; [|intros e [= <-]; by left].
    split; [|done]. intros _. exists (Chartsheet ta), (Sheet ws_b). by auto.
  - split; [|intros e [= <-]; by left].
    split; [|done]. intros _. exists (Chartsheet ta), (Chartsheet tb). by auto.
Qed.

End RaisingFacts.

(** ** The [.10g] text read back *)

Module DecimalFacts.
Import PyStr PyFloat Decimal PyStrFacts PyFloatFacts.

Lemma is_digitb_true c : is_digit c → is_digitb c = true.
Proof.
  unfold is_digit, is_digitb. intros [? ?].
  apply andb_true_iff. split; apply N.leb_le; lia.
Qed.

Lemma span_digits_app d rest :
  all_digits d → digits_end rest → span_digits (d ++ rest) = (d, rest).
Proof.
  induction 1 as [|c d Hc _ IH]; intros Hr.
  - destruct rest as [|c rest]; [done|]. simpl in *. by rewrite Hr.
  - cbn [app span_digits]. by rewrite (is_digitb_true c Hc), (IH Hr).
Qed.

Lemma span_digits_all d : all_digits d → span_digits d = (d, []).
Proof.
  intros Hd. rewrite <- (app_nil_r d) at 1. by apply span_digits_app.
Qed.

Lemma all_digits_zeros n : all_digits (zeros n).
Proof.
  unfold zeros. induction (Z.to_nat n) as [|k IH]; [constructor|].
  constructor; [unfold is_digit; lia | done].
Qed.

Lemma dec_value_zeros_front n s : dec_value (zeros n ++ s) = dec_value s.
Proof.
  unfold dec_value, zeros. by induction (Z.to_nat n) as [|k IH].
Qed.

Lemma length_zeros n : 0 <= n → Z.of_nat (length (zeros n)) = n.
Proof. intros. unfold zeros. rewrite length_replicate. lia. Qed.

Lemma drop_leading_zeros_length s :
  (length (drop_leading_zeros s) <= length s)%nat.
Proof.
  destruct (drop_leading_zeros_suffix s) as [z Hz].
  rewrite Hz at 2. rewrite length_app. lia.
Qed.

Lemma drop_leading_zeros_front n s :
  drop_leading_zeros (zeros n ++ s) = drop_leading_zeros s.
Proof. unfold zeros. by induction (Z.to_nat n) as [|k IH]. Qed.

Lemma digits_fuel_nonempty fuel n acc :
  acc ≠ [] → digits_fuel fuel n acc ≠ [].
Proof.
  revert n acc. induction fuel as [|fuel IH]; intros n acc Ha; [done|].
  cbn [digits_fuel]. destruct (n <? 10); [done|]. by apply IH.
Qed.

Lemma str_nat_nonempty n : str_nat n ≠ [].
Proof.
  unfold str_nat. cbn [digits_fuel].
  destruct (n <? 10); [done|]. by apply digits_fuel_nonempty.
Qed.

Lemma drop_leading_zeros_head s : head (drop_leading_zeros s) ≠ Some 48%N.
Proof.
  induction s as [|c s IH]; [done|]. cbn [drop_leading_zeros].
  destruct (N.eqb_spec c 48); [done|]. cbn. congruence.
Qed.

Lemma strip_trailing_zeros_last s : last (strip_trailing_zeros s) ≠ Some 48%N.
Proof.
  unfold strip_trailing_zeros.
  pose proof (drop_leading_zeros_head (rev s)) as Hh.
  destruct (drop_leading_zeros (rev s)) as [|c t]; [done|].
  cbn [rev]. rewrite last_snoc. by cbn in Hh.
Qed.

Lemma last_app_r {A} (l1 l2 : list A) : l2 ≠ [] → last (l1 ++ l2) = last l2.
Proof.
  intros Hne. rewrite last_app.
  destruct (last l2) eqn:E; [done|]. by apply last_None in E.
Qed.

(** The exponent part reads back as the exponent. *)
Lemma read_exponent_format_exp x : read_exponent (format_exp x) = Some (Some x).
Proof.
  unfold format_exp.
  set (ds := (if Z.abs x <? 10 then py "0" else []) ++ str_nat (Z.abs x)).
  assert (all_digits ds) as Hd.
  { subst ds. apply Forall_app. split; [|apply str_nat_all_digits].
    destruct (Z.abs x <? 10); [|constructor]. change (py "0") with [48%N].
    apply Forall_cons. split; [unfold is_digit; lia | constructor]. }
  assert (ds ≠ []) as Hne.
  { subst ds. pose proof (str_nat_nonempty (Z.abs x)).
    destruct (Z.abs x <? 10), (str_nat (Z.abs x)); done. }
  assert (dec_value ds = Z.abs x) as Hv.
  { subst ds. destruct (str_nat_spec (Z.abs x)) as [Hv _]; [lia|].
    by destruct (Z.abs x <? 10). }
  destruct (Z.ltb_spec x 0).
  - change (py "e" ++ py "-" ++ ds) with (101%N :: 45%N :: ds).
    cbn [read_exponent]. rewrite span_digits_all by done.
    rewrite bool_decide_eq_true_2 by done. cbn. rewrite Hv. do 2 f_equal. lia.
  - change (py "e" ++ py "+" ++ ds) with (101%N :: 43%N :: ds).
    cbn [read_exponent]. rewrite span_digits_all by done.
    rewrite bool_decide_eq_true_2 by done. cbn. rewrite Hv. do 2 f_equal. lia.
Qed.

Lemma format_exp_digits_end x : digits_end (format_exp x).
Proof. done. Qed.

Lemma all_digits_singleton c : is_digit c → all_digits [c].
Proof. intros Hc. constructor; [exact Hc | constructor]. Qed.

Lemma read_fraction_point s : read_fraction (46%N :: s) = span_digits s.
Proof. done. Qed.

(** The sign is read off the front. *)
Lemma read_signed (neg : bool) c body :
  is_digit c →
  read ((if neg then py "-" else []) ++ c :: body)
  = read_unsigned neg (c :: body).
Proof.
  intros Hc. destruct neg; [done|]. cbn [app read].
  destruct (N.eqb_spec c 45) as [->|]; [|done].
  unfold is_digit in Hc. lia.
Qed.

(** The layout of the ['g'] presentation type, read back: the sign, the
    digits with the place of the point, and whether an exponent is
    written. *)
Lemma read_format_g neg D decpt :
  all_digits D → D ≠ [] →
  ∃ d, read (format_g 10 neg D decpt) = Some d
       ∧ negative d = neg
       ∧ (is_Some (exponent d) ↔ decpt <= -4 ∨ 10 < decpt)
       ∧ ((int_digits d ++ frac_digits d = D
           ∧ scale d = decpt - Z.of_nat (length D))
          ∨ (int_digits d ++ frac_digits d = 48%N :: zeros (- decpt) ++ D
             ∧ scale d = decpt - Z.of_nat (length D))
          ∨ (int_digits d ++ frac_digits d
             = D ++ zeros (decpt - Z.of_nat (length D))
             ∧ scale d = 0
             ∧ Z.of_nat (length D) <= decpt <= 10))
       ∧ (frac_digits d = [] ∨ last (frac_digits d) = last D).
Proof.
  intros Hd Hne. destruct D as [|c D']; [done|]. clear Hne.
  apply Forall_cons in Hd as [Hc Hd'].
  assert (all_digits (c :: D')) as Hd by (by constructor).
  unfold format_g.
  destruct ((decpt <=? -4) || (10 <? decpt)) eqn:Eexp.
  { (* the exponent form *)
    assert (decpt <= -4 ∨ 10 < decpt) as Hexp.
    { apply orb_true_iff in Eexp as [?%Z.leb_le|?%Z.ltb_lt]; lia. }
    change (take 1 (c :: D')) with [c]. change (drop 1 (c :: D')) with D'.
    cbn [app]. rewrite read_signed by done.
    destruct (Z.ltb_spec 1 (Z.of_nat (length (c :: D')))) as [Hl|Hl].
    - change (py "." ++ D') with (46%N :: D').
      unfold read_unsigned.
      change (c :: (46%N :: D') ++ format_exp (decpt - 1))
        with ([c] ++ 46%N :: D' ++ format_exp (decpt - 1)).
      rewrite span_digits_app; [|by apply all_digits_singleton|done].
      cbn [fst snd]. rewrite read_fraction_point.
      rewrite span_digits_app by (done || apply format_exp_digits_end).
      cbn [fst snd]. rewrite read_exponent_format_exp.
      eexists. split; [done|]. cbn [negative exponent int_digits frac_digits].
      split_and!; [done | by split; [|eexists] | |].
      + left. split; [done|]. unfold scale.
        cbn [exponent frac_digits from_option id]. cbn [length]. lia.
      + right. destruct D' as [|c' D'']; [cbn [length] in Hl; lia|].
        by rewrite last_cons_cons.
    - assert (D' = []) as -> by (destruct D'; [done | cbn [length] in Hl; lia]).
      cbn [app]. unfold read_unsigned.
      change (c :: format_exp (decpt - 1))
        with ([c] ++ format_exp (decpt - 1)).
      rewrite span_digits_app;
        [|by apply all_digits_singleton | apply format_exp_digits_end].
      cbn [fst snd].
      assert (read_fraction (format_exp (decpt - 1))
              = ([], format_exp (decpt - 1))) as -> by done.
      cbn [fst snd]. rewrite read_exponent_format_exp.
      eexists. split; [done|]. cbn [negative exponent int_digits frac_digits].
      split_and!; [done | by split; [|eexists] | | by left].
      left. split; [done|]. unfold scale.
      cbn [exponent frac_digits from_option id]. cbn [length]. lia. }
  assert (-4 < decpt <= 10) as Hrange.
  { apply orb_false_iff in Eexp as [?%Z.leb_gt ?%Z.ltb_ge]. lia. }
  assert (∀ e : option Z, e = None → (is_Some e ↔ decpt <= -4 ∨ 10 < decpt))
    as Hnone.
  { intros e ->. split; [by intros [? ?] | lia]. }
  destruct (Z.leb_spec decpt 0) as [H0|H0].
  { (* 0.000ddd *)
    change (py "0." ++ zeros (- decpt) ++ c :: D')
      with (48%N :: [46%N] ++ zeros (- decpt) ++ c :: D').
    rewrite read_signed by (unfold is_digit; lia).
    unfold read_unsigned.
    change (48%N :: [46%N] ++ zeros (- decpt) ++ c :: D')
      with ([48%N] ++ 46%N :: (zeros (- decpt) ++ c :: D')).
    rewrite span_digits_app;
      [|apply all_digits_singleton; unfold is_digit; lia | done].
    cbn [fst snd]. rewrite read_fraction_point.
    rewrite span_digits_all
      by (apply Forall_app; split; [apply all_digits_zeros | done]).
    cbn [fst snd read_exponent].
    eexists. split; [done|]. cbn [negative exponent int_digits frac_digits].
    split_and!; [done | by apply Hnone | | right; by apply last_app_r].
    right; left. split; [done|]. unfold scale.
    cbn [exponent frac_digits from_option id]. rewrite length_app, Nat2Z.inj_add.
    rewrite length_zeros by lia. lia. }
  destruct (Z.leb_spec (Z.of_nat (length (c :: D'))) decpt) as [Hl|Hl].
  { (* ddd000 *)
    cbn [app]. rewrite read_signed by done.
    unfold read_unsigned.
    change (c :: D' ++ zeros (decpt - Z.of_nat (length (c :: D'))))
      with ((c :: D') ++ zeros (decpt - Z.of_nat (length (c :: D')))).
    rewrite span_digits_all
      by (apply Forall_app; split; [done | apply all_digits_zeros]).
    cbn [fst snd read_fraction read_exponent app].
    eexists. split; [done|]. cbn [negative exponent int_digits frac_digits].
    split_and!; [done | by apply Hnone | | by left].
    right; right. rewrite app_nil_r. split; [done|].
    split; [done | lia]. }
  (* ddd.ddd *)
  assert (∃ k, Z.to_nat decpt = S k) as [k Hk] by (exists (Z.to_nat (decpt - 1)); lia).
  rewrite Hk. change (take (S k) (c :: D')) with (c :: take k D').
  cbn [app]. rewrite read_signed by done.
  unfold read_unsigned.
  change (py "." ++ drop (S k) (c :: D')) with (46%N :: drop (S k) (c :: D')).
  change (c :: take k D' ++ 46%N :: drop (S k) (c :: D'))
    with ((c :: take k D') ++ 46%N :: drop (S k) (c :: D')).
  assert (all_digits (c :: take k D')) as Ht
    by (constructor; [done | by apply Forall_take]).
  assert (all_digits (drop (S k) (c :: D'))) as Hdr by (by apply Forall_drop).
  rewrite span_digits_app by done.
  cbn [fst snd]. rewrite read_fraction_point.
  rewrite span_digits_all by done.
  cbn [fst snd read_exponent].
  eexists. split; [done|]. cbn [negative exponent int_digits frac_digits].
  split_and!; [done | by apply Hnone | |].
  - left. split.
    + change (c :: take k D') with (take (S k) (c :: D')). apply take_drop.
    + unfold scale. cbn [exponent frac_digits from_option id].
      rewrite length_drop. cbn [length] in *. lia.
  - right. rewrite <- (take_drop (S k) (c :: D')) at 2.
    symmetry. apply last_app_r. intros E.
    apply (f_equal length) in E. rewrite length_drop in E.
    cbn [length] in *. lia.
Qed.

(** [format(v, ".10g")] of a float that is not zero reads back as a
    decimal numeral with the sign of the float and at most ten
    significant digits, whose value is the float correctly rounded to ten
    significant digits: [q * 10^p] for a ten-digit [q] within half a unit
    of its last place of the float.  The exponent is written exactly when
    the decimal exponent of the leading digit is below -4 or at least
    10, and the fraction does not end in a zero. *)
Lemma format_10g_reads s m e :
  ∃ d q p,
    read (format_10g (Ffinite s m e)) = Some d
    ∧ negative d = s
    ∧ (significant d <= 10)%nat
    ∧ 10 ^ 9 <= q < 10 ^ 10
    ∧ within_half_unit (num m e) (den e) q p
    ∧ same_decimal (mantissa d) (scale d) q p
    ∧ (is_Some (exponent d) ↔ p + 9 < -4 ∨ 10 <= p + 9)
    ∧ last (frac_digits d) ≠ Some 48%N.
Proof.
  destruct (significant_digits_value s m e) as (z & Hq & Hlen & Hpos).
  pose proof (significant_digits_all_digits (Ffinite s m e)) as Hd.
  destruct (dtoa_correct (num m e) (den e) (num_pos m e) (den_pos e))
    as [Hrange Hhalf].
  cbn [format_10g].
  set (D := significant_digits (Ffinite s m e)) in *.
  set (q := fst (dtoa 10 (num m e) (den e))) in *.
  set (x := snd (dtoa 10 (num m e) (den e))) in *.
  destruct (read_format_g s D (x + 1) Hd)
    as (d & Hr & Hs & Hexp & Hcases & Hfrac).
  { intros E. rewrite E in Hpos. cbn [length] in Hpos. lia. }
  exists d, q, (x - 9).
  assert (Z.of_nat (length D) + Z.of_nat z = 10) as HL by lia.
  split_and!; [done | done | | apply Hrange | apply Hrange | done | | |].
  - unfold significant.
    destruct Hcases as [[-> _]|[[-> _]|(-> & _ & Hl)]].
    + etransitivity; [apply drop_leading_zeros_length | lia].
    + change (48%N :: zeros (- (x + 1)) ++ D)
        with (48%N :: (zeros (- (x + 1)) ++ D)).
      cbn [drop_leading_zeros N.eqb Pos.eqb].
      rewrite drop_leading_zeros_front.
      etransitivity; [apply drop_leading_zeros_length | lia].
    + etransitivity; [apply drop_leading_zeros_length|].
      rewrite length_app. unfold zeros. rewrite length_replicate. lia.
  - unfold same_decimal, mantissa.
    assert (0 <= Z.of_nat z) as Hz by lia.
    destruct Hcases as [[-> ->]|[[-> ->]|(-> & -> & Hl)]].
    + rewrite Z.min_r by lia. rewrite <- Hq.
      replace (x + 1 - Z.of_nat (length D) - (x - 9)) with (Z.of_nat z) by lia.
      replace (x - 9 - (x - 9)) with 0 by lia. lia.
    + change (dec_value (48%N :: zeros (- (x + 1)) ++ D))
        with (dec_value (zeros (- (x + 1)) ++ D)).
      rewrite dec_value_zeros_front.
      rewrite Z.min_r by lia. rewrite <- Hq.
      replace (x + 1 - Z.of_nat (length D) - (x - 9)) with (Z.of_nat z) by lia.
      replace (x - 9 - (x - 9)) with 0 by lia. lia.
    + unfold zeros. rewrite dec_value_zeros.
      rewrite Z2Nat.id by lia. rewrite <- Hq.
      set (w := x + 1 - Z.of_nat (length D)) in *.
      destruct (Z.le_ge_cases 0 (x - 9)) as [Hp|Hp].
      * rewrite Z.min_l by lia. rewrite !Z.sub_0_r.
        replace w with (Z.of_nat z + (x - 9)) by lia.
        rewrite Z.pow_add_r by lia. ring.
      * rewrite Z.min_r by lia.
        replace (x - 9 - (x - 9)) with 0 by lia.
        replace (Z.of_nat z) with (w + (0 - (x - 9))) by lia.
        rewrite Z.pow_add_r by lia. ring.
  - rewrite Hexp. lia.
  - destruct Hfrac as [-> | ->]; [done|].
    apply strip_trailing_zeros_last.
Qed.

End DecimalFacts.

(** ** The rule set of normalization *)

Module NormRules.
Import PyStr PyFloat Openpyxl PyExn Decimal Examples.
Import Raising (_norm, VNone, VFloat, VObj, Finite, Infinity, NaN, normalized).
Import PyStrFacts PyFloatFacts FloatExactFacts NormFacts DecimalFacts.

(** C3: the rule set of normalization, on every cell value but an
    infinity and a NaN.  [None] gives the empty string.  A float within
    [1e-9] of its nearest integer gives the decimal string of that
    integer: the source's test [abs(v - round(v)) < 1e-9], in binary64
    arithmetic, holds exactly when the float is less than [10^-9] away
    from [round(v)], [round(v)] is an integer nearest to the float, and
    the string reads back as that integer; an [int] gives its decimal
    string as it is.  Any other float gives its
    [.10g] text: a decimal numeral with the sign of the float and at most
    ten significant digits, whose value is the float correctly rounded to
    ten significant digits, with an exponent exactly when the decimal
    exponent is below -4 or at least 10 and without zeros at the end of
    the fraction.  On an infinity the function
    raises [OverflowError], on a NaN [ValueError]: these two are mapped to
    no string.  Any other value gives its [str()] with the whitespace at
    both ends removed.  On the examples: [1.0] and [1] both give ["1"],
    [2.00000000001] and [2] give the same string, [2.1] and [2] give
    different strings. *)
Theorem norm_rule_set :
  _norm VNone = Ok (py "")
  ∧ (∀ f, valid_float f = true → near_integer f = true ↔ within_1e_9 f)
  ∧ (∀ s m e,
       Z.abs (2 * num m e - 2 * den e * Z.abs (py_round (Ffinite s m e)))
       <= den e)
  ∧ (∀ f, near_integer f = true →
       _norm (VFloat (Finite f)) = Ok (str_int (py_round f))
       ∧ int_of_str (str_int (py_round f)) = py_round f)
  ∧ (∀ s m e, near_integer (Ffinite s m e) = false →
       ∃ text d q p,
         _norm (VFloat (Finite (Ffinite s m e))) = Ok text
         ∧ read text = Some d
         ∧ negative d = s
         ∧ (significant d <= 10)%nat
         ∧ 10 ^ 9 <= q < 10 ^ 10
         ∧ within_half_unit (num m e) (den e) q p
         ∧ same_decimal (mantissa d) (scale d) q p
         ∧ (is_Some (exponent d) ↔ p + 9 < -4 ∨ 10 <= p + 9)
         ∧ last (frac_digits d) ≠ Some 48%N)
  ∧ (∀ n, _norm (VObj (PyInt n)) = Ok (str_int n)
          ∧ int_of_str (str_int n) = n)
  ∧ (∀ s, _norm (VFloat (Finite (Fzero s))) = Ok (py "0"))
  ∧ (∀ s, _norm (VFloat (Infinity s)) = Raise OverflowError)
  ∧ _norm (VFloat NaN) = Raise ValueError
  ∧ (∀ v, normalized v ↔ Raising.finite_value v)
  ∧ (∀ o, _norm (VObj o) = Ok (strip (py_str o))
          ∧ ∃ l r, py_str o = l ++ strip (py_str o) ++ r
                   ∧ blank l ∧ blank r ∧ clean_ends (strip (py_str o)))
  ∧ (_norm (VFloat (Finite float_1_0)) = Ok (py "1")
     ∧ _norm (VObj (PyInt 1)) = Ok (py "1"))
  ∧ (_norm (VFloat (Finite float_2_00000000001)) = _norm (VObj (PyInt 2))
     ∧ _norm (VFloat (Finite float_2_00000000001))
       = _norm (VFloat (Finite float_2_0)))
  ∧ (_norm (VFloat (Finite float_2_1)) ≠ _norm (VObj (PyInt 2))
     ∧ _norm (VFloat (Finite float_2_1)) ≠ _norm (VFloat (Finite float_2_0))
     ∧ _norm (VFloat (Finite float_2_1)) = Ok (py "2.1")).
Proof.
  assert (∀ f, _norm (VFloat (Finite f))
               = Ok (if near_integer f then str_int (py_round f)
                     else format_10g f)) as Hfin.
  { intros f.
    exact (RaisingFacts.norm_of_value (Openpyxl.VFloat f)). }
  split; [reflexivity|].
  split; [exact near_integer_exact|].
  split; [exact py_round_abs_nearest|].
  split.
  { intros f Hf. rewrite Hfin, Hf. split; [done | apply int_of_str_int]. }
  split.
  { intros s m e Hf. rewrite Hfin, Hf.
    destruct (format_10g_reads s m e) as (d & q & p & H).
    by exists (format_10g (Ffinite s m e)), d, q, p. }
  split.
  { intros n. split; [|apply int_of_str_int].
    exact (f_equal Ok (FurtherProperties.norm_int n)). }
  split; [by intros []|].
  split; [done|].
  split; [done|].
  split.
  { intros v. split.
    - intros [s Hs]. by destruct v as [|[f|s'|]|o].
    - apply RaisingFacts.norm_finite. }
  split; [intros o; split; [done | apply strip_split]|].
  split_and!; vm_compute; congruence.
Qed.

End NormRules.

(** ** Cell labels *)

Module CellLabelFacts.
Import PyStr PyFloat Openpyxl Pandas VariantDiff CellLabel.
Import PyStrFacts ListFacts DiffFacts DiffTheorems.

Lemma column_index_snoc ls c :
  column_index_from_string (ls ++ [c])
  = column_index_from_string ls * 26 + (Z.of_N c - 64).
Proof. unfold column_index_from_string. by rewrite foldl_app. Qed.

(** The loop of [get_column_letter] writes the base-26 numeral of the
    index in front of what it has. *)
Lemma column_letters_spec fuel idx acc :
  0 <= idx → (Z.to_nat idx <= fuel)%nat →
  ∃ ls, column_letters fuel idx acc = ls ++ acc
        ∧ column_index_from_string ls = idx
        ∧ Forall (λ c, is_letter c = true) ls.
Proof.
  revert idx acc. induction fuel as [|fuel IH]; intros idx acc Hidx Hfuel.
  - assert (idx = 0) as -> by lia. by exists [].
  - cbn [column_letters]. destruct (Z.ltb_spec 0 idx) as [Hpos|]; cycle 1.
    { assert (idx = 0) as -> by lia. by exists []. }
    pose proof (Z.div_mod idx 26 ltac:(lia)) as Hdm.
    pose proof (Z.mod_pos_bound idx 26 ltac:(lia)) as Hr.
    destruct (Z.eqb_spec (idx mod 26) 0) as [E0|Hne].
    + destruct (IH (idx / 26 - 1) (Z.to_N (26 + 64) :: acc)) as (ls & -> & Hv & Hl);
        [lia | lia |].
      exists (ls ++ [Z.to_N (26 + 64)]). split_and!.
      * by rewrite <- app_assoc.
      * rewrite column_index_snoc, Hv. simpl. lia.
      * apply Forall_app. split; [done|]. by repeat constructor.
    + destruct (IH (idx / 26) (Z.to_N (idx mod 26 + 64) :: acc)) as (ls & -> & Hv & Hl);
        [lia | lia |].
      exists (ls ++ [Z.to_N (idx mod 26 + 64)]). split_and!.
      * by rewrite <- app_assoc.
      * rewrite column_index_snoc, Hv, Z2N.id by lia. lia.
      * apply Forall_app. split; [done|]. repeat constructor.
        unfold is_letter. apply andb_true_iff. split; apply N.leb_le; lia.
Qed.

(** [get_column_letter] and [column_index_from_string] are inverse on the
    positive indices. *)
Lemma get_column_letter_spec idx :
  0 <= idx →
  column_index_from_string (get_column_letter idx) = idx
  ∧ Forall (λ c, is_letter c = true) (get_column_letter idx).
Proof.
  intros Hidx. unfold get_column_letter.
  destruct (column_letters_spec (Z.to_nat idx) idx [] Hidx ltac:(lia))
    as (ls & -> & Hv & Hl).
  by rewrite app_nil_r.
Qed.

Lemma digit_not_letter c : is_digit c → is_letter c = false.
Proof.
  unfold is_digit, is_letter. intros Hc.
  apply andb_false_iff. left. apply N.leb_gt. lia.
Qed.

Lemma letters_of_app ls ds :
  Forall (λ c, is_letter c = true) ls →
  match ds with [] => True | c :: _ => is_letter c = false end →
  letters_of (ls ++ ds) = ls ∧ digits_of (ls ++ ds) = ds.
Proof.
  intros Hl Hd. induction Hl as [|c ls Hc _ IH]; cbn [app letters_of digits_of].
  - destruct ds as [|c ds]; [done|]. cbn [letters_of digits_of]. by rewrite Hd.
  - rewrite Hc. destruct IH as [-> ->]. done.
Qed.

(** A label reads back as the coordinate it was made from. *)
Lemma coordinate_round_trip r c :
  1 <= r → 1 <= c →
  coordinate_from_string (get_column_letter c ++ str_int r) = (r, c).
Proof.
  intros Hr Hc. unfold coordinate_from_string.
  destruct (get_column_letter_spec c ltac:(lia)) as [Hv Hl].
  destruct (letters_of_app (get_column_letter c) (str_int r) Hl) as [-> ->].
  - unfold str_int. rewrite (proj2 (Z.ltb_ge r 0)) by lia.
    pose proof (str_nat_all_digits r) as Hd.
    destruct (str_nat r) as [|d ds]; [done|].
    apply Forall_cons in Hd as [Hd _]. by apply digit_not_letter.
  - by rewrite int_of_str_int, Hv.
Qed.

(** Membership in the records of [diff_sheet]. *)
Lemma elem_of_diff_sheet wb_a wb_b name k ch :
  ch ∈ records (diff_sheet wb_a wb_b name k) →
  ∃ ws_a ws_b, getitem wb_a name = Some ws_a ∧ getitem wb_b name = Some ws_b
               ∧ ch ∈ discrepancies ws_a ws_b.
Proof.
  intros Hch.
  destruct (getitem wb_a name) as [ws_a|] eqn:Ea;
    [destruct (getitem wb_b name) as [ws_b|] eqn:Eb|].
  - exists ws_a, ws_b. split_and!; [done | done |].
    destruct (diff_sheet_prefix _ _ _ k _ _ Ea Eb) as [rest ->].
    apply elem_of_app. by left.
  - rewrite diff_sheet_missing in Hch; [by apply elem_of_nil in Hch|].
    intros [_ Hb]. apply getitem_is_Some in Hb as [? Hb]. congruence.
  - rewrite diff_sheet_missing in Hch; [by apply elem_of_nil in Hch|].
    intros [Ha _]. apply getitem_is_Some in Ha as [? Ha]. congruence.
Qed.

Lemma diff_sheet_sorted wb_a wb_b name k :
  StronglySorted row_major (records (diff_sheet wb_a wb_b name k)).
Proof.
  destruct (getitem wb_a name) as [ws_a|] eqn:Ea;
    [destruct (getitem wb_b name) as [ws_b|] eqn:Eb|].
  - eapply StronglySorted_prefix;
      [apply (diff_sheet_prefix _ _ _ k _ _ Ea Eb) | apply discrepancies_sorted].
  - rewrite diff_sheet_missing; [constructor|].
    intros [_ Hb]. apply getitem_is_Some in Hb as [? Hb]. congruence.
  - rewrite diff_sheet_missing; [constructor|].
    intros [Ha _]. apply getitem_is_Some in Ha as [? Ha]. congruence.
Qed.

(** X11: the [Cell] label of every record reads back as its (Row, Col), so the
    labels of a result are pairwise distinct. *)
Theorem diff_sheet_cell_labels wb_a wb_b name k :
  Forall (λ ch, coordinate_from_string (Cell ch) = (Row ch, Col ch))
         (records (diff_sheet wb_a wb_b name k))
  ∧ NoDup (Cell <$> records (diff_sheet wb_a wb_b name k)).
Proof.
  assert (Forall (λ ch, coordinate_from_string (Cell ch) = (Row ch, Col ch))
            (records (diff_sheet wb_a wb_b name k))) as Hall.
  { apply Forall_forall. intros ch Hch.
    apply elem_of_diff_sheet in Hch as (ws_a & ws_b & _ & _ & Hch).
    apply elem_of_discrepancies in Hch as (E & _ & Hr & Hc).
    rewrite E at 1. cbn [Cell change_at fst snd].
    apply coordinate_round_trip; lia. }
  split; [done|].
  pose proof (diff_sheet_sorted wb_a wb_b name k) as Hs.
  induction Hs as [|x l Hs IH Hx]; [constructor|].
  apply Forall_cons in Hall as [Hx0 Hall].
  rewrite fmap_cons. constructor; [|by apply IH].
  intros (y & Ey & Hy)%list_elem_of_fmap.
  rewrite Forall_forall in Hx, Hall.
  specialize (Hx y Hy). specialize (Hall y Hy).
  rewrite <- Ey, Hx0 in Hall. injection Hall as Hr Hc.
  unfold row_major in Hx. lia.
Qed.

End CellLabelFacts.

Module MetricsFacts.
Import PyStr PyFloat Openpyxl Pandas VariantDiff.
Import ListFacts DiffFacts DiffTheorems PandasFacts SummaryTheorems.
Import FurtherProperties CellLabelFacts.

(** Distinct pairs are at most as many as the distinct first components
    times the distinct second components. *)
Lemma NoDup_pairs_length (l : list (Z * Z)) :
  NoDup l →
  (length l <= length (remove_dups l.*1) * length (remove_dups l.*2))%nat.
Proof.
  intros Hnd.
  rewrite <- length_prod.
  apply submseteq_length, NoDup_submseteq; [done|].
  intros [r c] Hrc. apply list_elem_of_In, in_prod_iff.
  rewrite <- !list_elem_of_In. split.
  - apply elem_of_remove_dups, list_elem_of_fmap. by exists (r, c).
  - apply elem_of_remove_dups, list_elem_of_fmap. by exists (r, c).
Qed.

Lemma remove_dups_nonempty {A} `{EqDecision A} (l : list A) :
  l ≠ [] → (1 <= length (remove_dups l))%nat.
Proof.
  destruct l as [|x l]; [done|]. intros _.
  assert (x ∈ remove_dups (x :: l)) as Hx
    by (apply elem_of_remove_dups; left).
  destruct (remove_dups (x :: l)); [by apply elem_of_nil in Hx | simpl; lia].
Qed.

(** X12: the three metrics of a diff are consistent: no more rows or columns
    than cells, and no more cells than rows times columns. *)
Theorem diff_metrics_consistent wb_a wb_b name k :
  let s := diff_summary (diff_sheet wb_a wb_b name k) in
  changed_rows s <= changed_cells s
  ∧ changed_cols s <= changed_cells s
  ∧ changed_cells s <= changed_rows s * changed_cols s
  ∧ (changed_cells s = 0 ↔ changed_rows s = 0)
  ∧ (changed_cells s = 0 ↔ changed_cols s = 0).
Proof.
  pose proof (row_major_NoDup _ (diff_sheet_sorted wb_a wb_b name k)) as Hnd.
  set (l := records (diff_sheet wb_a wb_b name k)) in *.
  apply NoDup_pairs_length in Hnd.
  rewrite <- !list_fmap_compose in Hnd.
  change (fst ∘ _) with Row in Hnd. change (snd ∘ _) with Col in Hnd.
  rewrite length_fmap in Hnd.
  pose proof (nunique_bounds (Row <$> l)) as HR.
  pose proof (nunique_bounds (Col <$> l)) as HC.
  rewrite length_fmap in HR, HC.
  unfold diff_summary, empty, len. fold l.
  destruct l as [|ch l'] eqn:E; [cbn; lia|]. rewrite <- E in *.
  cbn [changed_cells changed_rows changed_cols].
  unfold nunique in *.
  assert (1 <= length (remove_dups (Row <$> l)))%nat
    by (apply remove_dups_nonempty; by rewrite E).
  assert (1 <= length (remove_dups (Col <$> l)))%nat
    by (apply remove_dups_nonempty; by rewrite E).
  assert (1 <= length l)%nat by (rewrite E; simpl; lia).
  split_and!; nia.
Qed.

Section Hotspots.
Context `{SortValues}.

Lemma ranked_length keys n :
  0 <= n → Z.of_nat (length (ranked keys n)) = Z.min n (nunique keys).
Proof.
  intros Hn. unfold ranked, head, nunique.
  rewrite (proj2 (Z.leb_le 0 n) Hn), length_take.
  rewrite (Permutation_length (sort_values_perm _)).
  rewrite <- (length_fmap fst), groupby_size_keys_perm. lia.
Qed.

Lemma ranked_all keys n :
  nunique keys <= n →
  total_count (ranked keys n) = Z.of_nat (length keys).
Proof.
  intros Hn. unfold ranked, head.
  assert (0 <= nunique keys) by (unfold nunique; lia).
  rewrite (proj2 (Z.leb_le 0 n)) by lia.
  rewrite take_ge.
  - by rewrite (total_count_perm _ _ (sort_values_perm _)), total_count_groupby.
  - rewrite (Permutation_length (sort_values_perm _)).
    rewrite <- (length_fmap fst), groupby_size_keys_perm.
    unfold nunique in *. lia.
Qed.

Lemma diff_summary_fields (diffs : DataFrame Change) :
  changed_cells (diff_summary diffs) = len diffs
  ∧ changed_rows (diff_summary diffs) = nunique (Row <$> records diffs)
  ∧ changed_cols (diff_summary diffs) = nunique (Col <$> records diffs).
Proof.
  unfold diff_summary, empty, len. by destruct (records diffs).
Qed.

(** X13: the hotspot tables against the summary: a ranking of [n >= 0] rows
    lists [min n changed_rows] rows, and a ranking long enough to list
    every changed row accounts for every changed cell; likewise for the
    columns. *)
Theorem hotspots_cover (diffs : DataFrame Change) (n : Z) :
  0 <= n →
  let s := diff_summary diffs in
  len (top_changed_rows diffs n) = Z.min n (changed_rows s)
  ∧ len (top_changed_cols diffs n) = Z.min n (changed_cols s)
  ∧ (changed_rows s <= n →
     total_count (records (top_changed_rows diffs n)) = changed_cells s)
  ∧ (changed_cols s <= n →
     total_count (records (top_changed_cols diffs n)) = changed_cells s).
Proof.
  intros Hn s. destruct (diff_summary_fields diffs) as (Ec & Er & El).
  subst s. rewrite Ec, Er, El. unfold len.
  rewrite top_changed_rows_records, top_changed_cols_records.
  split_and!.
  - by apply ranked_length.
  - by apply ranked_length.
  - intros Hle. rewrite ranked_all by done. by rewrite length_fmap.
  - intros Hle. rewrite ranked_all by done. by rewrite length_fmap.
Qed.

End Hotspots.

(** X9: the summary of a capped diff, for a cap of at least 1 such as the
    default 5000 of [max_changes]: the count of changed cells is the
    number of discrepancies of the scan range up to the cap, and the cap
    beyond; the counts of rows and columns never exceed those of all the
    discrepancies, and are exactly those while the count of cells stays
    below the cap. *)
Theorem summary_under_cap wb_a wb_b name k ws_a ws_b :
  getitem wb_a name = Some ws_a → getitem wb_b name = Some ws_b → 1 <= k →
  let all := discrepancies ws_a ws_b in
  let s := diff_summary (diff_sheet wb_a wb_b name k) in
  changed_cells s = Z.min k (Z.of_nat (length all))
  ∧ changed_rows s <= Z.of_nat (size (list_to_set (Row <$> all) : gset Z))
  ∧ changed_cols s <= Z.of_nat (size (list_to_set (Col <$> all) : gset Z))
  ∧ (changed_cells s < k →
     changed_rows s = Z.of_nat (size (list_to_set (Row <$> all) : gset Z))
     ∧ changed_cols s = Z.of_nat (size (list_to_set (Col <$> all) : gset Z))).
Proof.
  intros Ha Hb Hk all s.
  destruct (diff_summary_fields (diff_sheet wb_a wb_b name k))
    as (Ec & Er & El).
  subst s. rewrite Ec, Er, El. unfold len.
  rewrite (diff_sheet_records _ _ _ _ _ _ Ha Hb).
  rewrite (proj2 (Z.leb_le 1 k) Hk). fold all.
  rewrite !nunique_size, length_take.
  assert (∀ f : Change → Z,
            (list_to_set (f <$> take (Z.to_nat k) all) : gset Z)
            ⊆ list_to_set (f <$> all)) as Hsub.
  { intros f x. rewrite !elem_of_list_to_set, !list_elem_of_fmap.
    intros (ch & -> & Hch). exists ch. split; [done|].
    by apply (subseteq_take (Z.to_nat k)). }
  split_and!.
  - lia.
  - apply inj_le, subseteq_size, Hsub.
  - apply inj_le, subseteq_size, Hsub.
  - intros Hlt. rewrite take_ge by lia. done.
Qed.

End MetricsFacts.

(** ** More on normalization *)

Module NormMoreFacts.
Import PyStr PyFloat Openpyxl VariantDiff Examples.
Import PyStrFacts PyFloatFacts FloatExactFacts NormFacts.

Lemma lstrip_blank s : blank s → lstrip s = [].
Proof. induction 1 as [|c s Hc _ IH]; [done|]. simpl. by rewrite Hc. Qed.

Lemma lstrip_blank_app l s : blank l → lstrip (l ++ s) = lstrip s.
Proof. induction 1 as [|c l Hc _ IH]; [done|]. simpl. by rewrite Hc. Qed.

Lemma lstrip_app_not_blank s r : ¬ blank s → lstrip (s ++ r) = lstrip s ++ r.
Proof.
  induction s as [|c s IH]; intros Hs; [by destruct Hs; constructor|].
  simpl. destruct (isspace c) eqn:Hc; [|done].
  apply IH. intros Hb. apply Hs. by constructor.
Qed.

Lemma blank_rev s : blank s → blank (rev s).
Proof. apply Forall_rev. Qed.

Lemma blank_app s t : blank s → blank t → blank (s ++ t).
Proof. unfold blank. intros. by apply Forall_app. Qed.

Lemma lstrip_not_blank s : ¬ blank s → ¬ blank (rev (lstrip s)).
Proof.
  intros Hs Hb. apply Hs.
  destruct (lstrip_split s) as (sp & E & Hsp). rewrite E.
  apply blank_app; [done|].
  apply blank_rev in Hb. by rewrite rev_involutive in Hb.
Qed.

(** Whitespace around a text does not change what [strip] gives. *)
Lemma strip_padding l s r :
  blank l → blank r → strip (l ++ s ++ r) = strip s.
Proof.
  intros Hl Hr. unfold strip, rstrip. rewrite (lstrip_blank_app l) by done.
  destruct (decide (blank s)) as [Hs|Hs].
  - rewrite (lstrip_blank (s ++ r)) by (by apply blank_app).
    by rewrite (lstrip_blank s).
  - rewrite lstrip_app_not_blank by done.
    rewrite rev_app_distr, lstrip_blank_app by (by apply blank_rev). done.
Qed.

Lemma strip_nil_iff s : strip s = [] ↔ blank s.
Proof.
  split.
  - intros E. destruct (strip_split s) as (l & r & Es & Hl & Hr & _).
    rewrite Es, E. by apply blank_app.
  - intros Hs. rewrite <- (app_nil_r s), <- (app_nil_r (s ++ [])), <- app_assoc.
    rewrite (strip_padding s [] []); [done | done | constructor].
Qed.

(** X14: normalization ignores the whitespace around a text: a padded text
    gives the string of the text itself, and the text of a number, padded
    or not, gives the string of the number. *)
Theorem norm_ignores_padding l s r n :
  blank l → blank r →
  _norm (VObj (PyStr (l ++ s ++ r))) = _norm (VObj (PyStr s))
  ∧ _norm (VObj (PyStr (l ++ str_int n ++ r))) = _norm (VObj (PyInt n)).
Proof.
  intros Hl Hr. cbn [_norm py_str]. rewrite !strip_padding by done.
  by split.
Qed.

(** X15: a text cell is taken for an empty cell exactly when it holds nothing
    but whitespace. *)
Theorem norm_blank_text s :
  _norm (VObj (PyStr s)) = _norm VNone ↔ blank s.
Proof. cbn [_norm py_str]. apply strip_nil_iff. Qed.

(** X16: a float without a fractional part, however large, is written out as
    an integer in full: no exponent form, no rounding to ten digits. *)
Theorem norm_integral_float s m e :
  valid_float (Ffinite s m e) = true → 0 <= e →
  _norm (VFloat (Ffinite s m e)) = str_int (cond_Zopp s (Z.pos m * 2 ^ e)).
Proof.
  intros Hv He. change (bounded prec emax m e = true) in Hv.
  cbn [_norm]. rewrite near_integer_integral by done.
  cbn [py_round]. unfold num, den.
  by rewrite (proj2 (Z.leb_le 0 e) He), div_half_even_1.
Qed.

(** X17: a float of magnitude below [10^-9] normalizes to ["0"], as the
    numbers 0 and 0.0 do. *)
Theorem norm_tiny_float s m e :
  valid_float (Ffinite s m e) = true → e < 0 →
  Z.pos m * 10 ^ 9 < 2 ^ (- e) →
  _norm (VFloat (Ffinite s m e)) = py "0".
Proof.
  intros Hv He Hm.
  assert (den e = 2 ^ (- e)) as Hden
    by (unfold den; by rewrite (proj2 (Z.leb_gt 0 e) He)).
  assert (num m e = Z.pos m) as Hnum
    by (unfold num; by rewrite (proj2 (Z.leb_gt 0 e) He)).
  change (10 ^ 9) with 1000000000 in Hm.
  assert (div_half_even (num m e) (den e) = 0) as Hq.
  { rewrite Hnum, Hden. unfold div_half_even.
    rewrite Z.div_small, Z.mod_small by lia.
    by rewrite (proj2 (Z.ltb_lt _ _)) by lia. }
  assert (near_integer (Ffinite s m e) = true) as Hn.
  { apply near_integer_exact; [done|].
    unfold within_1e_9, round_distance. rewrite Hq, Hnum, Hden.
    change (10 ^ 9) with 1000000000. lia. }
  cbn [_norm]. rewrite Hn. cbn [py_round]. rewrite Hq. by destruct s.
Qed.

End NormMoreFacts.

(** ** Dates, weeks and the lock of published periods *)

Module LeaveAppFacts.
Import PyStr Pandas PyExn PyDate LeaveApp.
Import PyStrFacts.

Lemma add_days_Ok d n :
  0 < toordinal d + n <= _MAXORDINAL →
  add_days d n = Ok {| toordinal := toordinal d + n |}.
Proof.
  intros Hr. unfold add_days.
  rewrite (proj2 (Z.ltb_lt _ _)), (proj2 (Z.leb_le _ _)) by lia. done.
Qed.

Lemma add_days_Raise d n :
  ¬ (0 < toordinal d + n <= _MAXORDINAL) →
  add_days d n = Raise OverflowError.
Proof.
  intros Hr. unfold add_days.
  destruct (Z.ltb_spec 0 (toordinal d + n)),
    (Z.leb_spec (toordinal d + n) _MAXORDINAL); try done; lia.
Qed.

Lemma isoweekday_range d : 1 <= isoweekday d <= 7.
Proof.
  unfold isoweekday. pose proof (Z.mod_pos_bound (toordinal d) 7 ltac:(lia)).
  destruct (Z.eqb_spec (toordinal d mod 7) 0); lia.
Qed.

(** The Monday of the week of [d], as an ordinal. *)
Lemma monday_ordinal d :
  (toordinal d - (isoweekday d - 1)) mod 7 = 1
  ∧ toordinal d - (isoweekday d - 1) = 7 * ((toordinal d - 1) / 7) + 1.
Proof.
  unfold isoweekday.
  pose proof (Z.div_mod (toordinal d) 7 ltac:(lia)) as Hdm.
  pose proof (Z.mod_pos_bound (toordinal d) 7 ltac:(lia)) as Hr.
  pose proof (Z.div_mod (toordinal d - 1) 7 ltac:(lia)) as Hdm1.
  pose proof (Z.mod_pos_bound (toordinal d - 1) 7 ltac:(lia)) as Hr1.
  assert (toordinal d - (if toordinal d mod 7 =? 0 then 7
                         else toordinal d mod 7) + 1
          = 7 * ((toordinal d - 1) / 7) + 1) as E.
  { destruct (Z.eqb_spec (toordinal d mod 7) 0); lia. }
  split; [|lia].
  replace (toordinal d - ((if toordinal d mod 7 =? 0 then 7
                           else toordinal d mod 7) - 1))
    with (1 + (toordinal d - 1) / 7 * 7) by lia.
  by rewrite Z.mod_add by lia.
Qed.

(** The value of [week_bounds]: the days [7q + 1] and [7q + 7] for the
    week number [q] of [d], unless the Sunday lies after 9999-12-31. *)
Lemma week_bounds_value d :
  valid_date d →
  week_bounds d
  = if toordinal d <=? 3652054 then
      Ok ({| toordinal := 7 * ((toordinal d - 1) / 7) + 1 |},
          {| toordinal := 7 * ((toordinal d - 1) / 7) + 7 |})
    else Raise OverflowError.
Proof.
  unfold valid_date, _MAXORDINAL. intros Hd.
  destruct (monday_ordinal d) as [_ Hmon].
  pose proof (isoweekday_range d) as Hw.
  unfold week_bounds, sub_days.
  rewrite add_days_Ok by (unfold _MAXORDINAL; lia).
  cbn [mbind result_bind].
  replace (toordinal d + - (isoweekday d - 1))
    with (7 * ((toordinal d - 1) / 7) + 1) by lia.
  destruct (Z.leb_spec (toordinal d) 3652054) as [Hle|Hgt].
  - assert ((toordinal d - 1) / 7 < 521722)
      by (apply Z.div_lt_upper_bound; lia).
    rewrite add_days_Ok by (cbn [toordinal]; unfold _MAXORDINAL; lia).
    cbn [mbind result_bind toordinal]. do 3 f_equal. lia.
  - assert (521722 <= (toordinal d - 1) / 7)
      by (apply Z.div_le_lower_bound; lia).
    rewrite add_days_Raise; [done|]. cbn [toordinal]. unfold _MAXORDINAL. lia.
Qed.

Lemma week_number_bound d :
  valid_date d → toordinal d <= 3652054 →
  0 <= (toordinal d - 1) / 7 < 521722.
Proof.
  unfold valid_date. intros Hd Hle. split.
  - apply Z.div_pos; lia.
  - apply Z.div_lt_upper_bound; lia.
Qed.

Lemma week_bounds_Ok d start end_ :
  valid_date d → week_bounds d = Ok (start, end_) →
  toordinal d <= 3652054
  ∧ toordinal start = 7 * ((toordinal d - 1) / 7) + 1
  ∧ toordinal end_ = toordinal start + 6.
Proof.
  intros Hd. rewrite (week_bounds_value d Hd).
  destruct (Z.leb_spec (toordinal d) 3652054) as [Hle|Hgt]; [|done].
  intros [= <- <-]. cbn [toordinal]. lia.
Qed.

Lemma isoweekday_of_week q k :
  1 <= k <= 7 → isoweekday {| toordinal := 7 * q + k |} = k.
Proof.
  intros Hk. unfold isoweekday. cbn [toordinal].
  destruct (Z.eq_dec k 7) as [->|Hne].
  - replace (7 * q + 7) with (0 + (q + 1) * 7) by lia.
    by rewrite Z.mod_add by lia.
  - replace (7 * q + k) with (k + q * 7) by lia.
    rewrite Z.mod_add, Z.mod_small by lia.
    destruct (Z.eqb_spec k 0); [lia | done].
Qed.

(** X18: [week_bounds] gives the Monday and the Sunday of the week of [d]; it
    never leaves the calendar at its start (0001-01-01 is a Monday) and
    raises [OverflowError] for the last five days of the year 9999, whose
    week ends after 9999-12-31. *)
Theorem week_bounds_spec d :
  valid_date d →
  (toordinal d <= 3652054 →
   ∃ start end_,
     week_bounds d = Ok (start, end_)
     ∧ valid_date start ∧ valid_date end_
     ∧ isoweekday start = 1 ∧ isoweekday end_ = 7
     ∧ toordinal end_ = toordinal start + 6
     ∧ toordinal start <= toordinal d <= toordinal end_)
  ∧ (3652055 <= toordinal d → week_bounds d = Raise OverflowError).
Proof.
  intros Hd. rewrite (week_bounds_value d Hd). split.
  - intros Hle. rewrite (proj2 (Z.leb_le _ _) Hle).
    pose proof (week_number_bound d Hd Hle) as Hq.
    unfold valid_date, _MAXORDINAL in *.
    pose proof (Z.div_mod (toordinal d - 1) 7 ltac:(lia)) as Hdm.
    pose proof (Z.mod_pos_bound (toordinal d - 1) 7 ltac:(lia)) as Hr.
    eexists _, _. split; [done|].
    rewrite !isoweekday_of_week by lia. cbn [toordinal].
    split_and!; lia.
  - intros Hge. by rewrite (proj2 (Z.leb_gt _ _)) by lia.
Qed.

(** X19: every day of a week has that week as its [week_bounds]. *)
Theorem week_bounds_same_week d d' start end_ :
  valid_date d → week_bounds d = Ok (start, end_) →
  toordinal start <= toordinal d' <= toordinal end_ →
  week_bounds d' = Ok (start, end_).
Proof.
  intros Hd E Hd'.
  destruct (week_bounds_Ok d start end_ Hd E) as (Hle & Hs & He).
  pose proof (week_number_bound d Hd Hle) as Hq.
  assert ((toordinal d' - 1) / 7 = (toordinal d - 1) / 7) as Hq'.
  { symmetry. apply (Z.div_unique _ _ _ (toordinal d' - toordinal start)); lia. }
  assert (valid_date d') as Hv by (unfold valid_date, _MAXORDINAL; lia).
  rewrite (week_bounds_value d' Hv), Hq'.
  rewrite (proj2 (Z.leb_le (toordinal d') 3652054)) by lia.
  destruct start as [s], end_ as [e]. cbn [toordinal] in *.
  do 3 f_equal; lia.
Qed.

Lemma weekend_bounds_value d :
  valid_date d →
  weekend_bounds d
  = if toordinal d <=? 3652054 then
      Ok ({| toordinal := 7 * ((toordinal d - 1) / 7) + 6 |},
          {| toordinal := 7 * ((toordinal d - 1) / 7) + 7 |})
    else Raise OverflowError.
Proof.
  intros Hd. unfold weekend_bounds. rewrite (week_bounds_value d Hd).
  destruct (Z.leb_spec (toordinal d) 3652054) as [Hle|Hgt]; [|done].
  pose proof (week_number_bound d Hd Hle) as Hq.
  cbn [mbind result_bind].
  rewrite !add_days_Ok by (cbn [toordinal]; unfold _MAXORDINAL; lia).
  cbn [mbind result_bind toordinal]. do 3 f_equal; lia.
Qed.

(** X20: [weekend_bounds] gives the Saturday and the Sunday of the ISO week of
    [d], the days 6 and 7 of the week [week_bounds] gives: for a day from
    Monday to Friday that weekend lies ahead.  It raises exactly where
    [week_bounds] does. *)
Theorem weekend_bounds_spec d :
  valid_date d →
  (toordinal d <= 3652054 →
   ∃ start end_ sat sun,
     week_bounds d = Ok (start, end_)
     ∧ weekend_bounds d = Ok (sat, sun)
     ∧ toordinal sat = toordinal start + 5 ∧ sun = end_
     ∧ isoweekday sat = 6 ∧ isoweekday sun = 7
     ∧ (toordinal sat <= toordinal d <= toordinal sun ↔ 6 <= isoweekday d))
  ∧ (3652055 <= toordinal d → weekend_bounds d = Raise OverflowError).
Proof.
  intros Hd.
  rewrite (weekend_bounds_value d Hd), (week_bounds_value d Hd). split.
  - intros Hle. rewrite (proj2 (Z.leb_le _ _) Hle).
    eexists _, _, _, _. split_and!; try done.
    + cbn [toordinal]. lia.
    + by apply isoweekday_of_week.
    + by apply isoweekday_of_week.
    + cbn [toordinal]. destruct (monday_ordinal d) as [_ Hmon].
      pose proof (isoweekday_range d). lia.
  - intros Hge. by rewrite (proj2 (Z.leb_gt _ _)) by lia.
Qed.

(** X21: two valid ranges overlap exactly when they share a day; the test is
    symmetric. *)
Theorem overlap_spec a_start a_end b_start b_end :
  toordinal a_start <= toordinal a_end →
  toordinal b_start <= toordinal b_end →
  (overlap a_start a_end b_start b_end = true ↔
   ∃ o, toordinal a_start <= o <= toordinal a_end
        ∧ toordinal b_start <= o <= toordinal b_end)
  ∧ overlap b_start b_end a_start a_end = overlap a_start a_end b_start b_end.
Proof.
  intros Ha Hb. unfold overlap, date_le. split.
  - rewrite andb_true_iff, !Z.leb_le. split.
    + intros [H1 H2]. exists (Z.max (toordinal a_start) (toordinal b_start)).
      lia.
    + intros (o & ? & ?). lia.
  - apply andb_comm.
Qed.

Lemma locked_by_existsb s e pubs :
  locked_by s e pubs
  = existsb (λ r, overlap s e (start_date r) (end_date r)) pubs.
Proof.
  induction pubs as [|p pubs IH]; [done|]. cbn [locked_by existsb].
  rewrite IH. by destruct (overlap _ _ _ _).
Qed.

Lemma any_published_overlap_existsb (periods : DataFrame Period) s e :
  any_published_overlap periods s e
  = existsb (λ r, overlap s e (start_date r) (end_date r))
      (filter (λ r, is_published r = true) (records periods)).
Proof.
  unfold any_published_overlap, empty, select. cbn [records].
  destruct (records periods) as [|p l]; [done|].
  by destruct (filter _ (p :: l)).
Qed.

Lemma published_overlap_iff (periods : DataFrame Period) s e :
  any_published_overlap periods s e = true ↔
  ∃ p, p ∈ records periods ∧ is_published p = true
       ∧ overlap s e (start_date p) (end_date p) = true.
Proof.
  rewrite any_published_overlap_existsb, existsb_exists. split.
  - intros (p & Hp & Ho).
    apply list_elem_of_In, list_elem_of_filter in Hp as [Hpub Hp].
    by exists p.
  - intros (p & Hp & Hpub & Ho). exists p. split; [|done].
    apply list_elem_of_In, list_elem_of_filter. done.
Qed.

(** X22: the lock: a range is locked exactly when a published period overlaps
    it; unpublished periods never lock, and without periods nothing is
    locked.  The loop of the lockout versions computes the same. *)
Theorem any_published_overlap_spec (periods : DataFrame Period) s e :
  (any_published_overlap periods s e = true ↔
   ∃ p, p ∈ records periods ∧ is_published p = true
        ∧ overlap s e (start_date p) (end_date p) = true)
  ∧ (any_published_overlap periods s e = false ↔
     ∀ p, p ∈ records periods → is_published p = true →
          overlap s e (start_date p) (end_date p) = false)
  ∧ is_locked_for_range periods s e = any_published_overlap periods s e.
Proof.
  split_and!.
  - apply published_overlap_iff.
  - rewrite <- not_true_iff_false, published_overlap_iff. split.
    + intros Hn p Hp Hpub. apply not_true_iff_false. intros Ho.
      apply Hn. by exists p.
    + intros Hall (p & Hp & Hpub & Ho). rewrite (Hall p Hp Hpub) in Ho. done.
  - rewrite any_published_overlap_existsb.
    unfold is_locked_for_range, empty, select. cbn [records].
    rewrite locked_by_existsb.
    destruct (records periods) as [|p l]; [done|].
    by destruct (filter _ (p :: l)).
Qed.

Lemma validate_dates_falsy s e :
  truthy (validate_dates s e) = false ↔ toordinal s <= toordinal e.
Proof.
  unfold validate_dates, date_lt.
  destruct (Z.ltb_spec (toordinal e) (toordinal s)); cbn; split; try done; lia.
Qed.

Section Session.
Context (user_id user_email : pystr) (is_admin : bool).
Context (periods : DataFrame Period).

Local Abbreviation leave_submit :=
  (LeaveApp.leave_submit user_id user_email is_admin periods).
Local Abbreviation pref_submit :=
  (LeaveApp.pref_submit user_id user_email is_admin periods).

(** X23: what the leave form lets through: a row is handed to the insert only
    with dates in order and a consultant name that is not blank, stored
    without the whitespace around it and pending approval; and for a user
    who is not an admin only when no published period overlaps it. *)
Theorem leave_submit_insert leave_name kind note leave_start leave_end row :
  leave_submit leave_name kind note leave_start leave_end = Insert row →
  leave_start_date row = leave_start ∧ leave_end_date row = leave_end
  ∧ toordinal leave_start <= toordinal leave_end
  ∧ leave_consultant_name row = strip leave_name
  ∧ leave_consultant_name row ≠ [] ∧ clean_ends (leave_consultant_name row)
  ∧ leave_approved row = false
  ∧ (is_admin = false →
     ∀ p, p ∈ records periods → is_published p = true →
          overlap leave_start leave_end (start_date p) (end_date p) = false).
Proof.
  unfold leave_submit, LeaveApp.leave_submit.
  destruct (truthy _) eqn:Ht; [done|].
  apply validate_dates_falsy in Ht.
  case_bool_decide as Hname; [done|].
  destruct (negb is_admin && any_published_overlap _ _ _) eqn:Hlock; [done|].
  intros [= <-]. cbn. split_and!; try done; [apply strip_clean|].
  intros -> p Hp Hpub. cbn in Hlock.
  destruct (overlap _ _ _ _) eqn:Ho; [|done].
  assert (any_published_overlap periods leave_start leave_end = true);
    [|congruence].
  apply published_overlap_iff. by exists p.
Qed.

(** The bounds of a preference, kind by kind; only the week and weekend
    kinds can raise, for a reference date in the last five days of the
    year 9999. *)
Lemma pref_bounds_cases kind ref_date pref_end_override :
  valid_date ref_date →
  (kind = py "Date range" →
   pref_bounds kind ref_date pref_end_override
   = Ok (ref_date, pref_end_override))
  ∧ (∀ ps pe, pref_bounds kind ref_date pref_end_override = Ok (ps, pe) →
              kind ≠ py "Date range" → toordinal ps <= toordinal pe)
  ∧ (∀ e, pref_bounds kind ref_date pref_end_override = Raise e →
          e = OverflowError ∧ 3652055 <= toordinal ref_date
          ∧ kind ≠ py "Specific date" ∧ kind ≠ py "Date range").
Proof.
  intros Hd. unfold pref_bounds.
  rewrite (week_bounds_value _ Hd), (weekend_bounds_value _ Hd).
  split_and!.
  - intros ->. rewrite bool_decide_eq_false_2 by done.
    by rewrite bool_decide_eq_true_2.
  - intros ps pe E Hk.
    repeat case_bool_decide; try done;
      destruct (Z.leb_spec (toordinal ref_date) 3652054);
      simplify_eq; cbn [toordinal]; lia.
  - intros e E.
    repeat case_bool_decide; try done;
      destruct (Z.leb_spec (toordinal ref_date) 3652054);
      simplify_eq; split_and!; (done || lia).
Qed.

(** X24: the preference form shows the date-order error only for a date range
    whose end lies before its start: the other kinds never produce it. *)
Theorem pref_submit_date_order pref_name kind shift note weight
    ref_date pref_end_override :
  valid_date ref_date →
  pref_submit pref_name kind shift note weight ref_date pref_end_override
  = Ok (ShowError (py "Date to cannot be earlier than Date from."))
  ↔ kind = py "Date range"
    ∧ toordinal pref_end_override < toordinal ref_date.
Proof.
  intros Hd.
  destruct (pref_bounds_cases kind ref_date pref_end_override Hd)
    as (Hrange & Hord & _).
  unfold pref_submit, LeaveApp.pref_submit.
  destruct (pref_bounds kind ref_date pref_end_override) as [[ps pe]|e] eqn:E;
    cbn [mbind result_bind]; cycle 1.
  { split; [done|]. intros [-> _]. by specialize (Hrange eq_refl). }
  destruct (truthy (validate_dates ps pe)) eqn:Ht.
  - assert (¬ toordinal ps <= toordinal pe) as Hlt.
    { intros Hle. apply validate_dates_falsy in Hle. congruence. }
    assert (kind = py "Date range") as ->.
    { destruct (decide (kind = py "Date range")); [done|].
      destruct Hlt. by apply Hord. }
    specialize (Hrange eq_refl) as [= -> ->].
    unfold validate_dates, date_lt in *.
    destruct (Z.ltb_spec (toordinal pref_end_override) (toordinal ref_date));
      [|done].
    cbn. split; [intros _; split; [done | lia] | done].
  - apply validate_dates_falsy in Ht. split.
    + repeat (case_bool_decide || destruct (_ && _)); intros [= ?].
    + intros [-> Hlt]. specialize (Hrange eq_refl) as [= -> ->]. lia.
Qed.

(** X25: what the preference form lets through, as for leave: dates in order,
    a name that is not blank, and no overlap with a published period for
    a user who is not an admin. *)
Theorem pref_submit_insert pref_name kind shift note weight
    ref_date pref_end_override row :
  pref_submit pref_name kind shift note weight ref_date pref_end_override
  = Ok (Insert row) →
  pref_bounds kind ref_date pref_end_override
  = Ok (pref_start_date row, pref_end_date row)
  ∧ toordinal (pref_start_date row) <= toordinal (pref_end_date row)
  ∧ pref_consultant_name row = strip pref_name
  ∧ pref_consultant_name row ≠ []
  ∧ (is_admin = false →
     ∀ p, p ∈ records periods → is_published p = true →
          overlap (pref_start_date row) (pref_end_date row)
            (start_date p) (end_date p) = false).
Proof.
  unfold pref_submit, LeaveApp.pref_submit.
  destruct (pref_bounds kind ref_date pref_end_override) as [[ps pe]|e] eqn:E;
    cbn [mbind result_bind]; [|done].
  destruct (truthy _) eqn:Ht; [done|].
  apply validate_dates_falsy in Ht.
  case_bool_decide as Hname; [done|].
  destruct (negb is_admin && any_published_overlap _ _ _) eqn:Hlock; [done|].
  intros [= <-]. cbn. split_and!; try done.
  intros -> p Hp Hpub. cbn in Hlock.
  destruct (overlap _ _ _ _) eqn:Ho; [|done].
  assert (any_published_overlap periods ps pe = true); [|congruence].
  apply published_overlap_iff. by exists p.
Qed.

End Session.

End LeaveAppFacts.

(** ** The requests cut to the period *)

Module DraftingFacts.
Import PyStr PyExn PyDate LeaveApp Drafting.
Import ListFacts LeaveAppFacts.

Section Period.
Context (period_start period_end : date).

Local Abbreviation contained := (Drafting.contained period_start period_end).
Local Abbreviation clip := (Drafting.clip period_start period_end).
Local Abbreviation overlaps :=
  (λ r, overlap (start_date r) (end_date r) period_start period_end).

Lemma clip_contained r : contained r = true → clip r = r.
Proof.
  unfold Drafting.contained, Drafting.clip, date_le, date_max, date_min, date_lt.
  intros [H1 H2]%andb_true_iff. apply Z.leb_le in H1, H2.
  rewrite (proj2 (Z.ltb_ge _ _)) by lia.
  rewrite (proj2 (Z.ltb_ge (toordinal period_end) _)) by lia.
  by destruct r.
Qed.

Lemma clip_overlapping r :
  overlaps r = true → contained (clip r) = true.
Proof.
  unfold overlap, Drafting.contained, Drafting.clip, date_le, date_max,
    date_min, date_lt. cbn [start_date end_date].
  intros [H1 H2]%andb_true_iff. apply Z.leb_le in H1, H2.
  apply andb_true_iff.
  destruct (Z.ltb_spec (toordinal (start_date r)) (toordinal period_start)),
    (Z.ltb_spec (toordinal period_end) (toordinal (end_date r)));
    split; apply Z.leb_le; lia.
Qed.

Lemma where_index P (df : Table) : unique_index df → unique_index (where_ P df).
Proof.
  unfold unique_index, where_. intros Hnd.
  eapply sublist_NoDup; [exact Hnd | apply fmap_sublist, sublist_filter].
Qed.

Lemma index_functional (df : Table) i r r' :
  unique_index df → (i, r) ∈ df → (i, r') ∈ df → r = r'.
Proof.
  intros Hnd H1 H2.
  apply (elem_of_list_to_map (M := gmap Z)) in H1, H2; [|done|done].
  congruence.
Qed.

(** The two [.loc] assignments clip exactly the rows that are not
    contained. *)
Lemma loc_set_clip (df : Table) :
  unique_index df →
  let df_partial := where_ (λ r, negb (contained r)) df in
  loc_set_end
    (loc_set_start df
       ((λ ir, (ir.1, date_max (start_date ir.2) period_start)) <$> df_partial))
    ((λ ir, (ir.1, date_min (end_date ir.2) period_end)) <$> df_partial)
  = (λ ir, (ir.1, clip ir.2)) <$> df.
Proof.
  intros Hnd df_partial.
  assert (∀ (f : Request → date) i r, (i, r) ∈ df →
            list_to_map (M := gmap Z date)
              ((λ ir, (ir.1, f ir.2)) <$> df_partial) !! i
            = if contained r then None else Some (f r)) as Hlook.
  { intros f i r Hir.
    assert ((((λ ir : Z * Request, (ir.1, f ir.2)) <$> df_partial).*1)
            = df_partial.*1) as Hfst
      by (rewrite <- list_fmap_compose; done).
    destruct (contained r) eqn:Hc.
    - apply not_elem_of_list_to_map. rewrite Hfst.
      intros ([i' r'] & Ei & Hi')%list_elem_of_fmap. simpl in Ei. subst i'.
      apply list_elem_of_filter in Hi' as [Hn Hi']. simpl in Hn.
      assert (r' = r) as ->.
      { by apply (index_functional df i). }
      rewrite Hc in Hn. done.
    - apply elem_of_list_to_map.
      + rewrite Hfst. by apply where_index.
      + apply list_elem_of_fmap. exists (i, r). split; [done|].
        apply list_elem_of_filter. simpl. by rewrite Hc. }
  unfold loc_set_start, loc_set_end. rewrite <- list_fmap_compose.
  apply list_fmap_ext. intros k [i r] Hir%list_elem_of_lookup_2.
  cbn [compose fst snd].
  rewrite (Hlook (λ r, date_max (start_date r) period_start) i r Hir).
  destruct (contained r) eqn:Hc; cbn [fst snd];
    rewrite (Hlook (λ r, date_min (end_date r) period_end) i r Hir), Hc.
  - by rewrite clip_contained.
  - done.
Qed.

Lemma where_where P Q (df : Table) :
  where_ Q (where_ P df) = where_ (λ r, P r && Q r) df.
Proof.
  unfold where_. rewrite list_filter_filter. apply list_filter_iff.
  intros ir. simpl. rewrite andb_true_iff. tauto.
Qed.

Lemma where_all P (df : Table) :
  Forall (λ ir, P ir.2 = true) df → where_ P df = df.
Proof. intros. by apply filter_all. Qed.

Lemma where_nil_Forall P (df : Table) :
  where_ (λ r, negb (P r)) df = [] → Forall (λ ir, P ir.2 = true) df.
Proof.
  unfold where_. intros E. apply Forall_forall. intros ir Hir.
  destruct (P ir.2) eqn:HP; [done|].
  assert (ir ∈ filter (λ ir, negb (P ir.2) = true) df) as Hin
    by (apply list_elem_of_filter; by rewrite HP).
  rewrite E in Hin. by apply elem_of_nil in Hin.
Qed.

(** With truncation on, the filter never stops: it keeps the rows that
    overlap the period, each cut to the period. *)
Lemma cut_to_period_truncate (df : Table) :
  unique_index df →
  cut_to_period period_start period_end true df
  = Final ((λ ir, (ir.1, clip ir.2)) <$> where_ overlaps df).
Proof.
  intros Hnd. unfold cut_to_period. cbv zeta.
  rewrite andb_false_r, andb_true_r.
  set (ov := where_ overlaps df).
  assert (Forall (λ ir, contained ir.2 = true)
            ((λ ir, (ir.1, clip ir.2)) <$> ov)) as Hall.
  { apply Forall_fmap, Forall_forall. intros [i r] Hir. simpl.
    apply clip_overlapping.
    by apply list_elem_of_filter in Hir as [? _]. }
  case_bool_decide as Hp; cbn [negb].
  - apply where_nil_Forall in Hp.
    assert ((λ ir, (ir.1, clip ir.2)) <$> ov = ov) as E.
    { rewrite <- (list_fmap_id ov) at 2. apply list_fmap_ext.
      intros k [i r] Hir%list_elem_of_lookup_2. simpl.
      rewrite Forall_forall in Hp. by rewrite (clip_contained r (Hp _ Hir)). }
    rewrite E in *. by rewrite where_all.
  - rewrite loc_set_clip by (by apply where_index).
    by rewrite where_all.
Qed.

(** Without truncation the filter stops when a row overlaps the period in
    part, and otherwise keeps the overlapping rows, all of them inside
    the period, as they are. *)
Lemma cut_to_period_strict (df : Table) :
  match cut_to_period period_start period_end false df with
  | Stop partial =>
      partial ≠ []
      ∧ partial = where_ (λ r, overlaps r && negb (contained r)) df
  | Final rows =>
      where_ (λ r, overlaps r && negb (contained r)) df = []
      ∧ rows = where_ overlaps df
      ∧ Forall (λ ir, contained ir.2 = true) rows
  end.
Proof.
  unfold cut_to_period. cbv zeta. rewrite andb_true_r, andb_false_r.
  rewrite where_where.
  case_bool_decide as Hp; cbn [negb].
  - rewrite <- where_where in Hp. apply where_nil_Forall in Hp.
    rewrite <- where_where.
    split_and!; [|by rewrite where_all | by rewrite where_all].
    apply filter_none. eapply Forall_impl; [exact Hp|].
    intros ir Hc. simpl in *. by rewrite Hc.
  - done.
Qed.

Lemma leave_ok_eq (leave_all : Table) :
  (if bool_decide (leave_all = []) then [] else where_ approved leave_all)
  = where_ approved leave_all.
Proof. case_bool_decide; [by subst|done]. Qed.

Lemma clip_ordered r :
  toordinal period_start <= toordinal period_end →
  toordinal (start_date r) <= toordinal (end_date r) →
  overlaps r = true →
  toordinal (start_date (clip r)) <= toordinal (end_date (clip r)).
Proof.
  unfold overlap, Drafting.clip, date_le, date_max, date_min, date_lt.
  cbn [start_date end_date].
  intros Hp Hr [H1 H2]%andb_true_iff. apply Z.leb_le in H1, H2.
  destruct (Z.ltb_spec (toordinal (start_date r)) (toordinal period_start)),
    (Z.ltb_spec (toordinal period_end) (toordinal (end_date r))); lia.
Qed.

(** X26: drafting with truncation: the run is never stopped; the leave written
    is the approved leave that overlaps the period, the preferences
    written are the preferences that overlap it, every row cut to the
    period and so inside it, in the order of the table; a request whose
    dates are in order keeps them in order when the period's are. *)
Theorem requests_truncated (leave_all pref_all : Table) :
  unique_index leave_all → unique_index pref_all →
  ∃ leave_rows pref_rows,
    leave_final period_start period_end true leave_all = Final leave_rows
    ∧ pref_final period_start period_end true pref_all = Final pref_rows
    ∧ leave_rows
      = (λ ir, (ir.1, clip ir.2))
          <$> where_ (λ r, approved r && overlaps r) leave_all
    ∧ pref_rows = (λ ir, (ir.1, clip ir.2)) <$> where_ overlaps pref_all
    ∧ Forall (λ ir, contained ir.2 = true) (leave_rows ++ pref_rows)
    ∧ (toordinal period_start <= toordinal period_end →
       Forall (λ ir, toordinal (start_date ir.2) <= toordinal (end_date ir.2))
         (leave_all ++ pref_all) →
       Forall (λ ir, toordinal (start_date ir.2) <= toordinal (end_date ir.2))
         (leave_rows ++ pref_rows)).
Proof.
  intros Hl Hp.
  assert (∀ df : Table,
            Forall (λ ir, contained ir.2 = true)
              ((λ ir, (ir.1, clip ir.2)) <$> where_ overlaps df)) as Hin.
  { intros df. apply Forall_fmap, Forall_forall. intros [i r] Hir. simpl.
    apply clip_overlapping. by apply list_elem_of_filter in Hir as [? _]. }
  assert (∀ df : Table,
            toordinal period_start <= toordinal period_end →
            Forall (λ ir, toordinal (start_date ir.2) <= toordinal (end_date ir.2)) df →
            Forall (λ ir, toordinal (start_date ir.2) <= toordinal (end_date ir.2))
              ((λ ir, (ir.1, clip ir.2)) <$> where_ overlaps df)) as Hord.
  { intros df Hpe Hdf. apply Forall_fmap, Forall_forall. intros [i r] Hir.
    apply list_elem_of_filter in Hir as [Ho Hir]. simpl in *.
    rewrite Forall_forall in Hdf.
    apply clip_ordered; [done | by apply (Hdf (i, r)) | done]. }
  exists ((λ ir, (ir.1, clip ir.2))
            <$> where_ (λ r, approved r && overlaps r) leave_all),
    ((λ ir, (ir.1, clip ir.2)) <$> where_ overlaps pref_all).
  split_and!.
  - unfold leave_final. rewrite leave_ok_eq, <- where_where.
    case_bool_decide as E; [by rewrite E|].
    by rewrite cut_to_period_truncate by (by apply where_index).
  - unfold pref_final. case_bool_decide as E; [by subst|].
    by rewrite cut_to_period_truncate.
  - done.
  - done.
  - apply Forall_app. split; [|apply Hin].
    rewrite <- where_where. apply Hin.
  - intros Hpe [Hla Hpa]%Forall_app. apply Forall_app. split.
    + rewrite <- where_where. apply Hord; [done|].
      apply Forall_forall. intros ir [_ Hir]%list_elem_of_filter.
      rewrite Forall_forall in Hla. by apply Hla.
    + by apply Hord.
Qed.

(** X27: drafting without truncation: the run is stopped exactly when an
    approved leave or, after that, a preference overlaps the period only
    in part, and the rows shown are those; otherwise the rows written are
    the requests that overlap the period, unchanged, all inside it. *)
Theorem requests_strict (leave_all pref_all : Table) :
  match leave_final period_start period_end false leave_all with
  | Stop partial =>
      partial ≠ []
      ∧ partial
        = where_ (λ r, approved r && overlaps r && negb (contained r))
            leave_all
  | Final rows =>
      where_ (λ r, approved r && overlaps r && negb (contained r)) leave_all
      = []
      ∧ rows = where_ (λ r, approved r && overlaps r) leave_all
      ∧ Forall (λ ir, contained ir.2 = true) rows
  end
  ∧ match pref_final period_start period_end false pref_all with
    | Stop partial =>
        partial ≠ []
        ∧ partial = where_ (λ r, overlaps r && negb (contained r)) pref_all
    | Final rows =>
        where_ (λ r, overlaps r && negb (contained r)) pref_all = []
        ∧ rows = where_ overlaps pref_all
        ∧ Forall (λ ir, contained ir.2 = true) rows
    end.
Proof.
  split.
  - unfold leave_final. rewrite leave_ok_eq.
    assert (∀ Q, where_ (λ r, approved r && Q r) leave_all
                 = where_ Q (where_ approved leave_all)) as Hw
      by (intros; by rewrite where_where).
    assert (where_ (λ r, approved r && overlaps r && negb (contained r)) leave_all
            = where_ (λ r, overlaps r && negb (contained r))
                (where_ approved leave_all)) as ->.
    { rewrite where_where. unfold where_. apply list_filter_iff.
      intros ir. simpl. by rewrite andb_assoc. }
    rewrite Hw.
    case_bool_decide as E; [by rewrite E|].
    apply cut_to_period_strict.
  - unfold pref_final. case_bool_decide as E; [by subst|].
    apply cut_to_period_strict.
Qed.

End Period.

End DraftingFacts.

(** ** The solver runs *)

Module SolverFacts.
Import PyStr PyExn Solver SolverSpec.
Import PyStrFacts.

Lemma solver_input_not_placeholder td : solver_input td ≠ py "OUT.xlsx".
Proof.
  unfold solver_input, path_join. intros E.
  apply (f_equal length) in E. rewrite !length_app in E. simpl in E. lia.
Qed.

(** The command an attempt runs: the placeholder is found, and replaced
    by the output file of the variant. *)
Lemma cmd2_attempt td i seed flags :
  cmd2 (strict_cmd td ++ flags) (out_file td i) seed
  = Ok (solver_cmd td i seed flags).
Proof.
  unfold cmd2, strict_cmd. cbn [app index].
  pose proof (solver_input_not_placeholder td).
  repeat (rewrite decide_False by done; cbn [fmap result_fmap]).
  rewrite decide_True by done. cbn [fmap result_fmap mbind result_bind].
  done.
Qed.

Lemma attempts_base_flags td b1 b2 :
  attempts_base td b1 b2
  = (λ a, (a.1, strict_cmd td ++ a.2)) <$> attempt_flags b1 b2.
Proof.
  unfold attempts_base, attempt_flags.
  destruct b1, b2; cbn; by rewrite ?app_nil_r.
Qed.

Section Oracle.
Context {bytes : Type}.
Context (save : pystr → result unit)
        (run : list pystr → result bool)
        (read_bytes : pystr → result bytes).

Lemma first_success_unique td i seed flags label label' :
  first_success run td i seed flags label →
  first_success run td i seed flags label' →
  label = label'.
Proof.
  intros (b1 & f1 & a1 & E1 & R1 & F1) (b2 & f2 & a2 & E2 & R2 & F2).
  subst flags. revert b2 E2 F2.
  induction F1 as [|x b1 Hx F1 IH]; intros b2 E2 F2.
  - destruct F2 as [|y b2 Hy F2]; cbn [app] in E2.
    + by injection E2 as -> _.
    + injection E2 as <- _. cbn [snd] in Hy. congruence.
  - destruct F2 as [|y b2 Hy F2]; cbn [app] in E2.
    + injection E2 as -> _. cbn [snd] in Hx. congruence.
    + injection E2 as _ E2. by apply (IH b2).
Qed.

Lemma first_success_not_all_fail td i seed flags label :
  first_success run td i seed flags label →
  ¬ Forall (λ a, run (solver_cmd td i seed a.2) = Ok false) flags.
Proof.
  intros (before & fl & after & -> & Hr & _) Hall.
  apply Forall_app in Hall as [_ Hall].
  apply Forall_cons in Hall as [Hfl _]. cbn [snd] in Hfl. congruence.
Qed.

(** The inner loop: the label of the first success, nothing when every
    attempt fails, the exception of the first run that raises. *)
Lemma try_attempts_spec td i seed flags :
  match try_attempts run ((λ a, (a.1, strict_cmd td ++ a.2)) <$> flags)
          (out_file td i) seed with
  | Ok (Some label) => first_success run td i seed flags label
  | Ok None => Forall (λ a, run (solver_cmd td i seed a.2) = Ok false) flags
  | Raise e =>
      ∃ before a after,
        flags = before ++ a :: after
        ∧ Forall (λ a, run (solver_cmd td i seed a.2) = Ok false) before
        ∧ run (solver_cmd td i seed a.2) = Raise e
  end.
Proof.
  induction flags as [|[label fl] flags IH]; [by constructor|].
  cbn [fmap list_fmap try_attempts fst snd].
  rewrite cmd2_attempt. cbn [mbind result_bind].
  destruct (run (solver_cmd td i seed fl)) as [[|]|e] eqn:Er;
    cbn [mbind result_bind].
  - by exists [], fl, flags.
  - destruct (try_attempts _ _ _ _) as [[label'|]|e].
    + destruct IH as (before & fl' & after & -> & Hr & Hb).
      exists ((label, fl) :: before), fl', after.
      split_and!; [done | done | by constructor].
    + by constructor.
    + destruct IH as (before & a & after & -> & Hb & Hr).
      exists ((label, fl) :: before), a, after.
      split_and!; [done | by constructor | done].
  - by exists [], (label, fl), flags.
Qed.

Lemma try_attempts_Raise td i seed flags e :
  try_attempts run ((λ a, (a.1, strict_cmd td ++ a.2)) <$> flags)
    (out_file td i) seed = Raise e →
  ¬ settles run read_bytes td i seed flags.
Proof.
  intros E. pose proof (try_attempts_spec td i seed flags) as Hs.
  rewrite E in Hs. clear E.
  destruct Hs as (before & a & after & -> & Hb & Hr).
  intros [(label & data & (b' & fl & a' & E' & Hfl & Hb') & _)|Hall].
  - revert b' E' Hb'.
    induction Hb as [|x before Hx Hb IH]; intros b' E' Hb'.
    + destruct Hb' as [|y b' Hy Hb']; cbn [app] in E'.
      * injection E' as ->. cbn [snd] in Hr. congruence.
      * injection E' as -> _. congruence.
    + destruct Hb' as [|y b' Hy Hb']; cbn [app] in E'.
      * injection E' as -> _. cbn [snd] in Hx. congruence.
      * injection E' as _ E'. by apply (IH b').
  - apply Forall_app in Hall as [_ Hall].
    apply Forall_cons in Hall as [Ha _]. congruence.
Qed.

(** The outer loop: while the attempts of every variant settle, it
    returns the variants that have a successful attempt, in the order of
    the seeds; otherwise it raises. *)
Lemma run_variants_spec td b1 b2 i seeds :
  match run_variants run read_bytes (attempts_base td b1 b2) td i seeds with
  | Ok results =>
      (∀ k seed, seeds !! k = Some seed →
                 settles run read_bytes td (i + Z.of_nat k) seed
                   (attempt_flags b1 b2))
      ∧ (∀ name data label,
           (name, data, label) ∈ results ↔
           ∃ k seed, seeds !! k = Some seed
                     ∧ name = variant_name (i + Z.of_nat k) seed
                     ∧ first_success run td (i + Z.of_nat k) seed
                         (attempt_flags b1 b2) label
                     ∧ read_bytes (out_file td (i + Z.of_nat k)) = Ok data)
      ∧ variant_names results
          `sublist_of` imap (λ k seed, variant_name (i + Z.of_nat k) seed) seeds
  | Raise _ =>
      ¬ ∀ k seed, seeds !! k = Some seed →
                  settles run read_bytes td (i + Z.of_nat k) seed
                    (attempt_flags b1 b2)
  end.
Proof.
  revert i. induction seeds as [|seed seeds IH]; intros i.
  - cbn [run_variants]. split_and!; [done | | done].
    intros. split; [by intros ?%elem_of_nil|]. by intros (k & s & ? & _).
  - cbn [run_variants].
    pose proof (try_attempts_spec td i seed (attempt_flags b1 b2)) as Ht.
    pose proof (try_attempts_Raise td i seed (attempt_flags b1 b2)) as Hr.
    rewrite <- attempts_base_flags in Ht, Hr.
    specialize (IH (i + 1)).
    assert (∀ P : Z → Z → Prop,
              (∀ k s, (seed :: seeds) !! k = Some s → P (i + Z.of_nat k) s)
              ↔ P i seed
                ∧ ∀ k s, seeds !! k = Some s → P (i + 1 + Z.of_nat k) s)
      as Hsplit.
    { intros P. split.
      - intros HP. split.
        + specialize (HP 0%nat seed eq_refl). by rewrite Z.add_0_r in HP.
        + intros k s Hk. specialize (HP (S k) s Hk).
          by replace (i + Z.of_nat (S k)) with (i + 1 + Z.of_nat k) in HP
            by lia.
      - intros [H0 HS] [|k] s Hk.
        + injection Hk as <-. by rewrite Z.add_0_r.
        + replace (i + Z.of_nat (S k)) with (i + 1 + Z.of_nat k) by lia.
          by apply HS. }
    assert (∀ name (data : bytes) label,
              (∃ k s, seeds !! k = Some s
                      ∧ name = variant_name (i + 1 + Z.of_nat k) s
                      ∧ first_success run td (i + 1 + Z.of_nat k) s
                          (attempt_flags b1 b2) label
                      ∧ read_bytes (out_file td (i + 1 + Z.of_nat k)) = Ok data)
              ↔ ∃ k s, (seed :: seeds) !! S k = Some s
                       ∧ name = variant_name (i + Z.of_nat (S k)) s
                       ∧ first_success run td (i + Z.of_nat (S k)) s
                           (attempt_flags b1 b2) label
                       ∧ read_bytes (out_file td (i + Z.of_nat (S k))) = Ok data)
      as Hshift.
    { intros name data label.
      split; intros (k & s & Hk & Hn & Hf); exists k, s.
      - by replace (i + Z.of_nat (S k)) with (i + 1 + Z.of_nat k) by lia.
      - by replace (i + 1 + Z.of_nat k) with (i + Z.of_nat (S k)) by lia. }
    assert (∀ l : list pystr,
              l `sublist_of` imap (λ k s, variant_name (i + 1 + Z.of_nat k) s)
                               seeds →
              l `sublist_of` imap ((λ k s, variant_name (i + Z.of_nat k) s) ∘ S)
                               seeds) as Hsub'.
    { intros l Hl.
      rewrite (imap_ext _ (λ k s, variant_name (i + 1 + Z.of_nat k) s));
        [done|].
      intros k s _. simpl. f_equal. lia. }
    pose (SP := λ j s, settles run read_bytes td j s (attempt_flags b1 b2)).
    specialize (Hsplit SP). subst SP. cbv beta in Hsplit.
    destruct (try_attempts _ _ _ _) as [[label|]|e]; cbn [mbind result_bind].
    + destruct (read_bytes (out_file td i)) as [data|e] eqn:Ed;
        cbn [mbind result_bind].
      * destruct (run_variants _ _ _ _ _ _) as [rest|e];
          cbn [mbind result_bind].
        -- destruct IH as (Hset & Hin & Hsub). split_and!.
           ++ apply Hsplit. split; [|done]. left. by exists label, data.
           ++ intros name' data' label'. rewrite elem_of_cons, Hin, Hshift.
              split.
              ** intros [[= -> -> ->]|(k & s & ?)]; [|by exists (S k), s].
                 exists 0%nat, seed. by rewrite Z.add_0_r.
              ** intros ([|k] & s & Hk & -> & Hf & Hd).
                 --- left. simplify_eq/=. rewrite Z.add_0_r in *.
                     rewrite (first_success_unique _ _ _ _ _ _ Ht Hf).
                     congruence.
                 --- right. by exists k, s.
           ++ rewrite imap_cons. cbn [variant_names fmap list_fmap fst].
              rewrite Z.add_0_r. constructor. by apply Hsub'.
        -- intros Hall. apply Hsplit in Hall as [_ Hall]. by apply IH.
      * intros Hall. apply Hsplit in Hall as [Hall _].
        destruct Hall as [(label' & data' & Hf & Hd)|Hall].
        -- congruence.
        -- by apply (first_success_not_all_fail _ _ _ _ _ Ht).
    + destruct (run_variants _ _ _ _ _ _) as [rest|e].
      * destruct IH as (Hset & Hin & Hsub). split_and!.
        -- apply Hsplit. split; [by right | done].
        -- intros name' data' label'. rewrite Hin, Hshift. split.
           ++ intros (k & s & ?). by exists (S k), s.
           ++ intros ([|k] & s & Hk & -> & Hf & Hd); [|by exists k, s].
              simplify_eq/=. rewrite Z.add_0_r in *.
              by destruct (first_success_not_all_fail _ _ _ _ _ Hf).
        -- rewrite imap_cons. constructor. by apply Hsub'.
      * intros Hall. apply Hsplit in Hall as [_ Hall]. by apply IH.
    + intros Hall. apply Hsplit in Hall as [Hall _]. by apply (Hr e).
Qed.

(** X28: a drafting run returns exactly when nothing it asks of its
    environment raises: the workbook is saved and, for each of the three
    variants, either an attempt succeeds after failures only and its
    output file can be read, or every attempt fails; otherwise it raises.
    When it returns, its results are the variants 1, 2, 3 of the seeds 11,
    22, 33 that have a successful attempt, in that order, each with the
    label of its first successful attempt in the order Strict, Relax
    week-gap, Relax no-consec-weekends, Relax BOTH (the relaxed ones only
    when their checkboxes are set) and the bytes read from its output
    file; there is no result exactly when every attempt of every variant
    fails.  The names of the results are pairwise distinct. *)
Theorem draft_results td relax_week_gap relax_no_consec_weekends :
  match draft save run read_bytes td relax_week_gap relax_no_consec_weekends
  with
  | Ok r =>
      env_returns save run read_bytes td relax_week_gap
        relax_no_consec_weekends
      ∧ ∃ results,
          r = (if bool_decide (results = []) then None else Some results)
          ∧ (∀ name data label,
               (name, data, label) ∈ results ↔
               ∃ i seed, (i, seed) ∈ [(1, 11); (2, 22); (3, 33)]
                         ∧ name = variant_name i seed
                         ∧ first_success run td i seed
                             (attempt_flags relax_week_gap
                                relax_no_consec_weekends) label
                         ∧ read_bytes (out_file td i) = Ok data)
          ∧ variant_names results
              `sublist_of` [variant_name 1 11; variant_name 2 22;
                            variant_name 3 33]
          ∧ NoDup (variant_names results)
  | Raise _ =>
      ¬ env_returns save run read_bytes td relax_week_gap
          relax_no_consec_weekends
  end.
Proof.
  unfold draft, env_returns.
  assert (∀ P : Z → Z → Prop,
            (∀ i seed, (i, seed) ∈ [(1, 11); (2, 22); (3, 33)] → P i seed)
            ↔ ∀ k seed, variant_seeds !! k = Some seed
                        → P (1 + Z.of_nat k) seed) as Hidx.
  { intros P. split.
    - intros HP k seed Hk. apply HP.
      destruct k as [|[|[|k]]]; simplify_eq/=;
        [by left | by right; left | by right; right; left].
    - intros HP i seed Hi.
      repeat (apply elem_of_cons in Hi as [[= -> ->]|Hi]);
        [apply (HP 0%nat 11) | apply (HP 1%nat 22) | apply (HP 2%nat 33) |];
        try done.
      by apply elem_of_nil in Hi. }
  specialize (Hidx (λ j s, settles run read_bytes td j s
                             (attempt_flags relax_week_gap
                                relax_no_consec_weekends))).
  cbv beta in Hidx.
  destruct (save (solver_input td)) as [u|e] eqn:Es; cbn [mbind result_bind].
  2:{ by intros [[u ?] _]. }
  pose proof (run_variants_spec td relax_week_gap relax_no_consec_weekends 1
                variant_seeds) as Hs.
  destruct (run_variants _ _ _ _ _ _) as [results|e]; cbn [mbind result_bind].
  - destruct Hs as (Hset & Hin & Hsub).
    split; [split; [by exists u | by apply Hidx]|].
    exists results. split_and!; [done | | done |].
    + intros name data label. rewrite Hin. split.
      * intros (k & seed & Hk & -> & Hf).
        exists (1 + Z.of_nat k), seed. split; [|done].
        destruct k as [|[|[|k]]]; simplify_eq/=;
          [by left | by right; left | by right; right; left].
      * intros (i & seed & Hi & -> & Hf).
        repeat (apply elem_of_cons in Hi as [[= -> ->]|Hi]);
          [by exists 0%nat, 11 | by exists 1%nat, 22 | by exists 2%nat, 33|].
        by apply elem_of_nil in Hi.
    + eapply sublist_NoDup; [|exact Hsub].
      apply (bool_decide_unpack _). by vm_compute.
  - intros [_ Hall]. apply Hs. by apply Hidx.
Qed.

End Oracle.

End SolverFacts.

(** ** The Leave sheet *)

Module LeaveSheetFacts.
Import PyStr PyExn PyDate Openpyxl VariantDiff CellLabel Drafting LeaveSheet.
Import PyStrFacts CellLabelFacts.

(** The order of the table is the order of its rows. *)
Lemma Sorted_rows (df : Table) :
  Sorted (λ x y, row_le x.2 y.2) df → Sorted row_le df.*2.
Proof.
  induction 1 as [|x l Hl IH Hx]; simpl; constructor; [done|].
  destruct Hx; simpl; by constructor.
Qed.

Section Cells.
Context {O : Type}.

Local Abbreviation sheet := (gmap (Z * Z) (LeaveSheet.cell O)).
Local Abbreviation cell := (LeaveSheet.cell O).
Local Abbreviation value := (LeaveSheet.value O).

Lemma getitem_label (ws : sheet) r c :
  1 <= r → 1 <= c →
  getitem ws (get_column_letter c ++ str_int r) = cell_at ws r c.
Proof.
  intros Hr Hc. unfold getitem, cell_at.
  by rewrite coordinate_round_trip.
Qed.

Lemma cell_at_insert (ws : sheet) r c v r' c' :
  cell_at (<[(r, c) := v]> ws) r' c'
  = if bool_decide ((r', c') = (r, c)) then v else cell_at ws r' c'.
Proof.
  unfold cell_at. case_bool_decide as E.
  - rewrite E. by rewrite lookup_insert_eq.
  - by rewrite lookup_insert_ne.
Qed.

Lemma cell_at_insert_ne (ws : sheet) r c v r' c' :
  (r', c') ≠ (r, c) → cell_at (<[(r, c) := v]> ws) r' c' = cell_at ws r' c'.
Proof. intros. by rewrite cell_at_insert, bool_decide_eq_false_2. Qed.

(** Assigning to a cell by its label. *)
Lemma set_value_label (ws : sheet) r c (v : value) :
  1 <= r → 1 <= c →
  set_value ws (get_column_letter c ++ str_int r) v
  = match cell_at ws r c with
    | MergedCell => Raise AttributeError
    | Cell _ =>
        match v with
        | VStr s =>
            if existsb illegal (take (Z.to_nat 32767) s)
            then Raise IllegalCharacterError
            else Ok (<[(r, c) := Cell (VStr (take (Z.to_nat 32767) s))]> ws)
        | _ => Ok (<[(r, c) := Cell v]> ws)
        end
    end.
Proof.
  intros Hr Hc. unfold set_value. rewrite getitem_label by done.
  rewrite coordinate_round_trip by done.
  destruct (cell_at ws r c); [|done].
  destruct v; try done. unfold check_string.
  by destruct (existsb illegal _).
Qed.

(** *** Clearing *)

Lemma clear_cols_spec (ws : sheet) r cols :
  1 <= r → Forall (λ c, 1 <= c) cols →
  (Forall (λ c, cell_at ws r c ≠ MergedCell) cols →
   clear_cols ws r (get_column_letter <$> cols)
   = Ok (foldl (λ w c, <[(r, c) := Cell VNone]> w) ws cols))
  ∧ (Exists (λ c, cell_at ws r c = MergedCell) cols →
     clear_cols ws r (get_column_letter <$> cols) = Raise AttributeError).
Proof.
  intros Hr Hcols. revert ws.
  induction Hcols as [|c cols Hc _ IH]; intros ws.
  { split; [done | by intros ?%Exists_nil]. }
  cbn [fmap list_fmap clear_cols foldl].
  rewrite set_value_label by done.
  destruct (cell_at ws r c) as [v|] eqn:Ec.
  - cbn [mbind result_bind].
    assert (∀ c', cell_at (<[(r, c) := Cell VNone]> ws) r c' = MergedCell
                  ↔ cell_at ws r c' = MergedCell) as Hsame.
    { intros c'. rewrite cell_at_insert. case_bool_decide as E; [|done].
      injection E as ->. rewrite Ec. split; by intros [=]. }
    destruct (IH (<[(r, c) := Cell VNone]> ws)) as [IH1 IH2]. split.
    + intros [_ Hf]%Forall_cons. apply IH1.
      eapply Forall_impl; [exact Hf|]. intros c' Hc'. by rewrite Hsame.
    + intros [Hm|Hex]%Exists_cons; [congruence|]. apply IH2.
      eapply Exists_impl; [exact Hex|]. intros c' Hc'. by rewrite Hsame.
  - split; [|done]. by intros [? _]%Forall_cons.
Qed.

Lemma clear_row_unfold (ws : sheet) r :
  clear_row ws r = clear_cols ws r (get_column_letter <$> [1; 2; 3; 4; 5]).
Proof. done. Qed.

Lemma clear_row_Ok (ws : sheet) r :
  1 <= r → unmerged ws r 1 →
  ∃ ws', clear_row ws r = Ok ws'
         ∧ ∀ r' c', cell_at ws' r' c'
                    = if bool_decide (r' = r ∧ 1 <= c' <= 5) then Cell VNone
                      else cell_at ws r' c'.
Proof.
  intros Hr Hu. rewrite clear_row_unfold.
  destruct (clear_cols_spec ws r [1; 2; 3; 4; 5] Hr
              ltac:(repeat (constructor; [lia|]); constructor)) as [H1 _].
  rewrite H1.
  2:{ apply Forall_forall. intros c Hc. apply Hu; [lia|].
      repeat (apply elem_of_cons in Hc as [->|Hc]); try lia.
      by apply elem_of_nil in Hc. }
  eexists. split; [done|]. intros r' c'. cbn [foldl].
  rewrite !cell_at_insert.
  destruct (decide (r' = r ∧ 1 <= c' <= 5)) as [[-> Hc]|Hn].
  - rewrite (bool_decide_eq_true_2 (r = r ∧ _)) by done.
    assert (c' = 1 ∨ c' = 2 ∨ c' = 3 ∨ c' = 4 ∨ c' = 5) as Hcases by lia.
    destruct Hcases as [->|[->|[->|[->| ->]]]];
      repeat first [ rewrite bool_decide_eq_true_2 by done
                   | rewrite bool_decide_eq_false_2 by (by intros [=]) ];
      done.
  - rewrite (bool_decide_eq_false_2 (r' = r ∧ _)) by done.
    rewrite !bool_decide_eq_false_2; [done|..]; intros [= -> ->]; lia.
Qed.

Lemma clear_row_Raise (ws : sheet) r c :
  1 <= r → 1 <= c <= 5 → cell_at ws r c = MergedCell →
  clear_row ws r = Raise AttributeError.
Proof.
  intros Hr Hc Hm. rewrite clear_row_unfold.
  destruct (clear_cols_spec ws r [1; 2; 3; 4; 5] Hr
              ltac:(repeat (constructor; [lia|]); constructor)) as [_ H2].
  apply H2. apply Exists_exists. exists c. split; [|done].
  assert (c = 1 ∨ c = 2 ∨ c = 3 ∨ c = 4 ∨ c = 5) as Hcases by lia.
  destruct Hcases as [->|[->|[->|[->| ->]]]];
    repeat first [by left | right].
Qed.

(** The count of filled rows reads column A in the listed rows only. *)
Lemma filled_rows_ext (ws ws' : sheet) rows :
  (∀ r, r ∈ rows → cell_at ws r 1 = cell_at ws' r 1) →
  filled_rows ws rows = filled_rows ws' rows.
Proof.
  induction rows as [|r rows IH]; intros Hext; simpl; [done|].
  rewrite (Hext r) by left.
  rewrite IH; [done|]. intros r' Hr'. apply Hext. by right.
Qed.

Lemma filled_rows_bounds (ws : sheet) rows :
  0 <= filled_rows ws rows <= Z.of_nat (length rows).
Proof.
  induction rows as [|r rows IH]; simpl; [lia|].
  destruct (is_empty _); lia.
Qed.

(** The first row after the filled ones has an empty cell in column A,
    unless all the listed rows are filled. *)
Lemma filled_rows_stop (ws : sheet) a m :
  filled_rows ws (seqZ a (Z.of_nat m)) < Z.of_nat m →
  is_empty (cell_value
              (cell_at ws (a + filled_rows ws (seqZ a (Z.of_nat m))) 1))
  = true.
Proof.
  revert a. induction m as [|m IH]; intros a; [simpl; lia|].
  rewrite Nat2Z.inj_succ, seqZ_cons by lia.
  replace (Z.pred (Z.succ (Z.of_nat m))) with (Z.of_nat m) by lia.
  cbn [filled_rows]. destruct (is_empty (cell_value (cell_at ws a 1))) eqn:E.
  - intros _. by rewrite Z.add_0_r.
  - intros Hlt.
    replace (a + (1 + filled_rows ws (seqZ (Z.succ a) (Z.of_nat m))))
      with (Z.succ a + filled_rows ws (seqZ (Z.succ a) (Z.of_nat m))) by lia.
    apply IH. lia.
Qed.

Lemma seqZ_succ a m :
  seqZ a (Z.of_nat (S m)) = a :: seqZ (Z.succ a) (Z.of_nat m).
Proof.
  rewrite Nat2Z.inj_succ, seqZ_cons by lia. do 2 f_equal. lia.
Qed.

(** The clearing loop, on a block without merged cells: it empties the
    columns A to E of the filled rows and nothing else. *)
Lemma clear_rows_Ok (ws : sheet) a m :
  1 <= a →
  unmerged ws a (filled_rows ws (seqZ a (Z.of_nat m))) →
  ∃ ws', clear_rows (seqZ a (Z.of_nat m)) ws = Ok ws'
         ∧ ∀ r c, cell_at ws' r c
                  = if bool_decide
                         (a <= r < a + filled_rows ws (seqZ a (Z.of_nat m))
                          ∧ 1 <= c <= 5)
                    then Cell VNone else cell_at ws r c.
Proof.
  revert a ws. induction m as [|m IH]; intros a ws Ha Hu.
  { exists ws. split; [done|]. intros r c. simpl.
    rewrite bool_decide_eq_false_2; [done | lia]. }
  rewrite seqZ_succ in *. cbn [clear_rows filled_rows] in *.
  change (py "A") with (get_column_letter 1).
  rewrite getitem_label by lia.
  destruct (is_empty (cell_value (cell_at ws a 1))) eqn:E.
  { exists ws. split; [done|]. intros r c.
    rewrite bool_decide_eq_false_2; [done | lia]. }
  pose proof (filled_rows_bounds ws (seqZ (Z.succ a) (Z.of_nat m))) as Hb.
  destruct (clear_row_Ok ws a Ha) as (ws1 & -> & H1).
  { intros r c Hr Hc. apply Hu; [lia | done]. }
  cbn [mbind result_bind].
  assert (filled_rows ws1 (seqZ (Z.succ a) (Z.of_nat m))
          = filled_rows ws (seqZ (Z.succ a) (Z.of_nat m))) as Hk.
  { apply filled_rows_ext. intros r' Hr'. apply elem_of_seqZ in Hr'.
    rewrite H1. rewrite bool_decide_eq_false_2; [done | lia]. }
  destruct (IH (Z.succ a) ws1 ltac:(lia)) as (ws' & -> & H').
  { rewrite Hk. intros r c Hr Hc. rewrite H1.
    rewrite bool_decide_eq_false_2 by lia. apply Hu; [lia | done]. }
  exists ws'. split; [done|]. intros r c. rewrite H', Hk, H1.
  repeat case_bool_decide; try done; lia.
Qed.

Lemma row_merged_cases (ws : sheet) a :
  unmerged ws a 1 ∨ ∃ c, 1 <= c <= 5 ∧ cell_at ws a c = MergedCell.
Proof.
  destruct (cell_at ws a 1) eqn:E1; [|right; by exists 1].
  destruct (cell_at ws a 2) eqn:E2; [|right; by exists 2].
  destruct (cell_at ws a 3) eqn:E3; [|right; by exists 3].
  destruct (cell_at ws a 4) eqn:E4; [|right; by exists 4].
  destruct (cell_at ws a 5) eqn:E5; [|right; by exists 5].
  left. intros r c Hr Hc. assert (r = a) as -> by lia.
  assert (c = 1 ∨ c = 2 ∨ c = 3 ∨ c = 4 ∨ c = 5) as Hcases by lia.
  destruct Hcases as [->|[->|[->|[->| ->]]]]; congruence.
Qed.

(** The clearing loop raises on a merged cell in the block. *)
Lemma clear_rows_Raise (ws : sheet) a m r c :
  1 <= a →
  a <= r < a + filled_rows ws (seqZ a (Z.of_nat m)) → 1 <= c <= 5 →
  cell_at ws r c = MergedCell →
  clear_rows (seqZ a (Z.of_nat m)) ws = Raise AttributeError.
Proof.
  revert a ws. induction m as [|m IH]; intros a ws Ha Hr Hc Hm.
  { simpl in Hr. lia. }
  rewrite seqZ_succ in *. cbn [clear_rows filled_rows] in *.
  change (py "A") with (get_column_letter 1).
  rewrite getitem_label by lia.
  destruct (is_empty (cell_value (cell_at ws a 1))) eqn:E; [lia|].
  destruct (row_merged_cases ws a) as [Hu|(c' & Hc' & Hm')].
  - destruct (clear_row_Ok ws a Ha Hu) as (ws1 & -> & H1).
    cbn [mbind result_bind].
    assert (r ≠ a) as Hne.
    { intros ->. by apply (Hu a c); [lia | done |]. }
    apply (IH (Z.succ a) ws1); [lia | | done |].
    + rewrite (filled_rows_ext ws1 ws); [lia|].
      intros r' Hr'. apply elem_of_seqZ in Hr'.
      rewrite H1. rewrite bool_decide_eq_false_2; [done | lia].
    + rewrite H1. rewrite bool_decide_eq_false_2; [done | lia].
  - by rewrite (clear_row_Raise ws a c').
Qed.

(** *** Writing *)

(** One turn of the writing loop, on a row without merged cells. *)
Lemma write_rows_cons (ws : sheet) r rec recs :
  1 <= r → unmerged ws r 1 →
  ∃ ws1,
    write_rows ws r (rec :: recs)
    = (if existsb illegal (take (Z.to_nat 32767) (consultant_name rec))
          || existsb illegal (take (Z.to_nat 32767) (leave_type rec))
       then Raise IllegalCharacterError
       else write_rows ws1 (r + 1) recs)
    ∧ ∀ r' c, cell_at ws1 r' c
              = if bool_decide (r' = r ∧ 1 <= c <= 5)
                then Cell (leave_cell rec c) else cell_at ws r' c.
Proof.
  intros Hr Hu.
  exists (<[(r, 5) := Cell (VBool true)]>
            (<[(r, 4) := Cell (VStr (take (Z.to_nat 32767) (leave_type rec)))]>
               (<[(r, 3) := Cell (VDate (end_date rec))]>
                  (<[(r, 2) := Cell (VDate (start_date rec))]>
                     (<[(r, 1) :=
                          Cell (VStr (take (Z.to_nat 32767)
                                        (consultant_name rec)))]> ws))))).
  split.
  - cbn [write_rows].
    change (py "A") with (get_column_letter 1).
    change (py "B") with (get_column_letter 2).
    change (py "C") with (get_column_letter 3).
    change (py "D") with (get_column_letter 4).
    change (py "E") with (get_column_letter 5).
    pose proof (Hu r 1 ltac:(lia) ltac:(lia)) as H1.
    pose proof (Hu r 2 ltac:(lia) ltac:(lia)) as H2.
    pose proof (Hu r 3 ltac:(lia) ltac:(lia)) as H3.
    pose proof (Hu r 4 ltac:(lia) ltac:(lia)) as H4.
    pose proof (Hu r 5 ltac:(lia) ltac:(lia)) as H5.
    rewrite set_value_label by lia.
    destruct (cell_at ws r 1); [|done].
    destruct (existsb illegal (take _ (consultant_name rec))); [done|].
    cbn [mbind result_bind orb].
    rewrite set_value_label by lia.
    rewrite !cell_at_insert_ne by (intros [=]; lia).
    destruct (cell_at ws r 2); [|done]. cbn [mbind result_bind].
    rewrite set_value_label by lia.
    rewrite !cell_at_insert_ne by (intros [=]; lia).
    destruct (cell_at ws r 3); [|done]. cbn [mbind result_bind].
    rewrite set_value_label by lia.
    rewrite !cell_at_insert_ne by (intros [=]; lia).
    destruct (cell_at ws r 4); [|done].
    destruct (existsb illegal (take _ (leave_type rec))); [done|].
    cbn [mbind result_bind].
    rewrite set_value_label by lia.
    rewrite !cell_at_insert_ne by (intros [=]; lia).
    destruct (cell_at ws r 5); [|done]. by cbn [mbind result_bind].
  - intros r' c. rewrite !cell_at_insert. unfold leave_cell.
    destruct (decide (r' = r ∧ 1 <= c <= 5)) as [[-> Hc]|Hn].
    + rewrite (bool_decide_eq_true_2 (r = r ∧ _)) by done.
      assert (c = 1 ∨ c = 2 ∨ c = 3 ∨ c = 4 ∨ c = 5) as Hcases by lia.
      destruct Hcases as [->|[->|[->|[->| ->]]]];
        repeat first [ rewrite bool_decide_eq_true_2 by done
                     | rewrite bool_decide_eq_false_2 by (by intros [=]) ];
        done.
    + rewrite (bool_decide_eq_false_2 (r' = r ∧ _)) by done.
      rewrite !bool_decide_eq_false_2; [done|..]; intros [= -> ->]; lia.
Qed.

Lemma legal_row_dec (rec : Request) :
  legal_row rec
  ↔ existsb illegal (take (Z.to_nat 32767) (consultant_name rec))
    || existsb illegal (take (Z.to_nat 32767) (leave_type rec)) = false.
Proof. unfold legal_row. by rewrite orb_false_iff. Qed.

Lemma unmerged_step (ws ws1 : sheet) r n :
  unmerged ws r (Z.of_nat (S n)) →
  (∀ r' c, r' ≠ r → cell_at ws1 r' c = cell_at ws r' c) →
  unmerged ws r 1 ∧ unmerged ws1 (r + 1) (Z.of_nat n).
Proof.
  intros Hu H1. split.
  - intros r' c Hr' Hc. apply Hu; [lia | done].
  - intros r' c Hr' Hc. rewrite H1 by lia. apply Hu; [lia | done].
Qed.

(** The writing loop fails when a row has a text that is refused. *)
Lemma write_rows_Raise (ws : sheet) r recs :
  1 <= r → unmerged ws r (Z.of_nat (length recs)) →
  ¬ Forall legal_row recs →
  write_rows ws r recs = Raise IllegalCharacterError.
Proof.
  revert ws r. induction recs as [|rec recs IH]; intros ws r Hr Hu Hn.
  - by destruct Hn.
  - cbn [length] in Hu.
    destruct (write_rows_cons ws r rec recs Hr) as (ws1 & -> & H1).
    { intros r' c Hr' Hc. apply Hu; [lia | done]. }
    destruct (_ || _) eqn:E; [done|].
    apply IH; [lia | |].
    + eapply (unmerged_step ws ws1 r); [done|].
      intros r' c Hne. rewrite H1.
      rewrite bool_decide_eq_false_2; [done | by intros [? _]].
    + intros Hrecs. apply Hn. constructor; [|done].
      by apply legal_row_dec.
Qed.

(** With texts that are accepted, the loop puts row [i] of the table into
    the sheet's row [r + i] and changes nothing else. *)
Lemma write_rows_Ok (ws : sheet) r recs :
  1 <= r → unmerged ws r (Z.of_nat (length recs)) →
  Forall legal_row recs →
  ∃ ws', write_rows ws r recs = Ok ws'
    ∧ (∀ (i : nat) rec c, recs !! i = Some rec → 1 <= c <= 5 →
         cell_at ws' (r + Z.of_nat i) c = Cell (leave_cell rec c))
    ∧ (∀ r' c, ¬ (r <= r' < r + Z.of_nat (length recs) ∧ 1 <= c <= 5) →
         cell_at ws' r' c = cell_at ws r' c).
Proof.
  revert ws r. induction recs as [|rec recs IH]; intros ws r Hr Hu Hl.
  - exists ws. by split_and!.
  - apply Forall_cons in Hl as [Hrec Hl]. cbn [length] in Hu.
    destruct (write_rows_cons ws r rec recs Hr) as (ws1 & -> & H1).
    { intros r' c Hr' Hc. apply Hu; [lia | done]. }
    rewrite (proj1 (legal_row_dec rec) Hrec).
    destruct (IH ws1 (r + 1) ltac:(lia)) as (ws' & -> & Hin & Hout);
      [|done|].
    { eapply (unmerged_step ws ws1 r); [done|].
      intros r' c Hne. rewrite H1.
      rewrite bool_decide_eq_false_2; [done | by intros [? _]]. }
    exists ws'. split_and!; [done | |].
    + intros [|i] rec' c Hi Hc.
      * injection Hi as <-. rewrite Hout by lia.
        rewrite Z.add_0_r, H1. by rewrite bool_decide_eq_true_2.
      * replace (r + Z.of_nat (S i)) with (r + 1 + Z.of_nat i) by lia.
        by apply Hin.
    + intros r' c Hn. cbn [length] in Hn. rewrite Hout by lia.
      rewrite H1. rewrite bool_decide_eq_false_2; [done | lia].
Qed.

Context `{SortByStartName}.

Lemma range_2_5000 : range 2 5000 = seqZ 2 (Z.of_nat (Z.to_nat 4998)).
Proof. done. Qed.

(** The whole step on a template without merged cells where it clears
    and writes, told cell by cell. *)
Lemma write_leave_sheet_cells (lws : sheet) (leave_final : Table) :
  unmerged lws 2 (Z.of_nat (length leave_final)
                  `max` filled_rows lws (range 2 5000)) →
  ∃ cleared,
    clear_rows (range 2 5000) lws = Ok cleared
    ∧ unmerged cleared 2 (Z.of_nat (length (sort_by_start_name leave_final).*2))
    ∧ ∀ r c, cell_at cleared r c
             = if bool_decide (2 <= r < 2 + filled_rows lws (range 2 5000)
                               ∧ 1 <= c <= 5)
               then Cell VNone else cell_at lws r c.
Proof.
  intros Hu. rewrite range_2_5000 in *.
  destruct (clear_rows_Ok lws 2 (Z.to_nat 4998) ltac:(lia))
    as (cleared & E & Hcl).
  { intros r c Hr Hc. apply Hu; [lia | done]. }
  exists cleared. split_and!; [done | | done].
  rewrite length_fmap, sort_by_start_name_perm.
  intros r c Hr Hc. rewrite Hcl. case_bool_decide; [done|].
  apply Hu; [lia | done].
Qed.

(** X29: when every name and leave type is accepted as a cell text and no
    merged cell lies in the columns A to E of the rows the step clears or
    writes, the step returns the sheet in which the rows from 2 on hold
    the leave in the order of start date, then name, one request a row in
    the columns A to E (texts cut to 32767 characters, column E true);
    the rows of the template's filled block below them are emptied in A
    to E; every other cell is as in the template.  The filled block is
    the run of rows from 2 on, at most 4998 of them, whose cell in column
    A is not empty.  When the leave has no more rows than that block and
    the block stops before row 5000, the cell in column A right under the
    written rows is empty. *)
Theorem leave_sheet_written (lws : sheet) (leave_final : Table) :
  Forall legal_row leave_final.*2 →
  unmerged lws 2 (Z.of_nat (length leave_final)
                  `max` filled_rows lws (range 2 5000)) →
  ∃ rs ws',
    rs ≡ₚ leave_final.*2
    ∧ Sorted row_le rs
    ∧ write_leave_sheet lws leave_final = Ok ws'
    ∧ (∀ (i : nat) rec c, rs !! i = Some rec → 1 <= c <= 5 →
         cell_at ws' (2 + Z.of_nat i) c = Cell (leave_cell rec c))
    ∧ (∀ r c, 2 + Z.of_nat (length rs) <= r
              < 2 + filled_rows lws (range 2 5000) →
              1 <= c <= 5 → cell_at ws' r c = Cell VNone)
    ∧ (∀ r c, ¬ (2 <= r < 2 + Z.of_nat (length rs)
                           `max` filled_rows lws (range 2 5000)
                 ∧ 1 <= c <= 5) →
         cell_at ws' r c = cell_at lws r c)
    ∧ (Z.of_nat (length rs) <= filled_rows lws (range 2 5000) < 4998 →
       is_empty (cell_value (cell_at ws' (2 + Z.of_nat (length rs)) 1))
       = true).
Proof.
  intros Hl Hu.
  destruct (write_leave_sheet_cells lws leave_final Hu)
    as (cleared & Ec & Hcu & Hcl).
  assert (Forall legal_row (sort_by_start_name leave_final).*2) as Hl'.
  { by rewrite sort_by_start_name_perm. }
  assert (length (sort_by_start_name leave_final).*2 = length leave_final)
    as Hlen.
  { by rewrite length_fmap, sort_by_start_name_perm. }
  destruct (write_rows_Ok cleared 2 _ ltac:(lia) Hcu Hl')
    as (ws1 & Ew & Hin & Hout).
  set (rs := (sort_by_start_name leave_final).*2) in *.
  assert (∃ ws', write_leave_sheet lws leave_final = Ok ws'
                 ∧ (∀ r c, cell_at ws' r c = cell_at ws1 r c))
    as (ws' & E & Hsame).
  { unfold write_leave_sheet. rewrite Ec. cbn [mbind result_bind].
    case_bool_decide as Hempty; [|by exists ws1].
    exists cleared. split; [done|]. intros r c.
    assert (rs = []) as Hrs.
    { subst rs leave_final. pose proof (sort_by_start_name_perm []) as Hp.
      apply Permutation_nil_r in Hp. by rewrite Hp. }
    rewrite Hout; [done|]. rewrite Hrs. cbn [length]. lia. }
  exists rs, ws'. split_and!.
  - subst rs. by rewrite sort_by_start_name_perm.
  - apply Sorted_rows, sort_by_start_name_sorted.
  - done.
  - intros i rec c Hi Hc. rewrite Hsame. by apply Hin.
  - intros r c Hr Hc. rewrite Hsame, Hout by lia. rewrite Hcl.
    rewrite bool_decide_eq_true_2; [done | lia].
  - intros r c Hn. rewrite Hsame, Hout by lia. rewrite Hcl.
    rewrite bool_decide_eq_false_2; [done | lia].
  - intros Hk. rewrite Hsame, Hout by lia. rewrite Hcl.
    case_bool_decide as Hb; [done|].
    assert (Z.of_nat (length rs) = filled_rows lws (range 2 5000)) as ->
      by lia.
    rewrite range_2_5000 in *. apply filled_rows_stop. lia.
Qed.

(** X30: a merged cell in the columns A to E of the template's filled block
    makes the step raise [AttributeError], whatever is to be written.  On
    a template without merged cells in the columns A to E of the rows
    the step clears or writes, the step raises [IllegalCharacterError]
    exactly when the name or the leave type of a request to write has,
    among its first 32767 characters, a control character other than
    tab, line feed and carriage return. *)
Theorem leave_sheet_refused (lws : sheet) (leave_final : Table) :
  (∀ r c, 2 <= r < 2 + filled_rows lws (range 2 5000) → 1 <= c <= 5 →
          cell_at lws r c = MergedCell →
          write_leave_sheet lws leave_final = Raise AttributeError)
  ∧ (unmerged lws 2 (Z.of_nat (length leave_final)
                     `max` filled_rows lws (range 2 5000)) →
     (write_leave_sheet lws leave_final = Raise IllegalCharacterError
      ↔ ¬ Forall legal_row leave_final.*2)).
Proof.
  split.
  - intros r c Hr Hc Hm. unfold write_leave_sheet.
    rewrite range_2_5000 in *.
    by rewrite (clear_rows_Raise lws 2 (Z.to_nat 4998) r c).
  - intros Hu.
    destruct (write_leave_sheet_cells lws leave_final Hu)
      as (cleared & Ec & Hcu & Hcl).
    unfold write_leave_sheet. rewrite Ec. cbn [mbind result_bind].
    split.
    + intros E Hl. case_bool_decide; [done|].
      destruct (write_rows_Ok cleared 2 (sort_by_start_name leave_final).*2
                  ltac:(lia) Hcu) as (ws' & E' & _).
      * by rewrite sort_by_start_name_perm.
      * congruence.
    + intros Hn. rewrite bool_decide_eq_false_2.
      * apply write_rows_Raise; [lia | done |].
        by rewrite sort_by_start_name_perm.
      * intros ->. apply Hn. constructor.
Qed.

End Cells.

(** *** Insertion sort meets the contract of the sort *)

Lemma pystr_le_total a b : pystr_le a b = false → pystr_le b a = true.
Proof.
  revert b. induction a as [|x a IH]; intros [|y b]; simpl; try done.
  destruct (N.ltb_spec x y), (N.ltb_spec y x); try done; try lia.
  apply IH.
Qed.

Lemma row_leb_le r1 r2 : row_leb r1 r2 = true → row_le r1 r2.
Proof.
  unfold row_leb, row_le.
  destruct (Z.ltb_spec (toordinal (start_date r1)) (toordinal (start_date r2)));
    [by left|].
  destruct (Z.eqb_spec (toordinal (start_date r1)) (toordinal (start_date r2)));
    [|done].
  simpl. by right.
Qed.

Lemma row_leb_total r1 r2 : row_leb r1 r2 = false → row_le r2 r1.
Proof.
  unfold row_leb, row_le.
  destruct (Z.ltb_spec (toordinal (start_date r1)) (toordinal (start_date r2)));
    [done|].
  destruct (Z.eqb_spec (toordinal (start_date r1)) (toordinal (start_date r2)))
    as [Heq|Hne]; simpl.
  - intros Hn. right. split; [done|]. by apply pystr_le_total.
  - intros _. left. lia.
Qed.

Lemma insert_row_perm x l : insert_row x l ≡ₚ x :: l.
Proof.
  induction l as [|y l IH]; simpl; [done|].
  destruct (row_leb x.2 y.2); [done|].
  by rewrite IH, Permutation_swap.
Qed.

Lemma insertion_sort_rows_perm l : insertion_sort_rows l ≡ₚ l.
Proof.
  induction l as [|x l IH]; simpl; [done|].
  by rewrite insert_row_perm, IH.
Qed.

Lemma insert_row_sorted x l :
  Sorted (λ x y, row_le x.2 y.2) l →
  Sorted (λ x y, row_le x.2 y.2) (insert_row x l).
Proof.
  induction 1 as [|y l Hl IH Hy]; simpl;
    [constructor; constructor|].
  destruct (row_leb x.2 y.2) eqn:E.
  - constructor; [by constructor|]. constructor. by apply row_leb_le.
  - constructor; [done|].
    destruct Hy as [|z l Hz]; simpl.
    + constructor. by apply row_leb_total.
    + destruct (row_leb x.2 z.2); constructor; [by apply row_leb_total|done].
Qed.

Lemma insertion_sort_rows_sorted l :
  Sorted (λ x y, row_le x.2 y.2) (insertion_sort_rows l).
Proof.
  induction l as [|x l IH]; simpl; [constructor|].
  by apply insert_row_sorted.
Qed.

#[local] Instance insertion_sort_by_start_name : SortByStartName :=
  {| sort_by_start_name := insertion_sort_rows;
     sort_by_start_name_perm := insertion_sort_rows_perm;
     sort_by_start_name_sorted := insertion_sort_rows_sorted |}.

End LeaveSheetFacts.

(** ** The theorems at work on the example data *)

Module Witnesses.
Import PyStr PyFloat Openpyxl Pandas VariantDiff Examples.
Import DiffFacts DiffTheorems PandasFacts SummaryTheorems.

(** The examples rank with insertion sort. *)
#[local] Existing Instance insertion_sort_values.

(** The end-to-end example: the Rota sheets differ at B2 only; the diff
    is the one record (B2, 2, 2, Alice, Bob) and the summary counts one
    cell, one row and one column. *)
Lemma example_alice_bob :
  records (diff_sheet wb_alice wb_bob (py "Rota") 5000)
  = [ {| Cell := py "B2"; Row := 2; Col := 2;
         A := py "Alice"; B := py "Bob" |} ]
  ∧ diff_summary (diff_sheet wb_alice wb_bob (py "Rota") 5000)
    = {| changed_cells := 1; changed_rows := 1; changed_cols := 1 |}.
Proof. by vm_compute. Qed.

Lemma example_left_right :
  discrepancies rota_left rota_right
  = [ {| Cell := py "A1"; Row := 1; Col := 1; A := py "x"; B := py "y" |};
      {| Cell := py "A2"; Row := 2; Col := 1; A := py ""; B := py "z" |};
      {| Cell := py "C2"; Row := 2; Col := 3; A := py "2.1"; B := py "2" |} ].
Proof. by vm_compute. Qed.

(** On the end-to-end example nothing is truncated, and B2 is reported. *)
Lemma diff_sheet_complete_witness :
  len (diff_sheet wb_alice wb_bob (py "Rota") 5000) < 5000
  ∧ appears 2 2 (diff_sheet wb_alice wb_bob (py "Rota") 5000)
  ∧ ¬ appears 1 1 (diff_sheet wb_alice wb_bob (py "Rota") 5000).
Proof.
  assert (py "Rota" ∈ sheetnames wb_alice) as Ha by left.
  assert (py "Rota" ∈ sheetnames wb_bob) as Hb by left.
  destruct (diff_sheet_complete wb_alice wb_bob (py "Rota") 5000 Ha Hb)
    as (ws_a & ws_b & Ea & Eb & Hiff & _).
  injection Ea as <-. injection Eb as <-.
  assert (len (diff_sheet wb_alice wb_bob (py "Rota") 5000) < 5000) as Hlen
    by reflexivity.
  split; [exact Hlen|]. split.
  - apply (Hiff Hlen 2 2); [by vm_compute | by vm_compute |].
    vm_compute. discriminate.
  - intros Happ. apply (Hiff Hlen 1 1) in Happ;
      [|by vm_compute | by vm_compute].
    apply Happ. reflexivity.
Defined.

(** With a cap of 2 on three discrepancies, the first two are returned. *)
Lemma diff_sheet_cap_witness :
  records (diff_sheet wb_left wb_right (py "Rota") 2)
  = take 2 (discrepancies rota_left rota_right)
  ∧ Z.of_nat (length (records (diff_sheet wb_left wb_right (py "Rota") 2))) = 2.
Proof.
  destruct (diff_sheet_cap wb_left wb_right (py "Rota") 2 rota_left rota_right
              eq_refl eq_refl) as [_ Hcap].
  destruct (Hcap ltac:(lia)) as (Hk & _ & _).
  destruct Hk as [Hlen Htake]; [reflexivity|].
  split; [exact Htake | exact Hlen].
Defined.

(** The cap contract fails at a cap of 0: one record is returned where the
    contract asks for none. *)
Lemma cap_not_enforced_at_zero :
  ¬ cap_enforced wb_left wb_right (py "Rota") 0.
Proof.
  intros H.
  destruct (H rota_left rota_right eq_refl eq_refl) as [_ H0].
  destruct H0 as [Hlen _]; [reflexivity|].
  vm_compute in Hlen. discriminate.
Qed.

(** With a cap of 0 and a discrepancy in row 1, one record is returned. *)
Lemma diff_sheet_low_cap_witness :
  records (diff_sheet wb_left wb_right (py "Rota") 0)
  = take 1 (discrepancies rota_left rota_right)
  ∧ records (diff_sheet wb_alice wb_bob (py "Rota") 0) = [].
Proof.
  destruct (diff_sheet_low_cap wb_left wb_right (py "Rota") 0
              rota_left rota_right eq_refl eq_refl) as [Hl _].
  destruct (diff_sheet_low_cap wb_alice wb_bob (py "Rota") 0
              rota_alice rota_bob eq_refl eq_refl) as [Ha _].
  destruct (Hl ltac:(lia)) as [Hl1 _].
  destruct (Ha ltac:(lia)) as [_ Ha2].
  split.
  - apply Hl1. vm_compute. discriminate.
  - apply Ha2. reflexivity.
Defined.

(** With a cap of 0 the end-to-end example returns nothing although B2
    differs: row 1 holds no discrepancy and the scan stops after it. *)
Lemma low_cap_can_return_nothing :
  ¬ low_cap_first_discrepancy wb_alice wb_bob (py "Rota") 0.
Proof.
  intros H.
  destruct (H rota_alice rota_bob eq_refl eq_refl) as [H0 _].
  assert (discrepancies rota_alice rota_bob ≠ []) as Hne
    by (vm_compute; discriminate).
  specialize (H0 ltac:(lia) Hne). vm_compute in H0. discriminate.
Qed.

(** The columns of the discrepancies of the lower/upper pair are met in
    the order 2, 1; the ranking lists column 1 first. *)
Lemma example_lower_upper :
  Col <$> records (diff_sheet wb_lower wb_upper (py "Rota") 5000) = [2; 1]
  ∧ records (top_changed_cols (diff_sheet wb_lower wb_upper (py "Rota") 5000) 25)
    = [(1, 1); (2, 1)].
Proof. by vm_compute. Qed.


(** A negative count is not a bound: [head(-1)] drops the last group only. *)
Lemma example_negative_count :
  len (top_changed_cols (diff_sheet wb_lower wb_upper (py "Rota") 5000) (-1))
  = 1.
Proof. by vm_compute. Qed.


(** A sheet name that only one workbook has gives the empty table. *)
Lemma no_data_witness :
  diff_sheet wb_alice wb_bob (py "Notes") 5000 = empty_frame diff_columns
  ∧ common_sheets wb_notes wb_audit = [].
Proof.
  destruct no_data_is_not_an_error as (Hmissing & Hcommon & _).
  split.
  - apply Hmissing. intros [_ Hb]. vm_compute in Hb.
    repeat (apply elem_of_cons in Hb as [Hb|Hb]; [discriminate|]).
    by apply elem_of_nil in Hb.
  - apply Hcommon. intros s [Ha Hb]. vm_compute in Ha, Hb.
    apply elem_of_cons in Ha as [->|Ha]; [|by apply elem_of_nil in Ha].
    apply elem_of_cons in Hb as [Hb|Hb]; [discriminate|].
    by apply elem_of_nil in Hb.
Defined.

End Witnesses.

(** ** Examples for the app *)

Module AppWitnesses.
Import PyStr PyFloat Openpyxl Pandas VariantDiff Examples.
Import PyExn PyDate LeaveApp Drafting Solver AppExamples.
Import PandasFacts MetricsFacts NormMoreFacts LeaveAppFacts.
Import DraftingFacts LeaveSheet LeaveSheetFacts.

#[local] Existing Instance insertion_sort_values.
#[local] Existing Instance insertion_sort_by_start_name.

(** An infinity is mapped to no string: [_norm] raises on it. *)
Lemma infinity_not_normalized :
  ¬ Raising.normalized (Raising.VFloat (Raising.Infinity false)).
Proof. by intros [s Hs]. Qed.

(** The workbooks with three discrepancies under the default cap. *)
Lemma summary_under_cap_witness :
  changed_cells (diff_summary (diff_sheet wb_left wb_right (py "Rota") 5000))
  = 3.
Proof.
  destruct (summary_under_cap wb_left wb_right (py "Rota") 5000
              rota_left rota_right) as (-> & _); [done | done | lia |].
  by vm_compute.
Defined.

(** The rankings of the left/right pair, three rows asked for. *)
Lemma hotspots_cover_witness :
  0 <= 3
  ∧ len (top_changed_rows (diff_sheet wb_left wb_right (py "Rota") 5000) 3) = 2.
Proof.
  split; [lia|].
  destruct (hotspots_cover (diff_sheet wb_left wb_right (py "Rota") 5000) 3)
    as (-> & _); [lia|]. by vm_compute.
Defined.

(** The text " 5 " against the number 5. *)
Lemma norm_ignores_padding_witness :
  blank (py " ") ∧ blank (py " ")
  ∧ _norm (VObj (PyStr (py " " ++ str_int 5 ++ py " ")))
    = _norm (VObj (PyInt 5)).
Proof.
  assert (blank (py " ")) as Hb by (by repeat constructor).
  split_and!; [done | done |].
  by destruct (norm_ignores_padding (py " ") (py "x") (py " ") 5 Hb Hb).
Defined.

(** [1e22] *)
Lemma norm_integral_float_witness :
  valid_float float_1e22 = true ∧ 0 <= 21
  ∧ _norm (VFloat float_1e22) = py "10000000000000000000000".
Proof.
  assert (valid_float float_1e22 = true) as Hv by (by vm_compute).
  split_and!; [done | lia |].
  unfold float_1e22.
  rewrite (norm_integral_float false 4768371582031250 21 Hv); [|lia].
  by vm_compute.
Defined.

(** [1e-10] *)
Lemma norm_tiny_float_witness :
  valid_float float_1e_10 = true
  ∧ _norm (VFloat float_1e_10) = py "0".
Proof.
  assert (valid_float float_1e_10 = true) as Hv by (by vm_compute).
  split; [done|].
  apply (norm_tiny_float false 7737125245533627 (-86) Hv); [lia|].
  by vm_compute.
Defined.

(** The week of Wednesday 2025-01-15. *)
Lemma week_bounds_spec_witness :
  valid_date d_2025_01_15
  ∧ week_bounds d_2025_01_15 = Ok (d_2025_01_13, d_2025_01_19).
Proof.
  assert (valid_date d_2025_01_15) as Hd by (by vm_compute).
  split; [done|].
  destruct (week_bounds_spec d_2025_01_15 Hd) as [Hok _].
  destruct Hok as (s & e & E & _); [by vm_compute|].
  rewrite E. vm_compute in E. by injection E as <- <-.
Defined.

Lemma week_bounds_same_week_witness :
  valid_date d_2025_01_15
  ∧ week_bounds d_2025_01_19 = Ok (d_2025_01_13, d_2025_01_19).
Proof.
  assert (valid_date d_2025_01_15) as Hd by (by vm_compute).
  split; [done|].
  apply (week_bounds_same_week d_2025_01_15 _ _ _ Hd); by vm_compute.
Defined.

Lemma weekend_bounds_spec_witness :
  valid_date d_2025_01_15
  ∧ ∃ sat, weekend_bounds d_2025_01_15 = Ok (sat, d_2025_01_19).
Proof.
  assert (valid_date d_2025_01_15) as Hd by (by vm_compute).
  split; [done|].
  destruct (weekend_bounds_spec d_2025_01_15 Hd) as [Hok _].
  destruct Hok as (s & e & sat & sun & Ew & E & _ & -> & _); [by vm_compute|].
  exists sat. rewrite E. vm_compute in Ew. by injection Ew as _ <-.
Defined.

(** The week of 2025-01-13 against January 2025. *)
Lemma overlap_spec_witness :
  toordinal d_2025_01_13 <= toordinal d_2025_01_19
  ∧ toordinal d_2025_01_01 <= toordinal d_2025_01_31
  ∧ overlap d_2025_01_01 d_2025_01_31 d_2025_01_13 d_2025_01_19 = true.
Proof.
  assert (toordinal d_2025_01_13 <= toordinal d_2025_01_19) as H1
    by (by vm_compute).
  assert (toordinal d_2025_01_01 <= toordinal d_2025_01_31) as H2
    by (by vm_compute).
  split_and!; [done | done |].
  destruct (overlap_spec d_2025_01_13 d_2025_01_19 d_2025_01_01 d_2025_01_31
              H1 H2) as [_ ->].
  by vm_compute.
Defined.

(** An admin's leave request inside the published January. *)
Lemma leave_submit_insert_witness :
  ∃ row, leave_submit (py "u1") (py "a@b") true january (py " Ada ")
           (py "Annual") (py "") d_2025_01_13 d_2025_01_19 = Insert row
         ∧ leave_consultant_name row = py "Ada".
Proof.
  destruct (leave_submit (py "u1") (py "a@b") true january (py " Ada ")
              (py "Annual") (py "") d_2025_01_13 d_2025_01_19)
    as [msg|row] eqn:E; [by vm_compute in E|].
  exists row. split; [done|].
  destruct (leave_submit_insert _ _ _ _ _ _ _ _ _ row E)
    as (_ & _ & _ & -> & _).
  by vm_compute.
Defined.

Lemma pref_submit_date_order_witness :
  valid_date d_2025_01_15
  ∧ pref_submit (py "u1") (py "a@b") false january (py "Ada")
      (py "Date range") (py "A") (py "") 3 d_2025_01_15 d_2025_01_13
    = Ok (ShowError (py "Date to cannot be earlier than Date from.")).
Proof.
  assert (valid_date d_2025_01_15) as Hd by (by vm_compute).
  split; [done|].
  apply (pref_submit_date_order _ _ _ _ _ _ _ _ _ _ _ Hd).
  split; [done | by vm_compute].
Defined.

(** A week preference in February, outside the published January. *)
Lemma pref_submit_insert_witness :
  ∃ row, pref_submit (py "u1") (py "a@b") false january (py "Ada")
           (py "Week") (py "A") (py "") 3 d_2025_02_10 d_2025_02_10
         = Ok (Insert row)
         ∧ toordinal (pref_start_date row) <= toordinal (pref_end_date row).
Proof.
  destruct (pref_submit (py "u1") (py "a@b") false january (py "Ada")
              (py "Week") (py "A") (py "") 3 d_2025_02_10 d_2025_02_10)
    as [[msg|row]|] eqn:E; try (by vm_compute in E).
  exists row. split; [done|].
  by destruct (pref_submit_insert _ _ _ _ _ _ _ _ _ _ _ row E) as (_ & ? & _).
Defined.

(** The example requests cut to January 2025. *)
Lemma requests_truncated_witness :
  unique_index requests
  ∧ ∃ rows, leave_final d_2025_01_01 d_2025_01_31 true requests = Final rows
            ∧ length rows = 2%nat.
Proof.
  assert (unique_index requests) as Hu
    by (apply (bool_decide_unpack _); by vm_compute).
  split; [done|].
  destruct (requests_truncated d_2025_01_01 d_2025_01_31 requests requests
              Hu Hu) as (rows & _ & E & _ & -> & _).
  exists ((λ ir, (ir.1, clip d_2025_01_01 d_2025_01_31 ir.2))
            <$> where_ (λ r, approved r
                             && overlap (start_date r) (end_date r)
                                  d_2025_01_01 d_2025_01_31) requests).
  split; [done | by vm_compute].
Defined.

(** The example requests written into the example sheet: three rows
    written, the fourth of the old rows emptied. *)
Lemma leave_sheet_written_witness :
  Forall legal_row requests.*2
  ∧ unmerged leave_template 2
      (Z.of_nat (length requests)
       `max` filled_rows leave_template (range 2 5000))
  ∧ ∃ ws', write_leave_sheet leave_template requests = Ok ws'
           ∧ cell_at ws' 5 2 = Cell VNone.
Proof.
  assert (Forall legal_row requests.*2) as Hl.
  { unfold requests. cbn [fmap list_fmap snd].
    repeat (constructor; [split; by vm_compute|]). constructor. }
  assert (filled_rows leave_template (range 2 5000) = 4) as Hk
    by (by vm_compute).
  assert (unmerged leave_template 2
            (Z.of_nat (length requests)
             `max` filled_rows leave_template (range 2 5000))) as Hu.
  { rewrite Hk. intros r c Hr Hc.
    assert (r = 2 ∨ r = 3 ∨ r = 4 ∨ r = 5) as Hrs by (simpl in Hr; lia).
    assert (c = 1 ∨ c = 2 ∨ c = 3 ∨ c = 4 ∨ c = 5) as Hcs by lia.
    destruct Hrs as [->|[->|[->| ->]]];
      destruct Hcs as [->|[->|[->|[->| ->]]]]; by vm_compute. }
  split; [done|]. split; [done|].
  destruct (leave_sheet_written leave_template requests Hl Hu)
    as (rs & ws' & Hp & _ & E & _ & Hstale & _).
  exists ws'. split; [done|].
  apply Permutation_length in Hp.
  apply Hstale; [|lia]. rewrite Hp, Hk. simpl. lia.
Defined.

End AppWitnesses.
